(** * Online theatre with chat room: signalling and process supervision

    A shallow embedding of the session coordinator
    ([network/websocket_server.py]), the session client
    ([network/websocket_client.py]), the process supervisor
    ([utils/process_manager.py], [streaming/ffmpeg_manager.py]) and the port
    allocator ([utils/network_utils.py]).

    Python values are modelled as follows.  An [int] is a [Z].  A value that
    is either a [str] or [None] is an [option string].  A [dict] is an
    association list in insertion order with unique keys, a [set] is a
    [gset].  Everything the code asks of the operating system, of the network
    or of the clock is an explicit environment argument, and everything it
    does to them is recorded in a trace of events. *)

From stdpp Require Import gmap strings list pretty.

Local Open Scope Z_scope.

(** ** utils/network_utils.py *)

Module NetworkUtils.

Inductive family := AF_INET | AF_INET6.

(** What the operating system answers to the calls made inside the [with]
    block of [is_port_available]: [false] stands for a raised [OSError]. *)
Record os := Os {
  socket_ok : family → bool;
  bind_ok : family → string → Z → bool;
  listen_ok : family → string → Z → bool
}.

(** One test socket that was opened: its family, the address it was bound
    to, and whether bind and listen both went through. *)
Record probe := Probe {
  probe_family : family;
  probe_host : string;
  probe_port : Z;
  probe_ok : bool
}.

Definition bind_addr (f : family) (host : string) (port : Z) : string * Z :=
  match f with
  | AF_INET6 => (if decide (host = "") then "::" else host, port)
  | AF_INET => (if decide (host = "") then "0.0.0.0" else host, port)
  end.

(** The body of the [try] for one family. *)
Definition test_family (o : os) (f : family) (host : string) (port : Z) : bool :=
  let '(h, p) := bind_addr f host port in
  socket_ok o f && bind_ok o f h p && listen_ok o f h p.

Fixpoint is_port_available_loop (o : os) (families : list family)
    (host : string) (port : Z) : bool * list probe :=
  match families with
  | [] => (true, [])
  | f :: rest =>
      let ok := test_family o f host port in
      let ev := Probe f (bind_addr f host port).1 port ok in
      if ok then
        let '(r, t) := is_port_available_loop o rest host port in (r, ev :: t)
      else (false, [ev])
  end.

Definition is_port_available (o : os) (port : Z) (host : string) : bool * list probe :=
  is_port_available_loop o [AF_INET; AF_INET6] host port.

(** [for i in range(max_attempts)], with [n] iterations left. *)
Fixpoint find_available_port_loop (o : os) (start_port i : Z) (n : nat)
    : option Z * list probe :=
  match n with
  | O => (None, [])
  | S n' =>
      let port := start_port + i in
      let '(ok, t) := is_port_available o port "" in
      if ok then (Some port, t)
      else
        let '(r, t') := find_available_port_loop o start_port (i + 1) n' in
        (r, t ++ t')
  end.

Definition find_available_port (o : os) (start_port max_attempts : Z)
    : option Z * list probe :=
  find_available_port_loop o start_port 0 (Z.to_nat max_attempts).

(** The specification's notion of availability: the test succeeds for the
    given family at the wildcard address. *)
Definition family_free (o : os) (f : family) (port : Z) : Prop :=
  test_family o f "" port = true.

Definition fully_available (o : os) (port : Z) : Prop :=
  family_free o AF_INET port ∧ family_free o AF_INET6 port.

(** [s.lstrip(chars)] and [s.strip(chars)] *)
Fixpoint lstrip (chars : string) (s : string) : string :=
  match s with
  | String a s' =>
      if bool_decide (a ∈ String.list_ascii_of_string chars) then lstrip chars s'
      else s
  | EmptyString => EmptyString
  end.

Definition strip (chars : string) (s : string) : string :=
  String.rev (lstrip chars (String.rev (lstrip chars s))).

(** [format_ipv6_for_url].  [is_valid_ipv6] stands for the method of that
    name, which asks the [ipaddress] library. *)
Definition format_ipv6_for_url (is_valid_ipv6 : string → bool) (ip : string) : string :=
  if is_valid_ipv6 ip then
    "[" +:+ strip "[]" ip +:+ "]"
  else ip.

End NetworkUtils.

(** ** Python dictionaries

    A [dict] keeps its keys unique and in insertion order: [d[k] = v]
    overwrites in place when [k] is present and appends otherwise. *)

Module Dict.
Section dict.
Context {K V : Type} `{EqDecision K}.

Fixpoint get (d : list (K * V)) (k : K) : option V :=
  match d with
  | [] => None
  | (k', v) :: d' => if decide (k = k') then Some v else get d' k
  end.

(** [k in d] *)
Definition mem (d : list (K * V)) (k : K) : bool :=
  match get d k with Some _ => true | None => false end.

(** [d[k] = v] *)
Fixpoint set (d : list (K * V)) (k : K) (v : V) : list (K * V) :=
  match d with
  | [] => [(k, v)]
  | (k', v') :: d' =>
      if decide (k = k') then (k, v) :: d' else (k', v') :: set d' k v
  end.

(** [del d[k]] *)
Fixpoint del (d : list (K * V)) (k : K) : list (K * V) :=
  match d with
  | [] => []
  | (k', v') :: d' =>
      if decide (k = k') then del d' k else (k', v') :: del d' k
  end.

Definition keys (d : list (K * V)) : list K := d.*1.
Definition values (d : list (K * V)) : list V := d.*2.
End dict.
End Dict.

(** ** utils/process_manager.py *)

Module ProcessManager.

(** A [subprocess.Popen] object. *)
Record popen := Popen { pid : Z }.

(** A Python callable handed in as an output callback. *)
Definition callback := nat.

Definition environ := list (string * string).

(** The monitor threads, with the arguments they were started with. *)
Inductive thread :=
| MonitorOutput (name : string) (process : popen)
    (stdout_callback stderr_callback : option callback)
    (restart_on_exit : bool) (command : list string)
    (cwd : option string) (env : option environ)
| MonitorExit (name : string) (process : popen) (command : list string)
    (cwd : option string) (env : option environ).

Record t := Manager {
  _processes : list (string * popen);
  _threads : list (string * thread);
  _shutdown_event : bool
}.

Inductive signal := CTRL_BREAK_EVENT | SIGTERM | SIGKILL.

(** What the manager does to the outside world. *)
Inductive event :=
| Launch (command : list string) (cwd : option string) (env : option environ)
    (pipe_stdout pipe_stderr : bool) (result : option popen)
| ThreadStart (th : thread)
| Signal (process : popen) (s : signal)
| Wait (process : popen) (timeout : option Z)
| Sleep (seconds : Z).

Definition is_some {A} (o : option A) : bool :=
  match o with Some _ => true | None => false end.

(** [start_process].  [spawned] is what [subprocess.Popen] answers: a new
    process object, or [None] when it raises. *)
Definition start_process (spawned : option popen) (m : t)
    (name : string) (command : list string) (cwd : option string)
    (env : option environ) (stdout_callback stderr_callback : option callback)
    (restart_on_exit : bool) : t * bool * list event :=
  if Dict.mem (_processes m) name then (m, false, [])
  else
    let launch :=
      Launch command cwd env (is_some stdout_callback) (is_some stderr_callback) spawned in
    match spawned with
    | None => (m, false, [launch])
    | Some process =>
        let procs := Dict.set (_processes m) name process in
        if is_some stdout_callback || is_some stderr_callback then
          let th := MonitorOutput name process stdout_callback stderr_callback
                      restart_on_exit command cwd env in
          (Manager procs (Dict.set (_threads m) name th) (_shutdown_event m),
           true, [launch; ThreadStart th])
        else if restart_on_exit then
          let th := MonitorExit name process command cwd env in
          (Manager procs (Dict.set (_threads m) name th) (_shutdown_event m),
           true, [launch; ThreadStart th])
        else (Manager procs (_threads m) (_shutdown_event m), true, [launch])
    end.

(** The two [if name in ...: del ...] under the lock of a monitor. *)
Definition forget (m : t) (name : string) : t :=
  Manager
    (if Dict.mem (_processes m) name then Dict.del (_processes m) name else _processes m)
    (if Dict.mem (_threads m) name then Dict.del (_threads m) name else _threads m)
    (_shutdown_event m).

(** What happens around a monitor thread while it runs: the exit code the
    watched process ends with, what the other threads do to the manager
    while the monitor sleeps, and what [subprocess.Popen] answers if the
    monitor starts the process again. *)
Record monitor_env := MonitorEnv {
  exit_code : Z;
  during_sleep : t → t;
  respawned : option popen
}.

(** [_monitor_process_output].  The reader threads only hand lines to the
    callbacks and are left out. *)
Definition _monitor_process_output (e : monitor_env) (m : t)
    (name : string) (process : popen)
    (stdout_callback stderr_callback : option callback)
    (restart_on_exit : bool) (command : list string)
    (cwd : option string) (env : option environ) : t * list event :=
  let m1 := forget m name in
  if restart_on_exit && negb (_shutdown_event m1) then
    let m2 := during_sleep e m1 in
    if negb (_shutdown_event m2) then
      let '(m3, _, t) :=
        start_process (respawned e) m2 name command cwd env
          stdout_callback stderr_callback restart_on_exit in
      (m3, [Wait process None; Sleep 3] ++ t)
    else (m2, [Wait process None; Sleep 3])
  else (m1, [Wait process None]).

(** [_monitor_process_exit] *)
Definition _monitor_process_exit (e : monitor_env) (m : t)
    (name : string) (process : popen) (command : list string)
    (cwd : option string) (env : option environ) : t * list event :=
  let m1 := forget m name in
  if decide (exit_code e ≠ 0) then
    if negb (_shutdown_event m1) then
      let m2 := during_sleep e m1 in
      if negb (_shutdown_event m2) then
        let '(m3, _, t) :=
          start_process (respawned e) m2 name command cwd env None None true in
        (m3, [Wait process None; Sleep 3] ++ t)
      else (m2, [Wait process None; Sleep 3])
    else (m1, [Wait process None])
  else (m1, [Wait process None]).

(** The body a monitor thread runs. *)
Definition run_thread (e : monitor_env) (m : t) (th : thread) : t * list event :=
  match th with
  | MonitorOutput name process out err restart command cwd env =>
      _monitor_process_output e m name process out err restart command cwd env
  | MonitorExit name process command cwd env =>
      _monitor_process_exit e m name process command cwd env
  end.

Inductive wait_result := Exited | TimeoutExpired.

(** What the process and the platform answer during [stop_process]:
    [false] stands for a raised exception. *)
Record stop_env := StopEnv {
  windows : bool;
  signal_ok : bool;
  first_wait : wait_result;
  kill_ok : bool;
  second_wait : wait_result
}.

Definition graceful (e : stop_env) : signal :=
  if windows e then CTRL_BREAK_EVENT else SIGTERM.

(** [stop_process] *)
Definition stop_process (e : stop_env) (m : t) (name : string) (timeout : Z)
    : t * bool * list event :=
  match Dict.get (_processes m) name with
  | None => (m, false, [])
  | Some process =>
      let removed :=
        Manager (Dict.del (_processes m) name)
          (if Dict.mem (_threads m) name then Dict.del (_threads m) name
           else _threads m)
          (_shutdown_event m) in
      if negb (signal_ok e) then (m, false, [Signal process (graceful e)])
      else
        match first_wait e with
        | Exited =>
            (removed, true,
             [Signal process (graceful e); Wait process (Some timeout)])
        | TimeoutExpired =>
            if negb (kill_ok e) then
              (m, false,
               [Signal process (graceful e); Wait process (Some timeout);
                Signal process SIGKILL])
            else
              match second_wait e with
              | Exited =>
                  (removed, true,
                   [Signal process (graceful e); Wait process (Some timeout);
                    Signal process SIGKILL; Wait process (Some 2)])
              | TimeoutExpired =>
                  (m, false,
                   [Signal process (graceful e); Wait process (Some timeout);
                    Signal process SIGKILL; Wait process (Some 2)])
              end
        end
  end.

(** [is_process_running]: [alive p] tells whether [p.poll()] is [None]. *)
Definition is_process_running (alive : popen → bool) (m : t) (name : string) : bool :=
  match Dict.get (_processes m) name with
  | None => false
  | Some process => alive process
  end.

(** [get_all_processes] *)
Definition get_all_processes (m : t) : list string := Dict.keys (_processes m).

(** What a call into [psutil] does: it returns, it raises [NoSuchProcess],
    or it raises something else. *)
Inductive psutil_result := Returned | NoSuchProcess | OtherFailure.

(** What [psutil] answers during [stop_process_tree]: whether the process
    is found, its descendants ([None] when listing them raises), what
    terminating and killing do, and which processes [wait_procs] reports as
    still alive. *)
Record tree_env := TreeEnv {
  found : bool;
  children : option (list popen);
  child_terminate : popen → psutil_result;
  parent_terminate : psutil_result;
  still_alive : list popen;
  kill : popen → psutil_result
}.

(** [for q in ps: try: q.signal() except psutil.NoSuchProcess: pass]; the
    boolean tells whether the loop ran to its end. *)
Fixpoint signal_each (outcome : popen → psutil_result) (s : signal)
    (ps : list popen) : bool * list event :=
  match ps with
  | [] => (true, [])
  | q :: rest =>
      match outcome q with
      | OtherFailure => (false, [Signal q s])
      | _ => let '(ok, t) := signal_each outcome s rest in (ok, Signal q s :: t)
      end
  end.

(** [stop_process_tree] *)
Definition stop_process_tree (e : tree_env) (m : t) (name : string) (timeout : Z)
    : t * bool * list event :=
  match Dict.get (_processes m) name with
  | None => (m, false, [])
  | Some process =>
      if negb (found e) then (m, false, [])
      else
        match children e with
        | None => (m, false, [])
        | Some kids =>
            let '(ok1, t1) := signal_each (child_terminate e) SIGTERM kids in
            if negb ok1 then (m, false, t1)
            else
              match parent_terminate e with
              | Returned =>
                  let t2 := (λ q, Wait q (Some timeout)) <$> (process :: kids) in
                  let '(ok3, t3) := signal_each (kill e) SIGKILL (still_alive e) in
                  if negb ok3
                  then (m, false, t1 ++ [Signal process SIGTERM] ++ t2 ++ t3)
                  else
                    (Manager (Dict.del (_processes m) name)
                       (if Dict.mem (_threads m) name
                        then Dict.del (_threads m) name else _threads m)
                       (_shutdown_event m),
                     true, t1 ++ [Signal process SIGTERM] ++ t2 ++ t3)
              | _ => (m, false, t1 ++ [Signal process SIGTERM])
              end
        end
  end.

(** What [stop_all] meets: whether a name makes it stop the whole tree
    (['nginx' in name.lower()]), and what stopping each name runs into. *)
Record stop_all_env := StopAllEnv {
  is_tree : string → bool;
  stopping_of : string → stop_env;
  tree_of : string → tree_env
}.

(** The [for name in processes] of [stop_all]. *)
Fixpoint stop_each (e : stop_all_env) (m : t) (names : list string) (timeout : Z)
    : t * list event :=
  match names with
  | [] => (m, [])
  | name :: rest =>
      let '(m1, _, t1) :=
        if is_tree e name then stop_process_tree (tree_of e name) m name timeout
        else stop_process (stopping_of e name) m name timeout in
      let '(m2, t2) := stop_each e m1 rest timeout in
      (m2, t1 ++ t2)
  end.

(** [stop_all] *)
Definition stop_all (e : stop_all_env) (m : t) (timeout : Z) : t * list event :=
  let m1 := Manager (_processes m) (_threads m) true in
  let '(m2, t) := stop_each e m1 (get_all_processes m1) timeout in
  (Manager (_processes m2) [] (_shutdown_event m2), t).

(** [cleanup] *)
Definition cleanup (e : stop_all_env) (m : t) : t * list event :=
  let '(_, t) := stop_all e m 5 in
  (Manager [] [] false, t).

End ProcessManager.

(** ** streaming/ffmpeg_manager.py *)

Module FFmpegManager.

Record info := Info {
  type : string;
  rtmp_url : string;
  srt_port : Z;
  bind_ip : string
}.

(** [process_manager] is the process-wide manager every component shares. *)
Record t := Manager {
  process_manager : ProcessManager.t;
  ffmpeg_path : string;
  processes : list (string * info)
}.

(** config.FFMPEG_PARAMS *)
Definition common : list string :=
  ["-hide_banner"; "-loglevel"; "warning"; "-stats"; "-nostdin"].
Definition srt_output_latency : Z := 3000.

(** The two lambdas handed to the process manager. *)
Definition on_stdout : ProcessManager.callback := 1%nat.
Definition on_stderr : ProcessManager.callback := 2%nat.

Definition relay_command (m : t) (rtmp : string) (port : Z) (ip : string)
    : list string :=
  [ffmpeg_path m] ++ common
  ++ ["-analyzeduration"; "5000000"; "-probesize"; "5000000"; "-fflags"; "+genpts"]
  ++ ["-re"; "-i"; rtmp]
  ++ ["-c"; "copy"; "-f"; "mpegts";
      "srt://" +:+ ip +:+ ":" +:+ pretty port +:+ "?mode=listener&latency="
        +:+ pretty srt_output_latency].

(** [start_rtmp_to_srt] *)
Definition start_rtmp_to_srt (is_valid_ipv6 : string → bool)
    (spawned : option ProcessManager.popen) (m : t)
    (rtmp : string) (port : Z) (ip : string) (process_name : option string)
    : t * bool * list ProcessManager.event :=
  let process_name :=
    match process_name with
    | None => "rtmp_to_srt_" +:+ pretty port
    | Some n => n
    end in
  if Dict.mem (processes m) process_name then (m, false, [])
  else
    let ip :=
      if is_valid_ipv6 ip then NetworkUtils.format_ipv6_for_url is_valid_ipv6 ip
      else ip in
    let command := relay_command m rtmp port ip in
    let '(pm, success, t) :=
      ProcessManager.start_process spawned (process_manager m) process_name
        command None None (Some on_stdout) (Some on_stderr) false in
    if success then
      (Manager pm (ffmpeg_path m)
         (Dict.set (processes m) process_name (Info "rtmp_to_srt" rtmp port ip)),
       true, t)
    else (Manager pm (ffmpeg_path m) (processes m), false, t).

(** [stop_process] *)
Definition stop_process (e : ProcessManager.stop_env) (m : t)
    (process_name : string) : t * bool * list ProcessManager.event :=
  if negb (Dict.mem (processes m) process_name) then (m, false, [])
  else
    let '(pm, success, t) :=
      ProcessManager.stop_process e (process_manager m) process_name 5 in
    if success then
      (Manager pm (ffmpeg_path m) (Dict.del (processes m) process_name), true, t)
    else (Manager pm (ffmpeg_path m) (processes m), false, t).

Definition srt_input_latency : Z := 120.

Definition intake_command (m : t) (port : Z) (rtmp : string) (ip : string)
    : list string :=
  [ffmpeg_path m] ++ common
  ++ ["-analyzeduration"; "10000000"; "-probesize"; "10000000"; "-fflags"; "+genpts"]
  ++ ["-i";
      "srt://" +:+ ip +:+ ":" +:+ pretty port +:+ "?mode=listener&latency="
        +:+ pretty srt_input_latency]
  ++ ["-c"; "copy"; "-f"; "flv"; "-flvflags"; "no_duration_filesize"; rtmp].

(** [start_srt_to_rtmp] *)
Definition start_srt_to_rtmp (is_valid_ipv6 : string → bool)
    (spawned : option ProcessManager.popen) (m : t)
    (port : Z) (rtmp : option string) (ip : string) (process_name : option string)
    : t * bool * list ProcessManager.event :=
  let process_name :=
    match process_name with
    | None => "srt_to_rtmp_" +:+ pretty port
    | Some n => n
    end in
  if Dict.mem (processes m) process_name then (m, false, [])
  else
    let rtmp :=
      match rtmp with
      | None => "rtmp://127.0.0.1:" +:+ pretty 1935 +:+ "/live/stream"
      | Some u => u
      end in
    let ip :=
      if is_valid_ipv6 ip then NetworkUtils.format_ipv6_for_url is_valid_ipv6 ip
      else ip in
    let command := intake_command m port rtmp ip in
    let '(pm, success, t) :=
      ProcessManager.start_process spawned (process_manager m) process_name
        command None None (Some on_stdout) (Some on_stderr) true in
    if success then
      (Manager pm (ffmpeg_path m)
         (Dict.set (processes m) process_name (Info "srt_to_rtmp" rtmp port ip)),
       true, t)
    else (Manager pm (ffmpeg_path m) (processes m), false, t).

(** [get_all_processes] *)
Definition get_all_processes (m : t) : list string := Dict.keys (processes m).

(** [is_process_running] *)
Definition is_process_running (alive : ProcessManager.popen → bool) (m : t)
    (process_name : string) : bool :=
  if negb (Dict.mem (processes m) process_name) then false
  else ProcessManager.is_process_running alive (process_manager m) process_name.

(** The loop of [stop_all] over [list(self.processes.keys())]. *)
Fixpoint stop_each (e : string → ProcessManager.stop_env) (m : t)
    (names : list string) : t * list ProcessManager.event :=
  match names with
  | [] => (m, [])
  | name :: rest =>
      let '(m1, _, t1) := stop_process (e name) m name in
      let '(m2, t2) := stop_each e m1 rest in
      (m2, t1 ++ t2)
  end.

(** [stop_all] *)
Definition stop_all (e : string → ProcessManager.stop_env) (m : t)
    : t * list ProcessManager.event :=
  stop_each e m (get_all_processes m).

End FFmpegManager.

(** ** network/websocket_server.py *)

Module WebSocketServer.

(** A connection is named by [id(websocket)]. *)
Definition client_id (ws : N) : string := "client_" +:+ pretty ws.

Record client_info := ClientInfo {
  websocket : N;
  authenticated : bool;
  nickname : option string;
  srt_port : option Z
}.

(** How an f-string prints a value that is a [str] or [None]. *)
Definition fmt (v : option string) : string := default "None" v.

(** Truth value of a [str] or [None], and of an [int] or [None]. *)
Definition truthy_str (v : option string) : bool :=
  match v with Some s => bool_decide (s ≠ "") | None => false end.
Definition truthy_int (v : option Z) : bool :=
  match v with Some n => bool_decide (n ≠ 0) | None => false end.

(** *** Messages *)

(** A field of a received JSON object: missing, [null], or a string.  The
    frames of this protocol carry no other value in the fields the server
    reads, so numbers, arrays and nested objects are left out. *)
Inductive field := Absent | Null | Str (s : string).

(** [data.get(key)] and [data.get(key, default)] *)
Definition get (f : field) : option string :=
  match f with Str s => Some s | _ => None end.
Definition get_default (f : field) (d : string) : option string :=
  match f with Absent => Some d | Null => None | Str s => Some s end.

Record object := Object {
  f_type : field;
  f_code : field;
  f_nickname : field;
  f_message : field
}.

(** What [json.loads] makes of a received frame: it raises, it yields a
    value that is not an object, or it yields an object. *)
Inductive inbound :=
| BadJson
| NotAnObject
| Obj (data : object).

Record member := Member { member_nickname : option string; role : string }.

(** The payloads the server sends, one per value of [type]. *)
Inductive message :=
| AuthFailed (text : string)
| AuthSuccess (nick : option string) (port : Z) (server_ip : string)
| Join (nick : option string) (text : string)
| Leave (nick : option string) (text : string)
| Chat (nick : option string) (text : option string) (timestamp : string)
| Members (members : list member)
| Error (text : string)
| Heartbeat.

Inductive event :=
| Send (ws : N) (m : message) (delivered : bool)
| Close (ws : N)
| OnMessage (nick : option string) (text : option string)
| OnMemberUpdate (members : list member)
| Probed (p : NetworkUtils.probe)
| Process (ev : ProcessManager.event).

(** *** State and environment *)

Record t := Server {
  verification_code : string;
  clients : list (string * client_info);
  nicknames : gset (option string);
  running : bool;
  ffmpeg_manager : FFmpegManager.t;
  next_srt_port : Z;
  bind_ip : string;
  port : Z;
  sender_nickname : option string;
  on_message_callback : bool;
  on_member_update_callback : bool
}.

(** What one handler sees of the outside world while it runs:
    [send_ok ws] tells whether [ws.send] returns rather than raises. *)
Record env := Env {
  send_ok : N → bool;
  now : string;
  net : NetworkUtils.os;
  is_valid_ipv6 : string → bool;
  spawned : option ProcessManager.popen;
  stopping : ProcessManager.stop_env
}.

(** config.NETWORK_DEFAULTS and config.NGINX_CONFIG *)
Definition default_verification_code : string := "114514".
Definition srt_base_port : Z := 10000.
Definition websocket_port : Z := 10086.
Definition rtmp_port : Z := 1935.

Definition set_clients (s : t) (c : list (string * client_info)) : t :=
  Server (verification_code s) c (nicknames s) (running s) (ffmpeg_manager s)
    (next_srt_port s) (bind_ip s) (port s) (sender_nickname s)
    (on_message_callback s) (on_member_update_callback s).
Definition set_nicknames (s : t) (n : gset (option string)) : t :=
  Server (verification_code s) (clients s) n (running s) (ffmpeg_manager s)
    (next_srt_port s) (bind_ip s) (port s) (sender_nickname s)
    (on_message_callback s) (on_member_update_callback s).
Definition set_ffmpeg_manager (s : t) (f : FFmpegManager.t) : t :=
  Server (verification_code s) (clients s) (nicknames s) (running s) f
    (next_srt_port s) (bind_ip s) (port s) (sender_nickname s)
    (on_message_callback s) (on_member_update_callback s).
Definition set_next_srt_port (s : t) (p : Z) : t :=
  Server (verification_code s) (clients s) (nicknames s) (running s)
    (ffmpeg_manager s) p (bind_ip s) (port s) (sender_nickname s)
    (on_message_callback s) (on_member_update_callback s).

(** [__init__] *)
Definition init (verification_code : option string) (fm : FFmpegManager.t) : t :=
  Server
    (if truthy_str verification_code then fmt verification_code
     else default_verification_code)
    [] ∅ false fm srt_base_port "0.0.0.0" websocket_port None false false.

(** *** Sending *)

(** [_send_message] and [_send_raw_message]: a failed send is logged. *)
Definition _send_message (e : env) (ws : N) (m : message) : list event :=
  [Send ws m (send_ok e ws)].

Definition _send_error (e : env) (ws : N) (text : string) : list event :=
  _send_message e ws (Error text).

(** [_broadcast_message]: one send task per authenticated record. *)
Definition _broadcast_message (e : env) (s : t) (m : message) : list event :=
  flat_map
    (λ ci, if authenticated ci then _send_message e (websocket ci) m else [])
    (Dict.values (clients s)).

(** [get_online_members] *)
Definition get_online_members (s : t) : list member :=
  (if truthy_str (sender_nickname s) then [Member (sender_nickname s) "sender"]
   else [])
  ++ flat_map
       (λ ci, if authenticated ci && truthy_str (nickname ci)
              then [Member (nickname ci) "receiver"] else [])
       (Dict.values (clients s)).

Definition _send_members_list (e : env) (s : t) (ws : N) : list event :=
  _send_message e ws (Members (get_online_members s)).

Definition _notify_member_update (e : env) (s : t) : list event :=
  _broadcast_message e s (Members (get_online_members s))
  ++ (if on_member_update_callback s
      then [OnMemberUpdate (get_online_members s)] else []).

(** [start] : [serve_ok] tells whether [websockets.serve] returns. *)
Definition start (e : env) (serve_ok : bool) (s : t)
    (host : string) (p : Z) (nick : string) : t * bool * list event :=
  let s1 :=
    Server (verification_code s) (clients s) ({[Some nick]} ∪ nicknames s)
      (running s) (ffmpeg_manager s) (next_srt_port s) host p (Some nick)
      (on_message_callback s) (on_member_update_callback s) in
  if serve_ok then
    let s2 :=
      Server (verification_code s1) (clients s1) (nicknames s1) true
        (ffmpeg_manager s1) (next_srt_port s1) (bind_ip s1) (port s1)
        (sender_nickname s1) (on_message_callback s1)
        (on_member_update_callback s1) in
    (s2, true,
     if on_member_update_callback s2 then _notify_member_update e s2 else [])
  else (s1, false, []).

(** *** Authentication *)

(** [f"{original_nickname}_{counter}"] *)
Definition suffixed (original : option string) (counter : Z) : option string :=
  Some (fmt original +:+ "_" +:+ pretty counter).

(** [while f"{original_nickname}_{counter}" in self.nicknames: counter += 1].
    The loop is run for at most [fuel] rounds; [first_unused_spec] below
    shows that with [size nicknames] rounds it always leaves through its
    condition. *)
Fixpoint first_unused (names : gset (option string)) (original : option string)
    (counter : Z) (fuel : nat) : Z :=
  match fuel with
  | O => counter
  | S fuel' =>
      if decide (suffixed original counter ∈ names)
      then first_unused names original (counter + 1) fuel'
      else counter
  end.

Definition resolve_nickname (names : gset (option string))
    (requested : option string) : option string :=
  if decide (requested ∈ names) then
    suffixed requested (first_unused names requested 2 (size names))
  else requested.

(** [_allocate_srt_port] *)
Definition _allocate_srt_port (e : env) (s : t) : t * option Z * list event :=
  let '(found, t) := NetworkUtils.find_available_port (net e) (next_srt_port s) 100 in
  (if truthy_int found then set_next_srt_port s (default 0 found + 1) else s,
   found, Probed <$> t).

Definition relay_name (nick : option string) (p : Z) : string :=
  "client_" +:+ fmt nick +:+ "_" +:+ pretty p.

Definition rtmp_source : string :=
  "rtmp://127.0.0.1:" +:+ pretty rtmp_port +:+ "/live/stream".

(** [_handle_auth].  The result carries the handler's own [client_info],
    which is the object stored in [clients] on success. *)
Definition _handle_auth (e : env) (s : t) (client_id : string)
    (ci : client_info) (data : object) : t * client_info * list event :=
  let code := get (f_code data) in
  let ws := websocket ci in
  if decide (code ≠ Some (verification_code s)) then
    (s, ci, _send_message e ws (AuthFailed "验证码错误") ++ [Close ws])
  else
    let nick := resolve_nickname (nicknames s) (get (f_nickname data)) in
    let '(s1, found, t1) := _allocate_srt_port e s in
    match found with
    | None => (s1, ci, t1 ++ _send_error e ws "无法分配SRT端口" ++ [Close ws])
    | Some p =>
        let '(fm, success, t2) :=
          FFmpegManager.start_rtmp_to_srt (is_valid_ipv6 e) (spawned e)
            (ffmpeg_manager s1) rtmp_source p (bind_ip s1)
            (Some (relay_name nick p)) in
        let s2 := set_ffmpeg_manager s1 fm in
        if negb success then
          (s2, ci,
           t1 ++ (Process <$> t2)
           ++ _send_error e ws "无法启动流转发服务" ++ [Close ws])
        else
          let ci' := ClientInfo ws true nick (Some p) in
          let s3 :=
            set_nicknames (set_clients s2 (Dict.set (clients s2) client_id ci'))
              ({[nick]} ∪ nicknames s2) in
          (s3, ci',
           t1 ++ (Process <$> t2)
           ++ _send_message e ws (AuthSuccess nick p (bind_ip s3))
           ++ _broadcast_message e s3 (Join nick (fmt nick +:+ " 加入了放映室"))
           ++ _send_members_list e s3 ws
           ++ (if on_member_update_callback s3
               then _notify_member_update e s3 else []))
    end.

(** *** Chat, cleanup and the receive loop *)

(** [_handle_chat] *)
Definition _handle_chat (e : env) (s : t) (client_id : string) (data : object)
    : list event :=
  match Dict.get (clients s) client_id with
  | None => []
  | Some ci =>
      let text := get_default (f_message data) "" in
      _broadcast_message e s (Chat (nickname ci) text (now e))
      ++ (if on_message_callback s then [OnMessage (nickname ci) text] else [])
  end.

(** [send_chat_message]: the host's own chat line. *)
Definition send_chat_message (e : env) (s : t) (text : string) : list event :=
  if negb (truthy_str (sender_nickname s)) then []
  else
    _broadcast_message e s (Chat (sender_nickname s) (Some text) (now e))
    ++ (if on_message_callback s
        then [OnMessage (sender_nickname s) (Some text)] else []).

(** [_cleanup_client] *)
Definition _cleanup_client (e : env) (s : t) (client_id : string)
    : t * list event :=
  match Dict.get (clients s) client_id with
  | None => (s, [])
  | Some ci =>
      let '(fm, t1) :=
        if truthy_int (srt_port ci) then
          let '(fm, _, t) :=
            FFmpegManager.stop_process (stopping e) (ffmpeg_manager s)
              (relay_name (nickname ci) (default 0 (srt_port ci))) in
          (fm, t)
        else (ffmpeg_manager s, []) in
      let s1 := set_clients (set_ffmpeg_manager s fm) (Dict.del (clients s) client_id) in
      let s2 :=
        if truthy_str (nickname ci)
        then set_nicknames s1 (nicknames s1 ∖ {[nickname ci]}) else s1 in
      (s2,
       (Process <$> t1)
       ++ (if truthy_str (nickname ci)
           then _broadcast_message e s2
                  (Leave (nickname ci) (fmt (nickname ci) +:+ " 离开了放映室"))
           else [])
       ++ (if on_member_update_callback s2
           then _notify_member_update e s2 else []))
  end.

Definition set_on_message_callback (s : t) : t :=
  Server (verification_code s) (clients s) (nicknames s) (running s)
    (ffmpeg_manager s) (next_srt_port s) (bind_ip s) (port s)
    (sender_nickname s) true (on_member_update_callback s).
Definition set_on_member_update_callback (s : t) : t :=
  Server (verification_code s) (clients s) (nicknames s) (running s)
    (ffmpeg_manager s) (next_srt_port s) (bind_ip s) (port s)
    (sender_nickname s) (on_message_callback s) true.

(** The record [handle_client] creates for a new connection. *)
Definition new_client_info (ws : N) : client_info :=
  ClientInfo ws false None None.

(** The body of [async for message in websocket] in [handle_client]. *)
Definition handle_message (e : env) (s : t) (ci : client_info) (m : inbound)
    : t * client_info * list event :=
  let ws := websocket ci in
  match m with
  | BadJson => (s, ci, _send_error e ws "消息格式错误")
  | NotAnObject => (s, ci, [])
  | Obj data =>
      let msg_type := get (f_type data) in
      if negb (authenticated ci) then
        if decide (msg_type = Some "auth") then
          _handle_auth e s (client_id ws) ci data
        else (s, ci, _send_error e ws "请先进行身份验证")
      else if decide (msg_type = Some "chat") then
        (s, ci, _handle_chat e s (client_id ws) data)
      else if decide (msg_type = Some "heartbeat") then
        (s, ci, [Send ws Heartbeat (send_ok e ws)])
      else (s, ci, [])
  end.

End WebSocketServer.

(** ** The coordinator as a transition system

    The server runs its handlers on one event loop.  A handler changes the
    session state only in stretches without a suspension point, so every
    step below is one handler run: a connection is accepted, one frame of a
    connection is handled, or a connection ends and is cleaned up.  Other
    threads may change the shared process manager between two steps. *)

Module Coordinator.
Import WebSocketServer.

(** [handlers] holds the [client_info] of every running [handle_client];
    [hung_up] the connections the server itself has closed. *)
Record system := System {
  server : t;
  handlers : gmap N client_info;
  hung_up : gset N
}.

Inductive input :=
| Connect (ws : N)
| Receive (ws : N) (m : inbound)
| Disconnect (ws : N)
| HostChat (text : string)
| Supervisor (pm : ProcessManager.t).

Definition closes (t : list event) : bool :=
  existsb (λ ev, match ev with Close _ => true | _ => false end) t.

Definition set_process_manager (s : t) (pm : ProcessManager.t) : t :=
  set_ffmpeg_manager s
    (FFmpegManager.Manager pm (FFmpegManager.ffmpeg_path (ffmpeg_manager s))
       (FFmpegManager.processes (ffmpeg_manager s))).

(** One step; [None] when the input cannot occur in this state. *)
Definition step (e : env) (sys : system) (i : input)
    : option (system * list event) :=
  match i with
  | Connect ws =>
      match handlers sys !! ws with
      | Some _ => None
      | None =>
          Some (System (server sys) (<[ws := new_client_info ws]> (handlers sys))
                  (hung_up sys), [])
      end
  | Receive ws m =>
      match handlers sys !! ws with
      | None => None
      | Some ci =>
          if decide (ws ∈ hung_up sys) then None
          else
            let '(s, ci', t) := handle_message e (server sys) ci m in
            Some (System s (<[ws := ci']> (handlers sys))
                    (if closes t then {[ws]} ∪ hung_up sys else hung_up sys), t)
      end
  | Disconnect ws =>
      match handlers sys !! ws with
      | None => None
      | Some _ =>
          let '(s, t) := _cleanup_client e (server sys) (client_id ws) in
          Some (System s (delete ws (handlers sys)) (hung_up sys ∖ {[ws]}), t)
      end
  | HostChat text =>
      Some (sys, send_chat_message e (server sys) text)
  | Supervisor pm =>
      Some (System (set_process_manager (server sys) pm) (handlers sys)
              (hung_up sys), [])
  end.

Fixpoint run (sys : system) (script : list (env * input))
    : option (system * list event) :=
  match script with
  | [] => Some (sys, [])
  | (e, i) :: rest =>
      match step e sys i with
      | None => None
      | Some (sys', t) =>
          match run sys' rest with
          | None => None
          | Some (sys'', t') => Some (sys'', t ++ t')
          end
      end
  end.

(** A server as the host's window sets it up and starts it. *)
Definition boot (e : env) (code : option string) (fm : FFmpegManager.t)
    (with_message_callback with_member_callback : bool)
    (host : string) (p : Z) (nick : string) : system :=
  let s0 := init code fm in
  let s1 := if with_message_callback then set_on_message_callback s0 else s0 in
  let s2 := if with_member_callback then set_on_member_update_callback s1 else s1 in
  System (start e true s2 host p nick).1.1 ∅ ∅.

Inductive reachable : system → Prop :=
| reachable_boot e code fm cb1 cb2 host p nick :
    reachable (boot e code fm cb1 cb2 host p nick)
| reachable_step e sys i sys' t :
    reachable sys → step e sys i = Some (sys', t) → reachable sys'.

(** Every state a session can be in after [sys]. *)
Inductive later (sys : system) : system → Prop :=
| later_now : later sys sys
| later_step e sys1 i sys2 t :
    later sys sys1 → step e sys1 i = Some (sys2, t) → later sys sys2.

End Coordinator.

(** ** network/websocket_client.py *)

Module WebSocketClient.

Record t := Client {
  websocket : bool;
  running : bool;
  connected : bool;
  authenticated : bool;
  server_host : option string;
  server_port : option Z;
  nickname : option string;
  verification_code : option string;
  srt_port : option Z;
  server_ip : option string;
  on_connected_callback : bool;
  on_disconnected_callback : bool;
  on_authenticated_callback : bool;
  on_message_callback : bool;
  on_member_update_callback : bool;
  on_error_callback : bool;
  auto_reconnect : bool;
  reconnect_interval : Z;
  max_reconnect_attempts : Z;
  reconnect_attempts : Z
}.

(** [__init__], with config.NETWORK_DEFAULTS *)
Definition init : t :=
  Client false false false false None None None None None None
    false false false false false false true 3 5 0.

(** A frame as the client reads it: not JSON, of a type it does not know,
    or one of the server's messages. *)
Inductive frame :=
| Garbage
| Unknown
| Frame (m : WebSocketServer.message).

Inductive event :=
| Open (uri : string)
| SendAuth (code nick : option string)
| SendChat (text : string)
| CloseSocket
| Sleep (tenths : Z)
| OnConnected
| OnDisconnected
| OnAuthenticated (ip : option string) (p : option Z)
| OnMessage (nick text : option string)
| OnMemberUpdate (members : list WebSocketServer.member)
| OnError (text : string).

(** How the receive loop of one connection ends: the iterator is
    exhausted, it raises [ConnectionClosed], or something else is raised. *)
Inductive ending := EndOfStream | ConnectionClosed | OtherError.

(** What happens while a connection is up. *)
Inductive occurrence :=
| Arrives (f : frame)
| UserDisconnects.

Inductive answer :=
| Refused (why : string)
| Accepted (during : list occurrence) (last : ending).

(** One connection attempt as the world decides it: whether the user
    disconnects during the wait that precedes a reconnection, and what
    [websockets.connect] does. *)
Record attempt := Attempt {
  interrupted : bool;
  result : answer
}.

Definition with_flags (c : t) (ws run conn auth : bool) : t :=
  Client ws run conn auth (server_host c) (server_port c) (nickname c)
    (verification_code c) (srt_port c) (server_ip c)
    (on_connected_callback c) (on_disconnected_callback c)
    (on_authenticated_callback c) (on_message_callback c)
    (on_member_update_callback c) (on_error_callback c)
    (auto_reconnect c) (reconnect_interval c) (max_reconnect_attempts c)
    (reconnect_attempts c).

Definition with_auto_reconnect (c : t) (b : bool) : t :=
  Client (websocket c) (running c) (connected c) (authenticated c)
    (server_host c) (server_port c) (nickname c)
    (verification_code c) (srt_port c) (server_ip c)
    (on_connected_callback c) (on_disconnected_callback c)
    (on_authenticated_callback c) (on_message_callback c)
    (on_member_update_callback c) (on_error_callback c)
    b (reconnect_interval c) (max_reconnect_attempts c)
    (reconnect_attempts c).

Definition with_reconnect_attempts (c : t) (n : Z) : t :=
  Client (websocket c) (running c) (connected c) (authenticated c)
    (server_host c) (server_port c) (nickname c)
    (verification_code c) (srt_port c) (server_ip c)
    (on_connected_callback c) (on_disconnected_callback c)
    (on_authenticated_callback c) (on_message_callback c)
    (on_member_update_callback c) (on_error_callback c)
    (auto_reconnect c) (reconnect_interval c) (max_reconnect_attempts c) n.

Definition with_target (c : t) (host : string) (p : Z)
    (nick code : option string) : t :=
  Client (websocket c) (running c) (connected c) (authenticated c)
    (Some host) (Some p) nick code (srt_port c) (server_ip c)
    (on_connected_callback c) (on_disconnected_callback c)
    (on_authenticated_callback c) (on_message_callback c)
    (on_member_update_callback c) (on_error_callback c)
    (auto_reconnect c) (reconnect_interval c) (max_reconnect_attempts c)
    (reconnect_attempts c).

Definition with_assignment (c : t) (nick : option string) (p : option Z)
    (ip : option string) : t :=
  Client (websocket c) (running c) (connected c) true
    (server_host c) (server_port c) nick (verification_code c) p ip
    (on_connected_callback c) (on_disconnected_callback c)
    (on_authenticated_callback c) (on_message_callback c)
    (on_member_update_callback c) (on_error_callback c)
    (auto_reconnect c) (reconnect_interval c) (max_reconnect_attempts c)
    (reconnect_attempts c).

(** The six [set_on_..._callback] methods, all called. *)
Definition with_callbacks (c : t) : t :=
  Client (websocket c) (running c) (connected c) (authenticated c)
    (server_host c) (server_port c) (nickname c)
    (verification_code c) (srt_port c) (server_ip c)
    true true true true true true
    (auto_reconnect c) (reconnect_interval c) (max_reconnect_attempts c)
    (reconnect_attempts c).

(** [disconnect] *)
Definition disconnect (c : t) : t * list event :=
  let c1 := with_auto_reconnect (with_flags c (websocket c) false (connected c)
                                   (authenticated c)) false in
  (with_flags c1 false false false false,
   if websocket c then [CloseSocket] else []).

(** [_authenticate], through [_send_message] *)
Definition _authenticate (c : t) : list event :=
  if negb (running c) then []
  else if negb (websocket c) || negb (connected c) || negb (running c) then []
  else [SendAuth (verification_code c) (nickname c)].

(** [_handle_message] *)
Definition _handle_message (c : t) (f : frame) : t * list event :=
  if negb (running c) then (c, [])
  else
    match f with
    | Garbage | Unknown => (c, [])
    | Frame (WebSocketServer.AuthSuccess nick p ip) =>
        (with_assignment c nick (Some p) (Some ip),
         if on_authenticated_callback c
         then [OnAuthenticated (Some ip) (Some p)] else [])
    | Frame (WebSocketServer.AuthFailed text) =>
        let '(c', t) := disconnect c in
        (c', (if on_error_callback c then [OnError text] else []) ++ t)
    | Frame (WebSocketServer.Chat nick text _) =>
        (c, if on_message_callback c then [OnMessage nick text] else [])
    | Frame (WebSocketServer.Join _ text)
    | Frame (WebSocketServer.Leave _ text) =>
        (c, if on_message_callback c
            then [OnMessage (Some "系统") (Some text)] else [])
    | Frame (WebSocketServer.Members members) =>
        (c, if on_member_update_callback c
            then [OnMemberUpdate members] else [])
    | Frame (WebSocketServer.Error text) =>
        (c, if on_error_callback c then [OnError text] else [])
    | Frame WebSocketServer.Heartbeat => (c, [])
    end.

(** The [async for] of [_receive_messages]; the boolean tells whether the
    loop was left through [break]. *)
Fixpoint receive_loop (c : t) (during : list occurrence)
    : t * list event * bool :=
  match during with
  | [] => (c, [], false)
  | UserDisconnects :: rest =>
      let '(c1, t1) := disconnect c in
      let '(c2, t2, broke) := receive_loop c1 rest in
      (c2, t1 ++ t2, broke)
  | Arrives f :: rest =>
      if negb (running c) then (c, [], true)
      else
        let '(c1, t1) := _handle_message c f in
        let '(c2, t2, broke) := receive_loop c1 rest in
        (c2, t1 ++ t2, broke)
  end.

(** The rest of the run as seen from inside one attempt: nothing more is
    known, or the next attempt, with whether the wait before it is
    interrupted and what [connect] then does. *)
Definition future := option (bool * (t → t * list event * bool)).

(** [_try_reconnect].  The boolean tells whether the coroutine returned
    within what is known of the future. *)
Definition _try_reconnect (next : future) (c : t) : t * list event * bool :=
  if negb (auto_reconnect c) || negb (running c) then (c, [], true)
  else
    let c1 := with_reconnect_attempts c (reconnect_attempts c + 1) in
    if decide (reconnect_attempts c1 > max_reconnect_attempts c1) then
      (c1, if on_error_callback c1 then [OnError "无法连接到服务器"] else [], true)
    else
      match next with
      | None => (c1, [], false)
      | Some (stopped, again) =>
          if stopped then
            let '(c2, t) := disconnect c1 in (c2, t, true)
          else
            let '(c2, t, done) := again c1 in
            (c2, Sleep (reconnect_interval c1 * 10) :: t, done)
      end.

(** [_receive_messages] *)
Definition _receive_messages (next : future) (c : t)
    (during : list occurrence) (last : ending) : t * list event * bool :=
  let '(c1, t1, broke) := receive_loop c during in
  if broke then (c1, t1, true)
  else
    match last with
    | EndOfStream => (c1, t1, true)
    | ConnectionClosed =>
        if running c1 then
          let c2 := with_flags c1 (websocket c1) (running c1) false (authenticated c1) in
          let t2 := if on_disconnected_callback c2 then [OnDisconnected] else [] in
          if auto_reconnect c2 then
            let '(c3, t3, done) := _try_reconnect next c2 in
            (c3, t1 ++ t2 ++ t3, done)
          else (c2, t1 ++ t2, true)
        else (c1, t1, true)
    | OtherError =>
        (with_flags c1 (websocket c1) (running c1) false (authenticated c1),
         t1, true)
    end.

Definition uri (is_valid_ipv6 : string → bool) (host : string) (p : Z) : string :=
  "ws://"
  +:+ (if is_valid_ipv6 host
       then NetworkUtils.format_ipv6_for_url is_valid_ipv6 host else host)
  +:+ ":" +:+ pretty p.

(** [connect], against the list of attempts the world has in store.  The
    result carries the value returned and whether the coroutine returned
    at all within that list. *)
Fixpoint connect (is_valid_ipv6 : string → bool) (script : list attempt)
    (c : t) (host : string) (p : Z) (nick code : option string)
    : t * list event * bool * bool :=
  match script with
  | [] => (c, [], false, false)
  | a :: rest =>
      let next : future :=
        match rest with
        | [] => None
        | a' :: _ =>
            Some (interrupted a',
                  λ c', let '(c'', t, _, done) :=
                          connect is_valid_ipv6 rest c'
                            (default "" (server_host c'))
                            (default 0 (server_port c'))
                            (nickname c') (verification_code c') in
                        (c'', t, done))
        end in
      let c1 := with_target c host p nick code in
      match result a with
      | Accepted during last =>
          let c2 := with_reconnect_attempts (with_flags c1 true true true (authenticated c1)) 0 in
          let t2 := if on_connected_callback c2 then [OnConnected] else [] in
          let '(c3, t3, done) := _receive_messages next c2 during last in
          (c3, Open (uri is_valid_ipv6 host p) :: t2 ++ _authenticate c2 ++ t3,
           true, done)
      | Refused why =>
          let c2 := with_flags c1 (websocket c1) (running c1) false (authenticated c1) in
          let t2 := if on_error_callback c2
                    then [OnError ("连接失败: " +:+ why)] else [] in
          if auto_reconnect c2
             && bool_decide (reconnect_attempts c2 < max_reconnect_attempts c2)
             && running c2
          then
            let '(c3, t3, done) := _try_reconnect next c2 in
            (c3, Open (uri is_valid_ipv6 host p) :: t2 ++ t3, false, done)
          else
            (c2, Open (uri is_valid_ipv6 host p) :: t2, false, true)
      end
  end.

(** What [connect] knows of the attempts after its own. *)
Definition next_of (is_valid_ipv6 : string → bool) (rest : list attempt) : future :=
  match rest with
  | [] => None
  | a' :: _ =>
      Some (interrupted a',
            λ c', let '(c'', t, _, done) :=
                    connect is_valid_ipv6 rest c'
                      (default "" (server_host c')) (default 0 (server_port c'))
                      (nickname c') (verification_code c') in
                  (c'', t, done))
  end.

(** One reconnection that is refused, as the trace shows it. *)
Definition retry (is_valid_ipv6 : string → bool) (host : string) (p : Z)
    (why : string) : list event :=
  [Sleep 30; Open (uri is_valid_ipv6 host p); OnError ("连接失败: " +:+ why)].

(** The connection attempts in a trace. *)
Definition is_open (ev : event) : bool :=
  match ev with Open _ => true | _ => false end.

Definition attempts (t : list event) : nat := length (List.filter is_open t).

End WebSocketClient.

(** ** Notions used to state the properties of a session *)

Module Session.
Import WebSocketServer Coordinator.

(** The cursor after [_allocate_srt_port] has found port [p]. *)
Definition advance (s : t) (p : Z) : t :=
  if bool_decide (p ≠ 0) then set_next_srt_port s (p + 1) else s.

(** The four ways through [_handle_auth]. *)
Inductive auth_outcome (e : env) (s : t) (cid : string) (ci : client_info)
    (data : object) : t * client_info * list event → Prop :=
| auth_wrong_code :
    get (f_code data) ≠ Some (verification_code s) →
    auth_outcome e s cid ci data
      (s, ci,
       [Send (websocket ci) (AuthFailed "验证码错误") (send_ok e (websocket ci));
        Close (websocket ci)])
| auth_no_port t1 :
    get (f_code data) = Some (verification_code s) →
    NetworkUtils.find_available_port (net e) (next_srt_port s) 100 = (None, t1) →
    auth_outcome e s cid ci data
      (s, ci,
       (Probed <$> t1)
       ++ [Send (websocket ci) (Error "无法分配SRT端口") (send_ok e (websocket ci));
           Close (websocket ci)])
| auth_no_relay p t1 t2 :
    get (f_code data) = Some (verification_code s) →
    NetworkUtils.find_available_port (net e) (next_srt_port s) 100 = (Some p, t1) →
    FFmpegManager.start_rtmp_to_srt (is_valid_ipv6 e) (spawned e)
      (ffmpeg_manager s) rtmp_source p (bind_ip s)
      (Some (relay_name (resolve_nickname (nicknames s) (get (f_nickname data))) p))
    = (ffmpeg_manager s, false, t2) →
    auth_outcome e s cid ci data
      (advance s p, ci,
       (Probed <$> t1) ++ (Process <$> t2)
       ++ [Send (websocket ci) (Error "无法启动流转发服务") (send_ok e (websocket ci));
           Close (websocket ci)])
| auth_welcome p t1 fm t2 :
    get (f_code data) = Some (verification_code s) →
    NetworkUtils.find_available_port (net e) (next_srt_port s) 100 = (Some p, t1) →
    FFmpegManager.start_rtmp_to_srt (is_valid_ipv6 e) (spawned e)
      (ffmpeg_manager s) rtmp_source p (bind_ip s)
      (Some (relay_name (resolve_nickname (nicknames s) (get (f_nickname data))) p))
    = (fm, true, t2) →
    let nick := resolve_nickname (nicknames s) (get (f_nickname data)) in
    let ci' := ClientInfo (websocket ci) true nick (Some p) in
    let s' :=
      set_nicknames
        (set_clients (set_ffmpeg_manager (advance s p) fm)
           (Dict.set (clients s) cid ci'))
        ({[nick]} ∪ nicknames s) in
    auth_outcome e s cid ci data
      (s', ci',
       (Probed <$> t1) ++ (Process <$> t2)
       ++ [Send (websocket ci) (AuthSuccess nick p (bind_ip s))
             (send_ok e (websocket ci))]
       ++ _broadcast_message e s' (Join nick (fmt nick +:+ " 加入了放映室"))
       ++ _send_members_list e s' (websocket ci)
       ++ (if on_member_update_callback s
           then _notify_member_update e s' else [])).

(** What holds of every state of a session: the records of [clients] are
    those of the authenticated running handlers, under the key of their
    connection, each with a port of its own below the cursor. *)
Record invariant (sys : system) : Prop := Invariant {
  inv_keys : NoDup (Dict.keys (clients (server sys)));
  inv_records :
    ∀ k ci, (k, ci) ∈ clients (server sys) →
      authenticated ci = true ∧ k = client_id (websocket ci) ∧
      handlers sys !! websocket ci = Some ci ∧
      ∃ p, srt_port ci = Some p ∧ srt_base_port ≤ p < next_srt_port (server sys);
  inv_ports : NoDup (srt_port <$> Dict.values (clients (server sys)));
  inv_handlers :
    ∀ ws ci, handlers sys !! ws = Some ci →
      websocket ci = ws ∧
      if authenticated ci
      then (client_id ws, ci) ∈ clients (server sys)
      else Dict.get (clients (server sys)) (client_id ws) = None;
  inv_cursor : srt_base_port ≤ next_srt_port (server sys)
}.

(** The frames [t] sends to connection [ws], with whether they arrived. *)
Definition sends_to (ws : N) (t : list event) : list (message * bool) :=
  omap (λ ev, match ev with
              | Send ws' m ok => if decide (ws' = ws) then Some (m, ok) else None
              | _ => None
              end) t.

(** A join request: the environment it is handled in, the record of its
    handler, and the [auth] frame. *)
Record request := Request {
  req_env : env;
  req_info : client_info;
  req_data : object
}.

(** A run of join requests handled one after the other, with what each
    handler is left with and what it did. *)
Fixpoint joins (s : t) (reqs : list request) : t * list (client_info * list event) :=
  match reqs with
  | [] => (s, [])
  | r :: rest =>
      let '(s1, ci', t) :=
        _handle_auth (req_env r) s (client_id (websocket (req_info r)))
          (req_info r) (req_data r) in
      let '(s2, outs) := joins s1 rest in
      (s2, (ci', t) :: outs)
  end.

(** The [auth_success] frames of a trace: who gets one, and the nickname
    it reports. *)
Definition auth_replies (t : list event) : list (N * option string) :=
  omap (λ ev, match ev with
              | Send ws (AuthSuccess nick _ _) _ => Some (ws, nick)
              | _ => None
              end) t.


End Session.

(** ** A small session to run the definitions on *)

Module Scenario.
Import WebSocketServer Coordinator.

(** A host on which every port is free, and one on which none is. *)
Definition all_free : NetworkUtils.os :=
  NetworkUtils.Os (λ _, true) (λ _ _ _, true) (λ _ _ _, true).

Definition clean_stop : ProcessManager.stop_env :=
  ProcessManager.StopEnv false true ProcessManager.Exited true ProcessManager.Exited.

(** Every send arrives; [o] is the network stack and [spawned] the answer
    of [subprocess.Popen]. *)
Definition world (o : NetworkUtils.os) (spawned : option ProcessManager.popen) : env :=
  Env (λ _, true) "2025-01-01T20:00:00" o (λ _, false) spawned clean_stop.

Definition launching (pid : Z) : env := world all_free (Some (ProcessManager.Popen pid)).

Definition no_processes : FFmpegManager.t :=
  FFmpegManager.Manager (ProcessManager.Manager [] [] false) "ffmpeg.exe" [].

(** The host "Archer" serving with the default code. *)
Definition host : system :=
  boot (world all_free None) None no_processes false false "0.0.0.0" 10086 "Archer".

Definition auth (code nick : string) : object :=
  Object (Str "auth") (Str code) (Str nick) Absent.
Definition chat (text : string) : object :=
  Object (Str "chat") Absent Absent (Str text).

(** The state a script leads to; scripts that cannot run lead nowhere. *)
Definition after (sys : system) (script : list (env * input)) : system :=
  match run sys script with Some (sys', _) => sys' | None => sys end.

(** Connection 1 is accepted. *)
Definition one_guest : system := after host [(launching 1, Connect 1%N)].

(** "Saber" joins on connection 1, then another "Saber" on connection 2. *)
Definition one_saber : system :=
  after one_guest [(launching 101, Receive 1%N (Obj (auth "114514" "Saber")))].
Definition two_sabers : system :=
  after one_saber
    [(launching 2, Connect 2%N);
     (launching 102, Receive 2%N (Obj (auth "114514" "Saber")))].


(** A viewer whose window listens to every callback.  It is welcomed as
    "Saber", then the connection breaks and the host refuses every new
    connection; the world would refuse seven times. *)
Definition viewer : WebSocketClient.t := WebSocketClient.with_callbacks WebSocketClient.init.

Definition welcomed_then_cut : WebSocketClient.attempt :=
  WebSocketClient.Attempt false
    (WebSocketClient.Accepted
       [WebSocketClient.Arrives
          (WebSocketClient.Frame (AuthSuccess (Some "Saber") 10000 "192.0.2.1"))]
       WebSocketClient.ConnectionClosed).

Definition refused : WebSocketClient.attempt :=
  WebSocketClient.Attempt false (WebSocketClient.Refused "refused").

Definition host_gone : list WebSocketClient.attempt :=
  welcomed_then_cut :: replicate 7 refused.

End Scenario.

(** ** Notions used to state the properties of the supervisor *)

Module Supervision.
Import ProcessManager.

(** [stop_process] gets the process to end: the signal is delivered and
    the process ends in time, or is killed and ends then. *)
Definition goes_through (e : stop_env) : Prop :=
  signal_ok e = true ∧
  (first_wait e = Exited ∨ kill_ok e = true ∧ second_wait e = Exited).

(** [stop_process_tree] meets no exception it does not catch. *)
Definition tree_goes_through (e : tree_env) : Prop :=
  found e = true ∧
  (∃ kids, children e = Some kids ∧
           ∀ q, q ∈ kids → child_terminate e q ≠ OtherFailure) ∧
  parent_terminate e = Returned ∧
  ∀ q, q ∈ still_alive e → kill e q ≠ OtherFailure.

Definition is_launch (ev : event) : bool :=
  match ev with Launch _ _ _ _ _ _ => true | _ => false end.

(** The programs a trace launches. *)
Definition launches (t : list event) : list event := List.filter is_launch t.

(** A manager with a player that has both callbacks and restarts, and a
    relay without either. *)
Definition busy : t :=
  Manager [("player", Popen 11); ("relay", Popen 12)]
    [("player", MonitorOutput "player" (Popen 11) (Some 1%nat) (Some 2%nat) true
                  ["mpv.exe"] None None)]
    false.

Definition stubborn : stop_env := StopEnv false true TimeoutExpired true TimeoutExpired.
Definition obedient : stop_env := StopEnv false true Exited true Exited.

Definition small_tree : tree_env :=
  TreeEnv true (Some [Popen 21; Popen 22])
    (λ q, if decide (pid q = 21) then NoSuchProcess else Returned)
    Returned [Popen 22] (λ _, Returned).

End Supervision.

(** ** utils/network_utils.py: choosing an address *)

Module Addresses.
Import NetworkUtils.


(** [':' in ip] *)
Definition has_colon (ip : string) : bool :=
  match String.index 0 ":" ip with Some _ => true | None => false end.

(** [get_local_ip].  [get_public_ipv6] is what the method of that name
    answers, and [get_all_ip_addresses] the list of the other one. *)
Definition get_local_ip (get_public_ipv6 : option string)
    (get_all_ip_addresses : list (string * string)) (prefer_ipv6 : bool) : string :=
  let public :=
    if prefer_ipv6
    then match get_public_ipv6 with
         | Some ip => if bool_decide (ip ≠ "") then Some ip else None
         | None => None
         end
    else None in
  match public with
  | Some ip => ip
  | None =>
      let '(ipv6_addrs, ipv4_addrs) :=
        fold_left
          (λ (acc : list string * list string) (entry : string * string),
             if has_colon entry.1 then (acc.1 ++ [entry.1], acc.2)
             else (acc.1, acc.2 ++ [entry.1]))
          get_all_ip_addresses ([], []) in
      if prefer_ipv6 && negb (bool_decide (ipv6_addrs = []))
      then default "127.0.0.1" (head ipv6_addrs)
      else if negb (bool_decide (ipv4_addrs = []))
      then default "127.0.0.1" (head ipv4_addrs)
      else if negb (bool_decide (ipv6_addrs = []))
      then default "127.0.0.1" (head ipv6_addrs)
      else "127.0.0.1"
  end.


End Addresses.

(** ** Notions used to state the properties of the roster *)

Module Roster.
Import WebSocketServer Coordinator.

(** How the nickname set and the records go together: the host's nickname
    is in use, every viewer's nickname is in use and is not the host's, no
    two viewers share one, and a name in use that is nobody's is one that
    [_cleanup_client] does not release (the empty string or [None]). *)
Record names_kept (s : t) : Prop := NamesKept {
  kept_host : is_Some (sender_nickname s) ∧ sender_nickname s ∈ nicknames s;
  kept_viewers :
    ∀ k ci, (k, ci) ∈ clients s →
      nickname ci ∈ nicknames s ∧ nickname ci ≠ sender_nickname s;
  kept_distinct : NoDup (nickname <$> Dict.values (clients s));
  kept_owned :
    ∀ n, n ∈ nicknames s →
      n = sender_nickname s ∨ (∃ k ci, (k, ci) ∈ clients s ∧ nickname ci = n)
      ∨ truthy_str n = false
}.

End Roster.

(** * Properties *)

Section port_allocator.
Import NetworkUtils.
Variable o : os.

Lemma is_port_available_true port :
  (is_port_available o port "").1 = true ↔ fully_available o port.
Proof.
  unfold is_port_available, fully_available, family_free. simpl.
  destruct (test_family o AF_INET "" port); simpl; [|naive_solver].
  destruct (test_family o AF_INET6 "" port); simpl; naive_solver.
Qed.

Lemma is_port_available_false port :
  (is_port_available o port "").1 = false ↔
  ¬ family_free o AF_INET port ∨ ¬ family_free o AF_INET6 port.
Proof.
  unfold is_port_available, family_free. simpl.
  destruct (test_family o AF_INET "" port); simpl; [|naive_solver].
  destruct (test_family o AF_INET6 "" port); simpl; naive_solver.
Qed.

Lemma seqZ_S (m : Z) (k : nat) :
  seqZ m (Z.of_nat (S k)) = m :: seqZ (m + 1) (Z.of_nat k).
Proof.
  rewrite seqZ_cons by lia. do 2 f_equal; lia.
Qed.

Lemma find_available_port_loop_spec start n : ∀ i,
  match find_available_port_loop o start i n with
  | (Some p, t) =>
      ∃ k : nat, (k < n)%nat ∧ p = start + i + Z.of_nat k ∧
        fully_available o p ∧
        (∀ q, start + i ≤ q < p → ¬ fully_available o q) ∧
        t = mjoin ((λ q, (is_port_available o q "").2) <$> seqZ (start + i) (Z.of_nat (S k)))
  | (None, t) =>
      (∀ q, start + i ≤ q < start + i + Z.of_nat n → ¬ fully_available o q) ∧
      t = mjoin ((λ q, (is_port_available o q "").2) <$> seqZ (start + i) (Z.of_nat n))
  end.
Proof.
  induction n as [|n IH]; intros i; simpl.
  { split; [lia|done]. }
  destruct (is_port_available o (start + i) "") as [ok t] eqn:Hav.
  destruct ok.
  - exists 0%nat. split; [lia|]. split; [lia|].
    split; [apply is_port_available_true; by rewrite Hav|].
    split; [lia|]. rewrite seqZ_S. simpl. rewrite Hav. simpl. by rewrite app_nil_r.
  - specialize (IH (i + 1)).
    assert (Hno : ¬ fully_available o (start + i)).
    { rewrite <- is_port_available_true, Hav. done. }
    destruct (find_available_port_loop o start (i + 1) n) as [[p|] t'].
    + destruct IH as (k & Hk & -> & Hfree & Hmin & ->).
      exists (S k). split; [lia|]. split; [lia|].
      split; [by replace (start + i + Z.of_nat (S k)) with (start + (i + 1) + Z.of_nat k) by lia|].
      split.
      * intros q Hq. destruct (decide (q = start + i)) as [->|]; [done|].
        apply Hmin. lia.
      * rewrite (seqZ_S _ (S k)). simpl fmap. simpl mjoin. rewrite Hav. simpl.
        by replace (start + i + 1) with (start + (i + 1)) by lia.
    + destruct IH as [Hnone ->]. split.
      * intros q Hq. destruct (decide (q = start + i)) as [->|]; [done|].
        apply Hnone. lia.
      * rewrite seqZ_S. simpl. rewrite Hav. simpl.
        by replace (start + i + 1) with (start + (i + 1)) by lia.
Qed.



End port_allocator.


(** ** Dictionaries *)

Section dict_facts.
Context {K V : Type} `{EqDecision K}.
Implicit Types (d : list (K * V)) (k : K) (v : V).

Lemma get_set_eq d k v : Dict.get (Dict.set d k v) k = Some v.
Proof.
  induction d as [|[k' v'] d IH]; simpl.
  - by rewrite decide_True.
  - destruct (decide (k = k')) as [->|Hne]; simpl.
    + by rewrite decide_True.
    + by rewrite decide_False.
Qed.

Lemma get_set_ne d k k' v : k ≠ k' → Dict.get (Dict.set d k v) k' = Dict.get d k'.
Proof.
  intros Hne. induction d as [|[k0 v0] d IH]; simpl.
  - by rewrite decide_False.
  - destruct (decide (k = k0)) as [->|Hne0]; simpl.
    + by rewrite !decide_False.
    + destruct (decide (k' = k0)); done.
Qed.

Lemma get_del_eq d k : Dict.get (Dict.del d k) k = None.
Proof.
  induction d as [|[k' v'] d IH]; simpl; [done|].
  destruct (decide (k = k')); simpl; [done|]. by rewrite decide_False.
Qed.

Lemma get_del_ne d k k' : k ≠ k' → Dict.get (Dict.del d k) k' = Dict.get d k'.
Proof.
  intros Hne. induction d as [|[k0 v0] d IH]; simpl; [done|].
  destruct (decide (k = k0)) as [->|Hne0]; simpl.
  - by rewrite decide_False.
  - destruct (decide (k' = k0)); done.
Qed.

Lemma mem_get d k : Dict.mem d k = true ↔ is_Some (Dict.get d k).
Proof.
  unfold Dict.mem. destruct (Dict.get d k); split; done.
Qed.

Lemma mem_get_false d k : Dict.mem d k = false ↔ Dict.get d k = None.
Proof. unfold Dict.mem. destruct (Dict.get d k); split; intros; done. Qed.

Lemma mem_del d k : Dict.mem (Dict.del d k) k = false.
Proof. apply mem_get_false, get_del_eq. Qed.

Lemma get_values d k v : Dict.get d k = Some v → v ∈ Dict.values d.
Proof.
  induction d as [|[k' v'] d IH]; simpl; [done|].
  unfold Dict.values. simpl. destruct (decide (k = k')).
  - intros [= ->]. left.
  - intros Hg. right. by apply IH.
Qed.

Lemma values_get d v : v ∈ Dict.values d → ∃ k, (k, v) ∈ d.
Proof.
  unfold Dict.values. intros Hin. apply list_elem_of_fmap in Hin.
  destruct Hin as ([k v'] & -> & Hin). by exists k.
Qed.

Lemma get_None_keys d k : Dict.get d k = None ↔ k ∉ Dict.keys d.
Proof.
  unfold Dict.keys. induction d as [|[k' v'] d IH]; simpl.
  - split; [intros _; apply not_elem_of_nil|done].
  - rewrite not_elem_of_cons. destruct (decide (k = k')); naive_solver.
Qed.

Lemma get_Some_elem_of d k v : Dict.get d k = Some v → (k, v) ∈ d.
Proof.
  induction d as [|[k' v'] d IH]; simpl; [done|].
  destruct (decide (k = k')) as [->|].
  - intros [= ->]. left.
  - intros Hg. right. by apply IH.
Qed.

Lemma elem_of_get d k v : NoDup (Dict.keys d) → (k, v) ∈ d → Dict.get d k = Some v.
Proof.
  unfold Dict.keys. induction d as [|[k' v'] d IH]; simpl.
  - intros _ Hin. by apply elem_of_nil in Hin.
  - rewrite NoDup_cons. intros [Hk Hnd] Hin.
    apply elem_of_cons in Hin as [[= -> ->]|Hin].
    + by rewrite decide_True.
    + rewrite decide_False; [by apply IH|].
      intros ->. apply Hk. apply list_elem_of_fmap. by exists (k', v).
Qed.

(** Assigning to a key the dictionary does not have appends a record. *)
Lemma set_fresh d k v : Dict.get d k = None → Dict.set d k v = d ++ [(k, v)].
Proof.
  induction d as [|[k' v'] d IH]; simpl; [done|].
  destruct (decide (k = k')); [done|]. intros Hg. by rewrite IH.
Qed.

Lemma del_filter d k : Dict.del d k = filter (λ kv, kv.1 ≠ k) d.
Proof.
  induction d as [|[k' v'] d IH]; simpl; [done|].
  destruct (decide (k = k')) as [->|Hne].
  - rewrite filter_cons_False; [done|]. simpl. by intros H'.
  - rewrite filter_cons_True; [by rewrite IH|]. simpl. congruence.
Qed.

Lemma elem_of_del d k k' v : (k', v) ∈ Dict.del d k ↔ (k', v) ∈ d ∧ k' ≠ k.
Proof. rewrite del_filter, list_elem_of_filter. simpl. naive_solver. Qed.

Lemma del_absent d k : Dict.get d k = None → Dict.del d k = d.
Proof.
  induction d as [|[k' v'] d IH]; simpl; [done|].
  destruct (decide (k = k')); [done|]. intros Hg. by rewrite IH.
Qed.

Lemma del_sublist d k : Dict.del d k `sublist_of` d.
Proof. rewrite del_filter. apply sublist_filter. Qed.
End dict_facts.

(** ** The process supervisor *)

Section supervisor.
Import ProcessManager.

(** An untracked name: [stop_process] answers [False] and does nothing. *)
Lemma stop_process_untracked e m name timeout :
  Dict.mem (_processes m) name = false →
  stop_process e m name timeout = (m, false, []).
Proof.
  intros Hm. apply mem_get_false in Hm. unfold stop_process. by rewrite Hm.
Qed.

(** When the signal raises, or the process outlives the kill, the
    exception handler returns [False] and the record stays. *)
Lemma stop_process_raises e m name timeout process :
  Dict.get (_processes m) name = Some process →
  signal_ok e = false
  ∨ first_wait e = TimeoutExpired ∧ (kill_ok e = false ∨ second_wait e = TimeoutExpired) →
  (stop_process e m name timeout).1 = (m, false).
Proof.
  intros Hg Hfail. unfold stop_process. rewrite Hg.
  destruct Hfail as [->|[-> [->| ->]]]; simpl; [done| |].
  - by destruct (signal_ok e).
  - by destruct (signal_ok e), (kill_ok e).
Qed.

(** A process started without restart, and without callbacks, is not even
    watched. *)
Lemma start_process_unwatched spawned m name command cwd env :
  (start_process spawned m name command cwd env None None false).1.1
    = m
  ∨ ∃ process,
      (start_process spawned m name command cwd env None None false).1.1
      = Manager (Dict.set (_processes m) name process) (_threads m)
          (_shutdown_event m).
Proof.
  unfold start_process. destruct (Dict.mem (_processes m) name); [by left|].
  destruct spawned as [process|]; [|by left]. right. by exists process.
Qed.

(** The output monitor of a process started with [restart_on_exit = False]
    never launches anything, whatever the exit code. *)
Lemma monitor_output_no_restart e m name process out err command cwd env :
  _monitor_process_output e m name process out err false command cwd env
  = (forget m name, [Wait process None]).
Proof. done. Qed.

(** The output monitor of a process started with [restart_on_exit = True]
    calls [start_process] again with the same arguments after the three
    seconds, whatever the exit code, unless shutdown was signalled. *)
Lemma monitor_output_restarts e m name process out err command cwd env :
  _shutdown_event m = false →
  _shutdown_event (during_sleep e (forget m name)) = false →
  _monitor_process_output e m name process out err true command cwd env
  = let '(m', _, t) :=
      start_process (respawned e) (during_sleep e (forget m name)) name
        command cwd env out err true in
    (m', [Wait process None; Sleep 3] ++ t).
Proof.
  intros Hs1 Hs2. unfold _monitor_process_output. simpl.
  rewrite Hs1. simpl. by rewrite Hs2.
Qed.

(** The exit monitor does the same after a nonzero exit code. *)
Lemma monitor_exit_restarts e m name process command cwd env :
  exit_code e ≠ 0 →
  _shutdown_event m = false →
  _shutdown_event (during_sleep e (forget m name)) = false →
  _monitor_process_exit e m name process command cwd env
  = let '(m', _, t) :=
      start_process (respawned e) (during_sleep e (forget m name)) name
        command cwd env None None true in
    (m', [Wait process None; Sleep 3] ++ t).
Proof.
  intros Hc Hs1 Hs2. unfold _monitor_process_exit.
  rewrite decide_True by done. simpl. rewrite Hs1. simpl. by rewrite Hs2.
Qed.

(** After exit code 0 the exit monitor only forgets the process. *)
Lemma monitor_exit_clean e m name process command cwd env :
  exit_code e = 0 →
  _monitor_process_exit e m name process command cwd env
  = (forget m name, [Wait process None]).
Proof.
  intros Hc. unfold _monitor_process_exit. rewrite decide_False; [done|].
  intros Hne. by apply Hne.
Qed.
End supervisor.

(** C7. For a tracked name, when the graceful path or the forced path goes
    through, [stop_process] first sends the graceful termination signal,
    waits up to [timeout], kills the process if it is still alive then, and
    removes the record of the name (from the processes and from the threads)
    in either case, leaving every other record alone; for an untracked name
    it answers [False], does nothing and changes nothing. *)
Theorem C7_stop_process (e : ProcessManager.stop_env) (m : ProcessManager.t)
    (name : string) (timeout : Z) :
  (∀ process,
     Dict.get (ProcessManager._processes m) name = Some process →
     ProcessManager.signal_ok e = true →
     ProcessManager.first_wait e = ProcessManager.Exited
     ∨ ProcessManager.kill_ok e = true
       ∧ ProcessManager.second_wait e = ProcessManager.Exited →
     let '(m', ok, t) := ProcessManager.stop_process e m name timeout in
     ok = true ∧
     t = [ProcessManager.Signal process (ProcessManager.graceful e);
          ProcessManager.Wait process (Some timeout)]
         ++ match ProcessManager.first_wait e with
            | ProcessManager.Exited => []
            | ProcessManager.TimeoutExpired =>
                [ProcessManager.Signal process ProcessManager.SIGKILL;
                 ProcessManager.Wait process (Some 2)]
            end ∧
     Dict.mem (ProcessManager._processes m') name = false ∧
     Dict.mem (ProcessManager._threads m') name = false ∧
     (∀ other, other ≠ name →
        Dict.get (ProcessManager._processes m') other
        = Dict.get (ProcessManager._processes m) other
        ∧ Dict.get (ProcessManager._threads m') other
          = Dict.get (ProcessManager._threads m) other) ∧
     ProcessManager._shutdown_event m' = ProcessManager._shutdown_event m) ∧
  (Dict.mem (ProcessManager._processes m) name = false →
   ProcessManager.stop_process e m name timeout = (m, false, [])).
Proof.
  split; [|apply stop_process_untracked].
  intros process Hg Hsig Hpath. unfold ProcessManager.stop_process.
  rewrite Hg, Hsig. simpl.
  assert (Hthreads :
    Dict.mem
      (if Dict.mem (ProcessManager._threads m) name
       then Dict.del (ProcessManager._threads m) name
       else ProcessManager._threads m) name = false).
  { destruct (Dict.mem (ProcessManager._threads m) name) eqn:Hm; [|done].
    apply mem_del. }
  assert (Hothers : ∀ other, other ≠ name →
    Dict.get (Dict.del (ProcessManager._processes m) name) other
    = Dict.get (ProcessManager._processes m) other
    ∧ Dict.get
        (if Dict.mem (ProcessManager._threads m) name
         then Dict.del (ProcessManager._threads m) name
         else ProcessManager._threads m) other
      = Dict.get (ProcessManager._threads m) other).
  { intros other Hne. split; [by apply get_del_ne|].
    destruct (Dict.mem (ProcessManager._threads m) name); [|done].
    by apply get_del_ne. }
  destruct (ProcessManager.first_wait e) eqn:Hw1; simpl.
  - repeat split; auto using mem_del; by apply Hothers.
  - destruct Hpath as [?|[-> ->]]; [done|]. simpl.
    repeat split; auto using mem_del; by apply Hothers.
Qed.

(** A tracked relay whose process ignores the termination signal and is
    killed: the record of the relay goes, the one of nginx stays. *)
Lemma C7_stop_process_witness :
  let m := ProcessManager.Manager
             [("nginx", ProcessManager.Popen 7); ("relay", ProcessManager.Popen 8)]
             [] false in
  let e := ProcessManager.StopEnv false true ProcessManager.TimeoutExpired true
             ProcessManager.Exited in
  Dict.get (ProcessManager._processes m) "relay" = Some (ProcessManager.Popen 8) ∧
  ProcessManager.signal_ok e = true ∧
  (ProcessManager.kill_ok e = true
   ∧ ProcessManager.second_wait e = ProcessManager.Exited) ∧
  (ProcessManager.stop_process e m "relay" 5).1.2 = true ∧
  Dict.mem (ProcessManager._processes (ProcessManager.stop_process e m "relay" 5).1.1)
    "relay" = false.
Proof.
  intros m e.
  split; [reflexivity|]. split; [reflexivity|]. split; [split; reflexivity|].
  pose proof (proj1 (C7_stop_process e m "relay" 5) (ProcessManager.Popen 8)
                eq_refl eq_refl (or_intror (conj eq_refl eq_refl))) as H.
  destruct (ProcessManager.stop_process e m "relay" 5) as [[m' ok] t].
  destruct H as (Hok & _ & Hgone & _). simpl. by split.
Defined.

(** C3, at the input where the code departs from it: a process started with
    [restart_on_exit = True] and no output callback gets the exit monitor,
    and when the process then ends with exit code 0 while no shutdown was
    signalled the monitor forgets it and launches nothing. *)
Theorem C3_clean_exit_is_not_relaunched :
  let m0 := ProcessManager.Manager [] [] false in
  let '(m1, ok, t1) :=
    ProcessManager.start_process (Some (ProcessManager.Popen 100)) m0
      "player" ["mpv.exe"] None None None None true in
  let th := ProcessManager.MonitorExit "player" (ProcessManager.Popen 100)
              ["mpv.exe"] None None in
  let e := ProcessManager.MonitorEnv 0 (λ m, m) (Some (ProcessManager.Popen 101)) in
  ok = true ∧
  Dict.get (ProcessManager._threads m1) "player" = Some th ∧
  ProcessManager._shutdown_event m1 = false ∧
  ProcessManager.run_thread e m1 th
  = (m0, [ProcessManager.Wait (ProcessManager.Popen 100) None]).
Proof. vm_compute. repeat split; reflexivity. Qed.

(** ** The coordinator: one handler at a time *)

Section handlers.
Import WebSocketServer Session.

Lemma start_process_failed spawned m name command cwd env out err restart :
  (ProcessManager.start_process spawned m name command cwd env out err restart).1.2
    = false →
  (ProcessManager.start_process spawned m name command cwd env out err restart).1.1
    = m.
Proof.
  unfold ProcessManager.start_process.
  destruct (Dict.mem (ProcessManager._processes m) name); [done|].
  destruct spawned; [|done].
  destruct (ProcessManager.is_some out || ProcessManager.is_some err); [done|].
  by destruct restart.
Qed.

Lemma start_rtmp_to_srt_failed v6 spawned fm rtmp p ip name fm' t :
  FFmpegManager.start_rtmp_to_srt v6 spawned fm rtmp p ip name = (fm', false, t) →
  fm' = fm.
Proof.
  unfold FFmpegManager.start_rtmp_to_srt.
  destruct (Dict.mem _ _); [by intros [= <- _]|].
  match goal with
  | |- context [ProcessManager.start_process ?a ?b ?c ?d ?e ?f ?g ?h ?i] =>
      pose proof (start_process_failed a b c d e f g h i) as Hfail;
      destruct (ProcessManager.start_process a b c d e f g h i) as [[pm ok] t']
  end.
  destruct ok; [done|]. intros [= <- _]. simpl in Hfail.
  rewrite Hfail by done. by destruct fm.
Qed.

Lemma allocate_srt_port_eq e s :
  _allocate_srt_port e s
  = let r := NetworkUtils.find_available_port (net e) (next_srt_port s) 100 in
    (match r.1 with Some p => advance s p | None => s end, r.1, Probed <$> r.2).
Proof.
  unfold _allocate_srt_port, advance.
  destruct (NetworkUtils.find_available_port _ _ _) as [[p|] t]; simpl; [|done].
  by destruct (bool_decide (p ≠ 0)).
Qed.

Lemma advance_fields s p :
  verification_code (advance s p) = verification_code s ∧
  clients (advance s p) = clients s ∧
  nicknames (advance s p) = nicknames s ∧
  ffmpeg_manager (advance s p) = ffmpeg_manager s ∧
  bind_ip (advance s p) = bind_ip s ∧
  sender_nickname (advance s p) = sender_nickname s ∧
  on_message_callback (advance s p) = on_message_callback s ∧
  on_member_update_callback (advance s p) = on_member_update_callback s.
Proof. unfold advance. by destruct (bool_decide (p ≠ 0)). Qed.

Lemma set_ffmpeg_manager_same s : set_ffmpeg_manager s (ffmpeg_manager s) = s.
Proof. by destruct s. Qed.

(** [_handle_auth] takes one of the four ways. *)
Lemma handle_auth_outcome e s cid ci data :
  auth_outcome e s cid ci data (_handle_auth e s cid ci data).
Proof.
  unfold _handle_auth.
  destruct (decide (get (f_code data) ≠ Some (verification_code s))) as [Hc|Hc].
  { by constructor. }
  apply dec_stable in Hc.
  rewrite allocate_srt_port_eq. simpl.
  destruct (NetworkUtils.find_available_port (net e) (next_srt_port s) 100)
    as [[p|] t1] eqn:Hfind; simpl.
  2: { by apply auth_no_port. }
  destruct (advance_fields s p) as (_ & Hcl & Hn & Hfm & Hip & _ & _ & Hcb).
  rewrite Hfm, Hip.
  destruct (FFmpegManager.start_rtmp_to_srt _ _ _ _ _ _ _) as [[fm ok] t2] eqn:Hstart.
  destruct ok; simpl.
  - rewrite Hcl, Hn, Hcb.
    replace (bind_ip _) with (bind_ip s) by (by rewrite <- Hip).
    replace (on_member_update_callback _) with (on_member_update_callback s).
    + by eapply auth_welcome.
    + done.
  - pose proof (start_rtmp_to_srt_failed _ _ _ _ _ _ _ _ _ Hstart) as ->.
    rewrite <- Hfm at 1. rewrite set_ffmpeg_manager_same.
    by eapply auth_no_relay.
Qed.
End handlers.

(** ** The session invariant *)

Section session_invariant.
Import WebSocketServer Coordinator Session.

Lemma append_cancel (a b c : string) : a +:+ b = a +:+ c → b = c.
Proof. induction a as [|x a IH]; simpl; [done|]. intros [= H]. by apply IH. Qed.

Lemma client_id_inj ws1 ws2 : client_id ws1 = client_id ws2 → ws1 = ws2.
Proof.
  unfold client_id. intros H. apply append_cancel in H.
  by apply (inj pretty) in H.
Qed.

Lemma find_available_port_ge o start budget p t :
  NetworkUtils.find_available_port o start budget = (Some p, t) → start ≤ p.
Proof.
  unfold NetworkUtils.find_available_port. intros Hf.
  pose proof (find_available_port_loop_spec o start (Z.to_nat budget) 0) as H.
  rewrite Hf in H. destruct H as (k & _ & -> & _). lia.
Qed.

Lemma advance_cursor s p :
  srt_base_port ≤ next_srt_port s → next_srt_port s ≤ p →
  next_srt_port (advance s p) = p + 1.
Proof.
  unfold advance, srt_base_port. intros Hb Hp.
  rewrite bool_decide_eq_true_2; [done|lia].
Qed.

(** What [_cleanup_client] leaves of the session state. *)
Lemma cleanup_client_fields e s cid :
  let s' := (_cleanup_client e s cid).1 in
  clients s' = Dict.del (clients s) cid ∧
  next_srt_port s' = next_srt_port s ∧
  verification_code s' = verification_code s ∧
  sender_nickname s' = sender_nickname s.
Proof.
  unfold _cleanup_client. destruct (Dict.get (clients s) cid) as [ci|] eqn:Hg.
  2: { simpl. by rewrite del_absent. }
  destruct (truthy_int (srt_port ci)).
  - destruct (FFmpegManager.stop_process _ _ _) as [[fm ok] t].
    by destruct (truthy_str (nickname ci)).
  - by destruct (truthy_str (nickname ci)).
Qed.

Lemma cleanup_client_absent e s cid :
  Dict.get (clients s) cid = None → _cleanup_client e s cid = (s, []).
Proof. intros Hg. unfold _cleanup_client. by rewrite Hg. Qed.

Lemma boot_invariant e code fm cb1 cb2 host p nick :
  invariant (boot e code fm cb1 cb2 host p nick).
Proof.
  unfold boot. destruct cb1, cb2; simpl.
  all: split; simpl;
    [apply NoDup_nil_2
    |intros k ci Hin; by apply elem_of_nil in Hin
    |apply NoDup_nil_2
    |intros ws ci Hl; by rewrite lookup_empty in Hl
    |done].
Qed.

(** A record in [clients] belongs to a running handler, so a connection
    without a record cannot be the one of a record. *)
Lemma record_of_other sys ws k ci :
  invariant sys → Dict.get (clients (server sys)) (client_id ws) = None →
  (k, ci) ∈ clients (server sys) → websocket ci ≠ ws.
Proof.
  intros Hinv Hg Hin Heq. destruct (inv_records _ Hinv _ _ Hin) as (_ & -> & _).
  rewrite Heq in Hin. apply (elem_of_get _ _ _ (inv_keys _ Hinv)) in Hin. congruence.
Qed.

Lemma invariant_same_clients sys s' hs hu :
  invariant sys →
  clients s' = clients (server sys) →
  next_srt_port (server sys) ≤ next_srt_port s' →
  (∀ ws ci, hs !! ws = Some ci → handlers sys !! ws = Some ci) →
  (∀ k ci, (k, ci) ∈ clients (server sys) → hs !! websocket ci = Some ci) →
  invariant (System s' hs hu).
Proof.
  intros Hinv Hcl Hcur Hhs Hrec. split; simpl; rewrite ?Hcl.
  - apply Hinv.
  - intros k ci Hin. destruct (inv_records _ Hinv _ _ Hin) as (? & ? & ? & p & ? & ?).
    repeat split; [done..|by eapply Hrec|]. exists p. split; [done|lia].
  - apply Hinv.
  - intros ws ci Hl. apply Hhs in Hl. apply (inv_handlers _ Hinv _ _ Hl).
  - pose proof (inv_cursor _ Hinv). lia.
Qed.

Lemma advance_monotone s p :
  next_srt_port s ≤ p → next_srt_port s ≤ next_srt_port (advance s p).
Proof. unfold advance. intros Hp. destruct (bool_decide (p ≠ 0)); simpl; lia. Qed.

(** A handled frame either leaves the records alone, or is the successful
    authentication of a handler that was not authenticated. *)
Lemma handle_message_state e s ci m s' ci' t :
  handle_message e s ci m = (s', ci', t) →
  (ci' = ci ∧ clients s' = clients s ∧ next_srt_port s ≤ next_srt_port s')
  ∨ (authenticated ci = false ∧
     ∃ p nick,
       ci' = ClientInfo (websocket ci) true nick (Some p) ∧
       next_srt_port s ≤ p ∧
       clients s' = Dict.set (clients s) (client_id (websocket ci)) ci' ∧
       next_srt_port s' = next_srt_port (advance s p)).
Proof.
  unfold handle_message. destruct m as [| |data].
  1,2: intros [= <- <- _]; left; repeat split; lia.
  destruct (authenticated ci) eqn:Hauth; simpl.
  { repeat case_decide; intros [= <- <- _]; left; repeat split; lia. }
  case_decide; [|intros [= <- <- _]; left; repeat split; lia].
  intros Hr.
  pose proof (handle_auth_outcome e s (client_id (websocket ci)) ci data) as Ho.
  rewrite Hr in Ho. inversion Ho as [| |p t1 t2 Hc Hf Hs|p t1 fm t2 Hc Hf Hs]; subst.
  - left. repeat split; lia.
  - left. repeat split; lia.
  - left. destruct (advance_fields s p) as (_ & -> & _).
    repeat split. apply advance_monotone. by eapply find_available_port_ge.
  - right. split; [done|]. exists p, (resolve_nickname (nicknames s) (get (f_nickname data))).
    repeat split. by eapply find_available_port_ge.
Qed.

Lemma handler_without_record sys ws :
  invariant sys → handlers sys !! ws = None →
  Dict.get (clients (server sys)) (client_id ws) = None.
Proof.
  intros Hinv Hl.
  destruct (Dict.get (clients (server sys)) (client_id ws)) as [ci|] eqn:Hg; [|done].
  apply get_Some_elem_of in Hg.
  destruct (inv_records _ Hinv _ _ Hg) as (_ & Hk & Hh & _).
  apply client_id_inj in Hk. subst. congruence.
Qed.

Lemma connect_invariant sys ws :
  invariant sys → handlers sys !! ws = None →
  invariant (System (server sys) (<[ws := new_client_info ws]> (handlers sys))
               (hung_up sys)).
Proof.
  intros Hinv Hl. pose proof (handler_without_record _ _ Hinv Hl) as Hnone.
  split; simpl; try apply Hinv.
  - intros k ci Hin.
    destruct (inv_records _ Hinv _ _ Hin) as (? & ? & Hh & ?).
    repeat split; try done. rewrite lookup_insert_ne; [done|].
    intros ->. congruence.
  - intros ws' ci. destruct (decide (ws = ws')) as [<-|Hne].
    + rewrite lookup_insert_eq. by intros [= <-].
    + rewrite lookup_insert_ne by done. apply Hinv.
Qed.

Lemma welcome_invariant sys ws ci p nick s' :
  invariant sys → handlers sys !! ws = Some ci → authenticated ci = false →
  next_srt_port (server sys) ≤ p →
  clients s'
    = Dict.set (clients (server sys)) (client_id ws) (ClientInfo ws true nick (Some p)) →
  next_srt_port s' = next_srt_port (advance (server sys) p) →
  ∀ hu,
    invariant (System s' (<[ws := ClientInfo ws true nick (Some p)]> (handlers sys)) hu).
Proof.
  intros Hinv Hl Hauth Hp Hcl Hcur hu.
  destruct (inv_handlers _ Hinv _ _ Hl) as [Hws Hnone]. rewrite Hauth in Hnone.
  pose proof (inv_cursor _ Hinv) as Hbase.
  rewrite (advance_cursor _ _ Hbase Hp) in Hcur.
  rewrite set_fresh in Hcl by done.
  split; simpl; rewrite ?Hcl, ?Hcur.
  - unfold Dict.keys. rewrite fmap_app. simpl.
    apply NoDup_app. split; [apply Hinv|]. split; [|apply NoDup_singleton].
    intros k Hk Hk'. apply list_elem_of_singleton in Hk' as ->.
    by apply get_None_keys in Hnone.
  - intros k c Hin. apply elem_of_app in Hin as [Hin|Hin].
    + destruct (inv_records _ Hinv _ _ Hin) as (? & ? & Hh & q & ? & ?).
      repeat split; try done.
      * rewrite lookup_insert_ne; [done|]. intros Heq.
        by eapply (record_of_other sys ws k c).
      * exists q. split; [done|lia].
    + apply list_elem_of_singleton in Hin as [= -> ->]. simpl.
      repeat split. { by rewrite lookup_insert_eq. }
      exists p. split; [done|lia].
  - unfold Dict.values. rewrite !fmap_app. simpl.
    apply NoDup_app. split; [apply Hinv|]. split; [|apply NoDup_singleton].
    intros q Hq Hq'. apply list_elem_of_singleton in Hq' as ->.
    apply list_elem_of_fmap in Hq as (c & Hc & Hin).
    apply values_get in Hin as [k Hin].
    destruct (inv_records _ Hinv _ _ Hin) as (_ & _ & _ & q & Hq & ?).
    rewrite Hq in Hc. injection Hc as ->. lia.
  - intros ws' c. destruct (decide (ws = ws')) as [<-|Hne].
    + rewrite lookup_insert_eq. intros [= <-]. simpl. split; [done|].
      apply elem_of_app. right. by apply list_elem_of_singleton.
    + rewrite lookup_insert_ne by done. intros Hl'.
      destruct (inv_handlers _ Hinv _ _ Hl') as [? Hc]. split; [done|].
      destruct (authenticated c).
      * apply elem_of_app. by left.
      * rewrite <- (set_fresh _ _ (ClientInfo ws true nick (Some p))) by done.
        rewrite get_set_ne; [done|]. intros Heq. by apply client_id_inj in Heq.
  - lia.
Qed.

Lemma disconnect_invariant e sys ws ci :
  invariant sys → handlers sys !! ws = Some ci →
  invariant (System (_cleanup_client e (server sys) (client_id ws)).1
               (delete ws (handlers sys)) (hung_up sys ∖ {[ws]})).
Proof.
  intros Hinv Hl.
  destruct (cleanup_client_fields e (server sys) (client_id ws)) as (Hcl & Hcur & _).
  split; simpl; rewrite ?Hcl, ?Hcur.
  - unfold Dict.keys. eapply sublist_NoDup; [apply (inv_keys _ Hinv)|].
    apply fmap_sublist, del_sublist.
  - intros k c Hin. apply elem_of_del in Hin as [Hin Hk].
    destruct (inv_records _ Hinv _ _ Hin) as (? & ? & Hh & ?).
    repeat split; try done. rewrite lookup_delete_ne; [done|]. by intros ->.
  - unfold Dict.values. eapply sublist_NoDup; [apply (inv_ports _ Hinv)|].
    apply fmap_sublist, fmap_sublist, del_sublist.
  - intros ws' c Hl'. apply lookup_delete_Some in Hl' as [Hne Hl'].
    destruct (inv_handlers _ Hinv _ _ Hl') as [? Hc]. split; [done|].
    assert (client_id ws' ≠ client_id ws).
    { intros Heq. by apply client_id_inj in Heq. }
    destruct (authenticated c).
    + by apply elem_of_del.
    + by rewrite get_del_ne.
  - apply Hinv.
Qed.

Lemma step_invariant e sys i sys' t :
  invariant sys → step e sys i = Some (sys', t) → invariant sys'.
Proof.
  intros Hinv Hstep. destruct i as [ws|ws m|ws|text|pm]; simpl in Hstep.
  - (* a connection is accepted *)
    destruct (handlers sys !! ws) eqn:Hl; [done|]. injection Hstep as <- <-.
    by apply connect_invariant.
  - (* a frame is handled *)
    destruct (handlers sys !! ws) as [ci|] eqn:Hl; [|done].
    destruct (decide (ws ∈ hung_up sys)); [done|].
    destruct (handle_message e (server sys) ci m) as [[s ci'] t'] eqn:Hm.
    injection Hstep as <- <-.
    destruct (inv_handlers _ Hinv _ _ Hl) as [Hws _].
    apply handle_message_state in Hm
      as [(-> & Hcl & Hcur)|(Hauth & p & nick & -> & Hp & Hcl & Hcur)].
    + rewrite insert_id by done.
      apply invariant_same_clients with (sys := sys); try done.
      intros k c Hin. by destruct (inv_records _ Hinv _ _ Hin) as (_ & _ & ? & _).
    + rewrite Hws in *. by eapply welcome_invariant.
  - (* a connection ends *)
    destruct (handlers sys !! ws) as [ci|] eqn:Hl; [|done].
    destruct (_cleanup_client e (server sys) (client_id ws)) as [s t'] eqn:Hc.
    injection Hstep as <- <-.
    pose proof (disconnect_invariant e sys ws ci Hinv Hl) as H.
    by rewrite Hc in H.
  - (* the host chats *)
    injection Hstep as <- <-. done.
  - (* the process manager changes *)
    injection Hstep as <- <-.
    apply invariant_same_clients with (sys := sys); try done.
    intros k c Hin. by destruct (inv_records _ Hinv _ _ Hin) as (_ & _ & ? & _).
Qed.

Lemma reachable_invariant sys : reachable sys → invariant sys.
Proof.
  induction 1 as [|e sys i sys' t _ IH Hstep].
  - apply boot_invariant.
  - by eapply step_invariant.
Qed.

Lemma later_invariant sys sys' : invariant sys → later sys sys' → invariant sys'.
Proof.
  intros Hinv. induction 1 as [|e sys1 i sys2 t _ IH Hstep]; [done|].
  by eapply step_invariant.
Qed.
End session_invariant.

(** ** The coordinator: claims about single handlers *)

Section scenario_facts.
Import WebSocketServer Coordinator Scenario.

Lemma run_reachable sys script sys' t :
  reachable sys → run sys script = Some (sys', t) → reachable sys'.
Proof.
  revert sys sys' t. induction script as [|[e i] rest IH]; intros sys sys' t Hr; simpl.
  - by intros [= <- _].
  - destruct (step e sys i) as [[sys1 t1]|] eqn:Hs; [|done].
    destruct (run sys1 rest) as [[sys2 t2]|] eqn:Hrun; [|done].
    intros [= <- _]. eapply IH; [|done]. by eapply reachable_step.
Qed.

Lemma after_reachable sys script : reachable sys → reachable (after sys script).
Proof.
  intros Hr. unfold after.
  destruct (run sys script) as [[sys' t]|] eqn:Hrun; [|done].
  by eapply run_reachable.
Qed.

Lemma host_reachable : reachable host.
Proof. apply reachable_boot. Qed.

Lemma one_guest_reachable : reachable one_guest.
Proof. apply after_reachable, host_reachable. Qed.

Lemma one_saber_reachable : reachable one_saber.
Proof. apply after_reachable, one_guest_reachable. Qed.

Lemma two_sabers_reachable : reachable two_sabers.
Proof. apply after_reachable, one_saber_reachable. Qed.

(** The scenario of the specification: the second "Saber" is told that it
    is "Saber_2" and gets the next port. *)
Example two_sabers_records :
  clients (server two_sabers)
  = [("client_1", ClientInfo 1 true (Some "Saber") (Some 10000));
     ("client_2", ClientInfo 2 true (Some "Saber_2") (Some 10001))]
  ∧ get_online_members (server two_sabers)
    = [Member (Some "Archer") "sender"; Member (Some "Saber") "receiver";
       Member (Some "Saber_2") "receiver"]
  ∧ next_srt_port (server two_sabers) = 10002.
Proof. vm_compute. done. Qed.
End scenario_facts.

(** C9. On a connection that is not authenticated, a frame whose type is not
    [auth] is answered with the error that asks for authentication and
    nothing else happens: the session state, the handler and the set of
    connections the server has closed are what they were. *)
Theorem C9_frame_before_authentication (e : WebSocketServer.env)
    (sys : Coordinator.system) (ws : N) (ci : WebSocketServer.client_info)
    (data : WebSocketServer.object) :
  Coordinator.reachable sys →
  Coordinator.handlers sys !! ws = Some ci →
  ws ∉ Coordinator.hung_up sys →
  WebSocketServer.authenticated ci = false →
  WebSocketServer.get (WebSocketServer.f_type data) ≠ Some "auth" →
  Coordinator.step e sys (Coordinator.Receive ws (WebSocketServer.Obj data))
  = Some (sys,
          [WebSocketServer.Send ws (WebSocketServer.Error "请先进行身份验证")
             (WebSocketServer.send_ok e ws)]).
Proof.
  intros Hr Hl Hopen Hauth Htype.
  destruct (Session.inv_handlers _ (reachable_invariant _ Hr) _ _ Hl) as [Hws _].
  simpl. rewrite Hl, decide_False by done. simpl. rewrite Hauth. simpl.
  rewrite decide_False by done. unfold WebSocketServer._send_error,
    WebSocketServer._send_message. simpl.
  rewrite insert_id by done. rewrite Hws. by destruct sys.
Qed.

(** A guest whose first frame is a chat line. *)
Lemma C9_frame_before_authentication_witness :
  (Coordinator.handlers Scenario.one_guest !! 1%N)
    = Some (WebSocketServer.new_client_info 1) ∧
  (1%N ∉ Coordinator.hung_up Scenario.one_guest) ∧
  Coordinator.step (Scenario.launching 5) Scenario.one_guest
    (Coordinator.Receive 1%N (WebSocketServer.Obj (Scenario.chat "hello")))
  = Some (Scenario.one_guest,
          [WebSocketServer.Send 1%N (WebSocketServer.Error "请先进行身份验证") true]).
Proof.
  assert (H1 : Coordinator.handlers Scenario.one_guest !! 1%N
               = Some (WebSocketServer.new_client_info 1)) by (vm_compute; done).
  assert (H2 : 1%N ∉ Coordinator.hung_up Scenario.one_guest)
    by (vm_compute; intros H; discriminate H).
  split; [done|]. split; [done|].
  apply (C9_frame_before_authentication (Scenario.launching 5) Scenario.one_guest
           1%N (WebSocketServer.new_client_info 1) (Scenario.chat "hello")
           one_guest_reachable H1 H2 eq_refl).
  vm_compute. done.
Defined.

(** C10. When a connection ends whose handler never authenticated, the
    cleanup finds no record under its key and returns at once: the server
    state (records, nicknames, cursor, relay processes) is what it was and
    nothing is sent, stopped or published. *)
Theorem C10_cleanup_before_authentication (e : WebSocketServer.env)
    (sys : Coordinator.system) (ws : N) (ci : WebSocketServer.client_info) :
  Coordinator.reachable sys →
  Coordinator.handlers sys !! ws = Some ci →
  WebSocketServer.authenticated ci = false →
  WebSocketServer._cleanup_client e (Coordinator.server sys)
    (WebSocketServer.client_id ws) = (Coordinator.server sys, []) ∧
  Coordinator.step e sys (Coordinator.Disconnect ws)
  = Some (Coordinator.System (Coordinator.server sys)
            (delete ws (Coordinator.handlers sys))
            (Coordinator.hung_up sys ∖ {[ws]}), []).
Proof.
  intros Hr Hl Hauth.
  destruct (Session.inv_handlers _ (reachable_invariant _ Hr) _ _ Hl) as [_ Hnone].
  rewrite Hauth in Hnone.
  pose proof (cleanup_client_absent e _ _ Hnone) as Hc.
  split; [done|]. simpl. by rewrite Hl, Hc.
Qed.

(** A guest that leaves without having sent anything. *)
Lemma C10_cleanup_before_authentication_witness :
  (Coordinator.handlers Scenario.one_guest !! 1%N)
    = Some (WebSocketServer.new_client_info 1) ∧
  WebSocketServer._cleanup_client (Scenario.launching 5)
    (Coordinator.server Scenario.one_guest) (WebSocketServer.client_id 1)
  = (Coordinator.server Scenario.one_guest, []).
Proof.
  assert (H1 : Coordinator.handlers Scenario.one_guest !! 1%N
               = Some (WebSocketServer.new_client_info 1)) by (vm_compute; done).
  split; [done|].
  apply (C10_cleanup_before_authentication (Scenario.launching 5)
           Scenario.one_guest 1%N (WebSocketServer.new_client_info 1)
           one_guest_reachable H1 eq_refl).
Defined.

Section failed_authentication.
Import WebSocketServer Session.

End failed_authentication.



(** ** Chat fan-out *)

Section fan_out.
Import WebSocketServer Coordinator Session.

Lemma sends_to_app ws t1 t2 : sends_to ws (t1 ++ t2) = sends_to ws t1 ++ sends_to ws t2.
Proof. unfold sends_to. apply omap_app. Qed.

(** A broadcast over records that are all authenticated and filed under
    the key of their connection sends one copy to the connection of each
    key, and nothing to any other connection. *)
Lemma sends_to_records e m ws (d : list (string * client_info)) :
  NoDup (Dict.keys d) →
  (∀ k ci, (k, ci) ∈ d → authenticated ci = true ∧ k = client_id (websocket ci)) →
  sends_to ws
    (flat_map (λ ci, if authenticated ci
                     then _send_message e (websocket ci) m else [])
       (Dict.values d))
  = if bool_decide (client_id ws ∈ Dict.keys d) then [(m, send_ok e ws)] else [].
Proof.
  unfold Dict.keys, Dict.values.
  induction d as [|[k ci] d IH]; intros Hnd Hrec.
  { rewrite bool_decide_eq_false_2; [done|]. apply not_elem_of_nil. }
  rewrite !fmap_cons in *. cbn [flat_map fst snd] in *.
  apply NoDup_cons in Hnd as [Hk Hnd].
  destruct (Hrec k ci) as [Hauth ->]; [left|].
  rewrite Hauth, sends_to_app, IH; [|done|intros; apply Hrec; by right].
  unfold _send_message, sends_to at 1. simpl.
  destruct (decide (websocket ci = ws)) as [Heq|Hne]; simpl.
  - rewrite Heq in Hk |- *. rewrite bool_decide_eq_false_2 by done.
    rewrite bool_decide_eq_true_2 by apply list_elem_of_here. done.
  - destruct (bool_decide (client_id ws ∈ d.*1)) eqn:Hin.
    + apply bool_decide_eq_true in Hin.
      rewrite bool_decide_eq_true_2 by (by apply list_elem_of_further). done.
    + apply bool_decide_eq_false in Hin.
      rewrite bool_decide_eq_false_2; [done|].
      rewrite not_elem_of_cons. split; [|done].
      intros Heq. by apply client_id_inj in Heq.
Qed.

Lemma sends_to_broadcast e sys m ws :
  invariant sys →
  sends_to ws (_broadcast_message e (server sys) m)
  = match handlers sys !! ws with
    | Some ci => if authenticated ci then [(m, send_ok e ws)] else []
    | None => []
    end.
Proof.
  intros Hinv. unfold _broadcast_message.
  rewrite sends_to_records; [|apply Hinv|].
  2: { intros k ci Hin. by destruct (inv_records _ Hinv _ _ Hin) as (? & ? & _). }
  destruct (handlers sys !! ws) as [ci|] eqn:Hl.
  - destruct (inv_handlers _ Hinv _ _ Hl) as [_ Hc].
    destruct (authenticated ci).
    + rewrite bool_decide_eq_true_2; [done|].
      apply list_elem_of_fmap. by exists (client_id ws, ci).
    + rewrite bool_decide_eq_false_2; [done|]. by apply get_None_keys.
  - rewrite bool_decide_eq_false_2; [done|].
    apply get_None_keys. by apply handler_without_record.
Qed.

(** The host's own chat line goes once to every authenticated connection
    as well. *)
Lemma host_chat_fan_out e sys text ws :
  invariant sys → truthy_str (sender_nickname (server sys)) = true →
  sends_to ws (send_chat_message e (server sys) text)
  = match handlers sys !! ws with
    | Some ci =>
        if authenticated ci
        then [(Chat (sender_nickname (server sys)) (Some text) (now e), send_ok e ws)]
        else []
    | None => []
    end.
Proof.
  intros Hinv Hhost. unfold send_chat_message. rewrite Hhost. simpl.
  rewrite sends_to_app, sends_to_broadcast by done.
  destruct (on_message_callback _); by rewrite ?app_nil_r.
Qed.
End fan_out.

(** C8. A chat frame from an authenticated connection leaves the session
    state alone and is sent exactly once to every authenticated connection,
    the sender's own included, and to no other; each copy is the text as
    received together with the sender's resolved nickname and the time, and
    whether a copy arrives depends on its own connection only. *)
Theorem C8_chat_fan_out (e : WebSocketServer.env) (sys : Coordinator.system)
    (ws : N) (ci : WebSocketServer.client_info) (data : WebSocketServer.object) :
  Coordinator.reachable sys →
  Coordinator.handlers sys !! ws = Some ci →
  ws ∉ Coordinator.hung_up sys →
  WebSocketServer.authenticated ci = true →
  WebSocketServer.get (WebSocketServer.f_type data) = Some "chat" →
  let line :=
    WebSocketServer.Chat (WebSocketServer.nickname ci)
      (WebSocketServer.get_default (WebSocketServer.f_message data) "")
      (WebSocketServer.now e) in
  ∃ t,
    Coordinator.step e sys (Coordinator.Receive ws (WebSocketServer.Obj data))
    = Some (sys, t) ∧
    Session.sends_to ws t = [(line, WebSocketServer.send_ok e ws)] ∧
    ∀ ws',
      Session.sends_to ws' t
      = match Coordinator.handlers sys !! ws' with
        | Some ci' =>
            if WebSocketServer.authenticated ci'
            then [(line, WebSocketServer.send_ok e ws')] else []
        | None => []
        end.
Proof.
  intros Hr Hl Hopen Hauth Htype line.
  pose proof (reachable_invariant _ Hr) as Hinv.
  destruct (Session.inv_handlers _ Hinv _ _ Hl) as [Hws Hrec]. rewrite Hauth in Hrec.
  apply (elem_of_get _ _ _ (Session.inv_keys _ Hinv)) in Hrec.
  eexists. split; [|split].
  - simpl. rewrite Hl, decide_False by done. simpl. rewrite Hauth. simpl.
    rewrite decide_True by done. rewrite insert_id by done.
    unfold Coordinator.closes, WebSocketServer._handle_chat. rewrite Hws, Hrec.
    replace (existsb _ _) with false; [by destruct sys|].
    symmetry. apply not_true_is_false. intros Hex.
    apply existsb_exists in Hex as (ev & Hin & Hev).
    apply list_elem_of_In, elem_of_app in Hin as [Hin|Hin].
    + unfold WebSocketServer._broadcast_message in Hin.
      apply list_elem_of_In, in_flat_map in Hin as (c & _ & Hin).
      destruct (WebSocketServer.authenticated c); [|done].
      apply list_elem_of_In, list_elem_of_singleton in Hin as ->. done.
    + destruct (WebSocketServer.on_message_callback _); [|by apply elem_of_nil in Hin].
      apply list_elem_of_singleton in Hin as ->. done.
  - rewrite sends_to_app, sends_to_broadcast, Hl, Hauth by done.
    destruct (WebSocketServer.on_message_callback _); by rewrite ?app_nil_r.
  - intros ws'. rewrite sends_to_app, sends_to_broadcast by done.
    destruct (WebSocketServer.on_message_callback _); by rewrite ?app_nil_r.
Qed.

(** "Saber" chats while the connection of "Saber_2" is broken: the copy for
    "Saber" itself arrives all the same. *)
Lemma C8_chat_fan_out_witness :
  let e :=
    WebSocketServer.Env (λ ws, bool_decide (ws ≠ 2%N)) "2025-01-01T20:05:00"
      Scenario.all_free (λ _, false) None Scenario.clean_stop in
  let saber := WebSocketServer.ClientInfo 1 true (Some "Saber") (Some 10000) in
  let line := WebSocketServer.Chat (Some "Saber") (Some "hi") "2025-01-01T20:05:00" in
  (Coordinator.handlers Scenario.two_sabers !! 1%N) = Some saber ∧
  (1%N ∉ Coordinator.hung_up Scenario.two_sabers) ∧
  ∃ t,
    Coordinator.step e Scenario.two_sabers
      (Coordinator.Receive 1%N (WebSocketServer.Obj (Scenario.chat "hi")))
    = Some (Scenario.two_sabers, t) ∧
    Session.sends_to 1 t = [(line, true)] ∧
    Session.sends_to 2 t = [(line, false)] ∧
    Session.sends_to 3 t = [].
Proof.
  intros e saber line.
  assert (H1 : Coordinator.handlers Scenario.two_sabers !! 1%N = Some saber)
    by (vm_compute; done).
  assert (H2 : 1%N ∉ Coordinator.hung_up Scenario.two_sabers)
    by (vm_compute; intros H; discriminate H).
  split; [done|]. split; [done|].
  destruct (C8_chat_fan_out e Scenario.two_sabers 1%N saber (Scenario.chat "hi")
              two_sabers_reachable H1 H2 eq_refl eq_refl) as (t & Hstep & Hown & Hall).
  exists t. split; [done|]. split; [done|].
  split; [by rewrite Hall|by rewrite Hall].
Defined.

(** ** Nicknames *)

Section nicknames.
Import WebSocketServer Coordinator Session.

Lemma suffixed_inj original j k : suffixed original j = suffixed original k → j = k.
Proof.
  unfold suffixed. intros [= H]. apply append_cancel in H.
  apply (append_cancel "_") in H. by apply (inj pretty) in H.
Qed.

(** The search for a free suffix: [T] holds the names tried so far, all of
    them in use.  When the rounds are used up every name in use has been
    tried, so the next one is free. *)
Lemma first_unused_tried names original fuel : ∀ counter (T : gset (option string)),
  T ⊆ names →
  (∀ j, counter ≤ j → suffixed original j ∉ T) →
  (size names ≤ size T + fuel)%nat →
  let k := first_unused names original counter fuel in
  counter ≤ k ∧ (suffixed original k ∉ names) ∧
  ∀ j, counter ≤ j < k → suffixed original j ∈ names.
Proof.
  induction fuel as [|fuel IH]; intros counter T Hsub Hfresh Hsize; simpl.
  - split; [lia|]. split; [|intros; lia].
    assert (T = names) as <- by (apply set_subseteq_size_eq; [done|lia]).
    apply Hfresh. lia.
  - destruct (decide (suffixed original counter ∈ names)) as [Hin|Hout].
    + destruct (IH (counter + 1) ({[suffixed original counter]} ∪ T))
        as (Hle & Hfree & Hused).
      * set_solver.
      * intros j Hj. rewrite not_elem_of_union, not_elem_of_singleton.
        split; [|apply Hfresh; lia].
        intros Heq. apply suffixed_inj in Heq. lia.
      * rewrite size_union, size_singleton; [lia|].
        apply disjoint_singleton_l, Hfresh. lia.
      * split; [lia|]. split; [done|]. intros j Hj.
        destruct (decide (j = counter)) as [->|]; [done|]. apply Hused. lia.
    + split; [lia|]. split; [done|]. intros; lia.
Qed.

(** The loop leaves through its condition, at the least free suffix. *)
Lemma first_unused_spec names original :
  let k := first_unused names original 2 (size names) in
  2 ≤ k ∧ (suffixed original k ∉ names) ∧
  ∀ j, 2 ≤ j < k → suffixed original j ∈ names.
Proof.
  apply (first_unused_tried names original (size names) 2 ∅).
  - set_solver.
  - intros j _. apply not_elem_of_empty.
  - rewrite size_empty. lia.
Qed.

Lemma resolve_nickname_spec names requested :
  if decide (requested ∈ names) then
    ∃ k, 2 ≤ k ∧
      resolve_nickname names requested = suffixed requested k ∧
      (suffixed requested k ∉ names) ∧
      ∀ j, 2 ≤ j < k → suffixed requested j ∈ names
  else resolve_nickname names requested = requested.
Proof.
  unfold resolve_nickname. destruct (decide (requested ∈ names)); [|done].
  destruct (first_unused_spec names requested) as (H2 & Hfree & Hused).
  by eexists.
Qed.

Lemma resolve_nickname_fresh names requested :
  resolve_nickname names requested ∉ names.
Proof.
  pose proof (resolve_nickname_spec names requested) as H.
  destruct (decide (requested ∈ names)) as [Hin|Hout].
  - destruct H as (k & _ & -> & Hfree & _). done.
  - by rewrite H.
Qed.

Lemma auth_replies_app t1 t2 : auth_replies (t1 ++ t2) = auth_replies t1 ++ auth_replies t2.
Proof. unfold auth_replies. apply omap_app. Qed.

Lemma auth_replies_cons ev t : auth_replies (ev :: t) = auth_replies [ev] ++ auth_replies t.
Proof. apply (auth_replies_app [ev]). Qed.

Lemma auth_replies_fmap {A} (f : A → event) (l : list A) :
  (∀ x, match f x with Send _ (AuthSuccess _ _ _) _ => False | _ => True end) →
  auth_replies (f <$> l) = [].
Proof.
  intros Hf. induction l as [|x l IH]; [done|].
  rewrite fmap_cons. replace (f x :: (f <$> l)) with ([f x] ++ (f <$> l)) by done.
  rewrite auth_replies_app, IH, app_nil_r. unfold auth_replies. simpl.
  specialize (Hf x). destruct (f x) as [? [] ?| | | | |]; done.
Qed.

Lemma auth_replies_broadcast e s m :
  match m with AuthSuccess _ _ _ => False | _ => True end →
  auth_replies (_broadcast_message e s m) = [].
Proof.
  intros Hm. unfold _broadcast_message.
  induction (Dict.values (clients s)) as [|ci l IH]; [done|].
  simpl. rewrite auth_replies_app, IH, app_nil_r.
  destruct (authenticated ci); [|done]. by destruct m.
Qed.

Lemma auth_replies_notify e s : auth_replies (_notify_member_update e s) = [].
Proof.
  unfold _notify_member_update.
  rewrite auth_replies_app, auth_replies_broadcast by done.
  by destruct (on_member_update_callback s).
Qed.

(** One successful join. *)
Lemma join_welcome e s cid ci data s' ci' t :
  authenticated ci = false →
  _handle_auth e s cid ci data = (s', ci', t) →
  authenticated ci' = true →
  nickname ci' = resolve_nickname (nicknames s) (get (f_nickname data)) ∧
  nicknames s' = {[nickname ci']} ∪ nicknames s ∧
  auth_replies t = [(websocket ci, nickname ci')].
Proof.
  intros Hunauth Hr Hauth.
  pose proof (handle_auth_outcome e s cid ci data) as Ho. rewrite Hr in Ho.
  inversion Ho as [| | |p t1 fm t2 Hc Hf Hs]; subst; try congruence.
  split; [done|]. split; [done|].
  rewrite !auth_replies_app.
  rewrite (auth_replies_fmap Probed), (auth_replies_fmap Process) by done.
  rewrite auth_replies_cons, auth_replies_app, auth_replies_broadcast by done.
  rewrite (auth_replies_cons (Send _ (Members _) _)).
  destruct (on_member_update_callback s); by rewrite ?auth_replies_notify.
Qed.

Lemma joins_cons s r rest :
  joins s (r :: rest)
  = let h := _handle_auth (req_env r) s (client_id (websocket (req_info r)))
               (req_info r) (req_data r) in
    ((joins h.1.1 rest).1, (h.1.2, h.2) :: (joins h.1.1 rest).2).
Proof.
  simpl. destruct (_handle_auth _ _ _ _ _) as [[s1 ci'] t].
  simpl. by destruct (joins s1 rest).
Qed.

(** A run of successful joins, seen as a whole. *)
Lemma joins_nicknames reqs : ∀ s0,
  Forall (λ r, authenticated (req_info r) = false) reqs →
  Forall (λ o, authenticated o.1 = true) (joins s0 reqs).2 →
  let assigned := (λ o, nickname o.1) <$> (joins s0 reqs).2 in
  length assigned = length reqs ∧
  NoDup assigned ∧
  nicknames (joins s0 reqs).1 = list_to_set assigned ∪ nicknames s0 ∧
  ∀ n, n ∈ assigned → n ∉ nicknames s0.
Proof.
  induction reqs as [|r rest IH]; intros s0 Hreqs Houts.
  { simpl. split; [done|]. split; [apply NoDup_nil_2|].
    split; [set_solver|]. intros n Hn. by apply elem_of_nil in Hn. }
  rewrite joins_cons in *. cbv zeta in *.
  destruct (_handle_auth (req_env r) s0 (client_id (websocket (req_info r)))
              (req_info r) (req_data r)) as [[s1 ci'] t] eqn:Hh.
  cbn [fst snd] in *. rewrite fmap_cons. cbn [fst snd length list_to_set foldr].
  apply Forall_cons in Hreqs as [Hr Hreqs]. apply Forall_cons in Houts as [Ho Houts].
  cbn [fst snd] in Ho.
  destruct (join_welcome _ _ _ _ _ _ _ _ Hr Hh Ho) as (Hnick & Hset & _).
  destruct (IH s1 Hreqs Houts) as (Hlen & Hnd & Hfinal & Hnew).
  pose proof (resolve_nickname_fresh (nicknames s0) (get (f_nickname (req_data r))))
    as Hfresh.
  rewrite <- Hnick in Hfresh.
  split; [by rewrite Hlen|]. split; [|split].
  - apply NoDup_cons. split; [|done].
    intros Hin. apply Hnew in Hin. rewrite Hset in Hin. set_solver.
  - rewrite Hfinal, Hset. set_solver.
  - intros n Hn. apply elem_of_cons in Hn as [->|Hn]; [done|].
    apply Hnew in Hn. rewrite Hset in Hn. set_solver.
Qed.

(** A run of successful joins, one join at a time. *)
Lemma joins_each reqs : ∀ s0 (i : nat) r o,
  Forall (λ r, authenticated (req_info r) = false) reqs →
  Forall (λ o, authenticated o.1 = true) (joins s0 reqs).2 →
  reqs !! i = Some r → (joins s0 reqs).2 !! i = Some o →
  let in_use := nicknames (joins s0 (take i reqs)).1 in
  nickname o.1 = resolve_nickname in_use (get (f_nickname (req_data r))) ∧
  auth_replies o.2 = [(websocket (req_info r), nickname o.1)].
Proof.
  induction reqs as [|r0 rest IH]; intros s0 i r o Hreqs Houts Hr Ho; [done|].
  rewrite joins_cons in *. cbv zeta in *. simpl in Houts, Ho.
  apply Forall_cons in Hreqs as [Hr0 Hreqs]. apply Forall_cons in Houts as [Ho0 Houts].
  destruct i as [|i].
  - injection Hr as <-. injection Ho as <-. simpl.
    destruct (_handle_auth (req_env r0) s0 (client_id (websocket (req_info r0)))
                (req_info r0) (req_data r0)) as [[s1 ci'] t] eqn:Hh.
    simpl in *. by destruct (join_welcome _ _ _ _ _ _ _ _ Hr0 Hh Ho0) as (? & _ & ?).
  - simpl in Hr, Ho. rewrite firstn_cons, joins_cons. cbv zeta. simpl.
    by apply IH.
Qed.
End nicknames.

(** C1. In every run of join requests that all succeed, each viewer is
    assigned its requested nickname when that is not in use, and otherwise
    the requested nickname followed by [_k] for the least [k >= 2] whose
    suffixed name is not in use; the one [auth_success] frame of the join
    goes to the joining connection and reports the assigned nickname; and
    the [N] joins add [N] distinct nicknames to the in-use set, none of
    which was in it before. *)
Theorem C1_nickname_resolution (s0 : WebSocketServer.t) (reqs : list Session.request) :
  Forall (λ r, WebSocketServer.authenticated (Session.req_info r) = false) reqs →
  Forall (λ o, WebSocketServer.authenticated o.1 = true) (Session.joins s0 reqs).2 →
  let s := (Session.joins s0 reqs).1 in
  let assigned := (λ o, WebSocketServer.nickname o.1) <$> (Session.joins s0 reqs).2 in
  (∀ (i : nat) r o,
     reqs !! i = Some r → (Session.joins s0 reqs).2 !! i = Some o →
     let in_use := WebSocketServer.nicknames (Session.joins s0 (take i reqs)).1 in
     let requested := WebSocketServer.get (WebSocketServer.f_nickname (Session.req_data r)) in
     (if decide (requested ∈ in_use) then
        ∃ k, 2 ≤ k ∧
          WebSocketServer.nickname o.1 = WebSocketServer.suffixed requested k ∧
          (WebSocketServer.suffixed requested k ∉ in_use) ∧
          ∀ j, 2 ≤ j < k → WebSocketServer.suffixed requested j ∈ in_use
      else WebSocketServer.nickname o.1 = requested) ∧
     Session.auth_replies o.2
     = [(WebSocketServer.websocket (Session.req_info r), WebSocketServer.nickname o.1)]) ∧
  length assigned = length reqs ∧
  NoDup assigned ∧
  WebSocketServer.nicknames s = list_to_set assigned ∪ WebSocketServer.nicknames s0 ∧
  (∀ n, n ∈ assigned → n ∉ WebSocketServer.nicknames s0) ∧
  size (WebSocketServer.nicknames s ∖ WebSocketServer.nicknames s0) = length reqs.
Proof.
  intros Hreqs Houts s assigned.
  destruct (joins_nicknames reqs s0 Hreqs Houts) as (Hlen & Hnd & Hfinal & Hnew).
  fold assigned in Hlen, Hnd, Hfinal, Hnew. fold s in Hfinal.
  split; [|repeat split; try done].
  - intros i r o Hr Ho in_use requested.
    destruct (joins_each reqs s0 i r o Hreqs Houts Hr Ho) as [Hnick Hreply].
    split; [|done]. fold in_use requested in Hnick.
    pose proof (resolve_nickname_spec in_use requested) as Hspec.
    rewrite <- Hnick in Hspec. done.
  - replace (WebSocketServer.nicknames s ∖ WebSocketServer.nicknames s0)
      with (list_to_set assigned : gset (option string)).
    + by rewrite size_list_to_set.
    + rewrite Hfinal. apply set_eq. intros n.
      rewrite elem_of_difference, elem_of_union, elem_of_list_to_set.
      specialize (Hnew n). tauto.
Qed.

(** Three viewers ask for "Saber" one after the other at the host "Archer";
    a fourth asks for the host's own name. *)
Lemma C1_nickname_resolution_witness :
  let s0 := Coordinator.server Scenario.host in
  let ask (ws : N) (pid : Z) (nick : string) :=
    Session.Request (Scenario.launching pid) (WebSocketServer.new_client_info ws)
      (Scenario.auth "114514" nick) in
  let reqs := [ask 1%N 101 "Saber"; ask 2%N 102 "Saber"; ask 3%N 103 "Saber";
               ask 4%N 104 "Archer"] in
  (λ o, WebSocketServer.nickname o.1) <$> (Session.joins s0 reqs).2
  = [Some "Saber"; Some "Saber_2"; Some "Saber_3"; Some "Archer_2"] ∧
  size (WebSocketServer.nicknames (Session.joins s0 reqs).1
        ∖ WebSocketServer.nicknames s0) = 4%nat.
Proof.
  intros s0 ask reqs.
  assert (Hreqs : Forall (λ r, WebSocketServer.authenticated (Session.req_info r) = false)
                    reqs) by (repeat constructor).
  assert (Houts : Forall (λ o, WebSocketServer.authenticated o.1 = true)
                    (Session.joins s0 reqs).2) by (vm_compute; repeat constructor).
  split; [by vm_compute|].
  by destruct (C1_nickname_resolution s0 reqs Hreqs Houts) as (_ & _ & _ & _ & _ & ->).
Defined.

(** ** Stream ports *)

Section stream_ports.
Import WebSocketServer Coordinator Session.




End stream_ports.




(** ** The client's reconnection *)

Section reconnection.
Import WebSocketClient.
Variable is_valid_ipv6 : string → bool.
Local Abbreviation next_of := (next_of is_valid_ipv6).
Local Abbreviation retry := (retry is_valid_ipv6).

(** [connect] when the host refuses. *)
Lemma connect_refused_eq why stopped rest c host p nick code :
  connect is_valid_ipv6 (Attempt stopped (Refused why) :: rest) c host p nick code
  = let c2 := with_flags (with_target c host p nick code) (websocket c) (running c)
                false (authenticated c) in
    let t2 := if on_error_callback c then [OnError ("连接失败: " +:+ why)] else [] in
    if auto_reconnect c
       && bool_decide (reconnect_attempts c < max_reconnect_attempts c)
       && running c
    then
      let '(c3, t3, done) := _try_reconnect (next_of rest) c2 in
      (c3, Open (uri is_valid_ipv6 host p) :: t2 ++ t3, false, done)
    else (c2, Open (uri is_valid_ipv6 host p) :: t2, false, true).
Proof. by destruct rest. Qed.

(** [connect] when the host accepts. *)
Lemma connect_accepted_eq during last stopped rest c host p nick code :
  connect is_valid_ipv6 (Attempt stopped (Accepted during last) :: rest) c host p nick code
  = let c1 := with_target c host p nick code in
    let c2 := with_reconnect_attempts
                (with_flags c1 true true true (authenticated c1)) 0 in
    let t2 := if on_connected_callback c2 then [OnConnected] else [] in
    let '(c3, t3, done) := _receive_messages (next_of rest) c2 during last in
    (c3, Open (uri is_valid_ipv6 host p) :: t2 ++ _authenticate c2 ++ t3, true, done).
Proof. by destruct rest. Qed.

(** [_try_reconnect] below the bound, with a wait that runs to its end. *)
Lemma try_reconnect_again again c :
  auto_reconnect c = true → running c = true →
  reconnect_attempts c < max_reconnect_attempts c →
  _try_reconnect (Some (false, again)) c
  = let c1 := with_reconnect_attempts c (reconnect_attempts c + 1) in
    let '(c2, t, done) := again c1 in
    (c2, Sleep (reconnect_interval c * 10) :: t, done).
Proof.
  intros Hauto Hrun Hlt. unfold _try_reconnect. rewrite Hauto, Hrun. simpl.
  rewrite decide_False by lia. done.
Qed.

(** [_try_reconnect] at the bound: the one place that gives the terminal
    signal, and it makes no attempt. *)
Lemma try_reconnect_gives_up next c :
  auto_reconnect c = true → running c = true →
  max_reconnect_attempts c ≤ reconnect_attempts c →
  _try_reconnect next c
  = (with_reconnect_attempts c (reconnect_attempts c + 1),
     if on_error_callback c then [OnError "无法连接到服务器"] else [], true).
Proof.
  intros Hauto Hrun Hle. unfold _try_reconnect. rewrite Hauto, Hrun. simpl.
  rewrite decide_True by lia. done.
Qed.

(** A client that is running, with automatic reconnection and the error
    callback set, against a host that refuses [k] times in a row: it
    tries as often as its attempt counter is below the bound, reports
    each refusal, and returns without any other signal. *)
Lemma connect_refused why (k : nat) : ∀ c host p nick code,
  running c = true → auto_reconnect c = true → on_error_callback c = true →
  reconnect_interval c = 3 →
  reconnect_attempts c ≤ max_reconnect_attempts c →
  (Z.to_nat (max_reconnect_attempts c - reconnect_attempts c) < k)%nat →
  ∃ c',
    connect is_valid_ipv6 (replicate k (Attempt false (Refused why))) c host p nick code
    = (c',
       Open (uri is_valid_ipv6 host p) :: OnError ("连接失败: " +:+ why)
       :: mjoin (replicate
                   (Z.to_nat (max_reconnect_attempts c - reconnect_attempts c))
                   (retry host p why)),
       false, true).
Proof.
  induction k as [|k IH]; intros c host p nick code Hrun Hauto Hcb Hint Hle Hk; [lia|].
  cbn [replicate]. rewrite connect_refused_eq. cbv zeta. rewrite Hauto, Hcb, Hrun.
  destruct (bool_decide (reconnect_attempts c < max_reconnect_attempts c)) eqn:Hlt;
    cbn [andb].
  - apply bool_decide_eq_true in Hlt.
    destruct k as [|k]; [lia|]. cbn [replicate next_of interrupted].
    rewrite try_reconnect_again by done. cbv zeta.
    set (c1 := with_reconnect_attempts _ _).
    edestruct (IH c1 host p nick code) as [c' Hc']; try done.
    { subst c1. simpl. lia. }
    { subst c1. simpl. lia. }
    cbn [replicate] in Hc'.
    replace (default "" (server_host c1)) with host by done.
    replace (default 0 (server_port c1)) with p by done.
    replace (nickname c1) with nick by done.
    replace (verification_code c1) with code by done.
    rewrite Hc'. eexists. cbn [app]. do 3 f_equal.
    replace (reconnect_interval _) with (reconnect_interval c) by done.
    rewrite Hint.
    replace (Z.to_nat (max_reconnect_attempts c - reconnect_attempts c))
      with (S (Z.to_nat (max_reconnect_attempts c1 - reconnect_attempts c1)))
      by (subst c1; simpl; lia).
    done.
  - apply bool_decide_eq_false in Hlt.
    replace (Z.to_nat (max_reconnect_attempts c - reconnect_attempts c)) with 0%nat by lia.
    by eexists.
Qed.

(** The connection is accepted and then breaks, and the host refuses [k]
    more times: whatever the bound [max_reconnect_attempts >= 1], the
    client makes exactly that many further attempts, each reported like
    any refused connection, and then returns. *)
Lemma cut_then_refused why (k : nat) c host p nick code :
  auto_reconnect c = true → reconnect_interval c = 3 →
  on_error_callback c = true →
  1 ≤ max_reconnect_attempts c →
  (Z.to_nat (max_reconnect_attempts c) ≤ k)%nat →
  ∃ c',
    connect is_valid_ipv6
      (Attempt false (Accepted [] ConnectionClosed)
       :: replicate k (Attempt false (Refused why))) c host p nick code
    = (c',
       Open (uri is_valid_ipv6 host p)
       :: (if on_connected_callback c then [OnConnected] else [])
       ++ [SendAuth code nick]
       ++ (if on_disconnected_callback c then [OnDisconnected] else [])
       ++ mjoin (replicate (Z.to_nat (max_reconnect_attempts c)) (retry host p why)),
       true, true).
Proof.
  intros Hauto Hint Hcb Hmax Hk.
  destruct k as [|k]; [lia|].
  rewrite connect_accepted_eq. cbv zeta.
  cbn [_receive_messages receive_loop replicate next_of interrupted].
  simpl running. simpl auto_reconnect.
  rewrite Hauto. simpl on_disconnected_callback. simpl on_connected_callback.
  set (c2 := with_flags (with_reconnect_attempts _ _) _ _ _ _).
  rewrite try_reconnect_again; [|done|done|simpl; lia].
  cbv zeta.
  set (c3 := with_reconnect_attempts c2 _).
  assert (Hmax3 : max_reconnect_attempts c3 = max_reconnect_attempts c) by done.
  assert (Hatt3 : reconnect_attempts c3 = 1) by done.
  destruct (connect_refused why (S k) c3 host p nick code) as [c' Hc'];
    try done; try (rewrite Hmax3, Hatt3; lia).
  rewrite Hmax3, Hatt3 in Hc'.
  cbn [replicate] in Hc'.
  replace (default "" (server_host c3)) with host by done.
  replace (default 0 (server_port c3)) with p by done.
  replace (nickname c3) with nick by done.
  replace (verification_code c3) with code by done.
  rewrite Hc'. eexists. unfold _authenticate. simpl.
  replace (Z.to_nat (max_reconnect_attempts c))
    with (S (Z.to_nat (max_reconnect_attempts c - 1))) by lia.
  cbn [replicate mjoin list_join retry app]. rewrite Hint.
  destruct (on_connected_callback c), (on_disconnected_callback c); done.
Qed.
End reconnection.

(** C4, at the input where the code departs from it: a viewer is welcomed,
    the connection breaks, and the host refuses every new connection.  The
    client makes exactly [max_reconnect_attempts = 5] further attempts and
    then returns, but the only errors it hands to its collaborator are the
    five "connection failed" ones that follow every refused attempt: the
    terminal error of [_try_reconnect] is never signalled, although the
    world had two more refusals in store. *)
Theorem C4_reconnect_gives_up_silently :
  let '(c, t, _, returned) :=
    WebSocketClient.connect (λ _, false) Scenario.host_gone Scenario.viewer
      "192.0.2.1" 10086 (Some "Saber") (Some "114514") in
  returned = true ∧
  WebSocketClient.max_reconnect_attempts c = 5 ∧
  WebSocketClient.reconnect_attempts c = 5 ∧
  WebSocketClient.attempts t = 6%nat ∧
  t = [WebSocketClient.Open "ws://192.0.2.1:10086"; WebSocketClient.OnConnected;
       WebSocketClient.SendAuth (Some "114514") (Some "Saber");
       WebSocketClient.OnAuthenticated (Some "192.0.2.1") (Some 10000);
       WebSocketClient.OnDisconnected]
      ++ mjoin (replicate 5 (WebSocketClient.retry (λ _, false) "192.0.2.1" 10086 "refused")) ∧
  WebSocketClient.OnError "无法连接到服务器" ∉ t.
Proof.
  vm_compute. repeat split; try reflexivity.
  intros Hin. repeat (apply elem_of_cons in Hin as [Hin|Hin]; [discriminate Hin|]).
  by apply elem_of_nil in Hin.
Qed.

(** * Further properties of the process supervisor *)

Section supervisor_more.
Import ProcessManager.

Lemma del_set_fresh {V} (d : list (string * V)) k v :
  Dict.get d k = None → Dict.del (Dict.set d k v) k = d.
Proof.
  intros Hg. rewrite set_fresh by done. rewrite del_filter, filter_app.
  rewrite <- del_filter, del_absent by done.
  rewrite filter_cons_False; [by rewrite app_nil_r|]. simpl. by intros H.
Qed.

Lemma start_process_tracked spawned m name command cwd env out err restart m' t :
  start_process spawned m name command cwd env out err restart = (m', true, t) →
  ∃ process, spawned = Some process ∧ Dict.get (_processes m) name = None ∧
             Dict.get (_processes m') name = Some process.
Proof.
  unfold start_process. destruct (Dict.mem (_processes m) name) eqn:Hm; [done|].
  apply mem_get_false in Hm. destruct spawned as [process|]; [|done].
  intros H. exists process. split; [done|]. split; [done|].
  destruct (is_some out || is_some err); [|destruct restart];
    injection H as <- _; simpl; apply get_set_eq.
Qed.

Lemma forget_shutdown m name : _shutdown_event (forget m name) = _shutdown_event m.
Proof. done. Qed.

(** A monitor that finds shutdown signalled only forgets its process. *)
Lemma run_thread_shutdown e m th :
  _shutdown_event m = true →
  ¬ ∃ c w v o1 o2 r, Launch c w v o1 o2 r ∈ (run_thread e m th).2.
Proof.
  intros Hs (c & w & v & o1 & o2 & r & Hin).
  destruct th as [name p out err restart command cwd env|name p command cwd env]; simpl in Hin.
  - unfold _monitor_process_output in Hin. simpl in Hin. rewrite Hs, andb_false_r in Hin.
    apply list_elem_of_singleton in Hin. done.
  - unfold _monitor_process_exit in Hin. simpl in Hin. rewrite Hs in Hin.
    destruct (decide (exit_code e ≠ 0)); apply list_elem_of_singleton in Hin; done.
Qed.

Lemma stop_process_shutdown e m name timeout :
  _shutdown_event (stop_process e m name timeout).1.1 = _shutdown_event m.
Proof.
  unfold stop_process. destruct (Dict.get (_processes m) name); [|done].
  destruct (signal_ok e); [|done]. simpl.
  destruct (first_wait e); [done|]. destruct (kill_ok e); [|done]. simpl.
  by destruct (second_wait e).
Qed.

Lemma stop_process_tree_shutdown e m name timeout :
  _shutdown_event (stop_process_tree e m name timeout).1.1 = _shutdown_event m.
Proof.
  unfold stop_process_tree. destruct (Dict.get (_processes m) name); [|done].
  destruct (found e); [|done]. simpl. destruct (children e) as [kids|]; [|done].
  destruct (signal_each (child_terminate e) SIGTERM kids) as [[] t1]; [|done]. simpl.
  destruct (parent_terminate e); try done.
  by destruct (signal_each (kill e) SIGKILL (still_alive e)) as [[] t3].
Qed.

Lemma stop_each_shutdown e names : ∀ m timeout,
  _shutdown_event (stop_each e m names timeout).1 = _shutdown_event m.
Proof.
  induction names as [|name rest IH]; intros m timeout; [done|]. simpl.
  destruct (is_tree e name).
  - pose proof (stop_process_tree_shutdown (tree_of e name) m name timeout) as H.
    destruct (stop_process_tree _ m name timeout) as [[m1 ok] t1]. simpl in H.
    specialize (IH m1 timeout). destruct (stop_each e m1 rest timeout) as [m2 t2].
    simpl in *. congruence.
  - pose proof (stop_process_shutdown (stopping_of e name) m name timeout) as H.
    destruct (stop_process _ m name timeout) as [[m1 ok] t1]. simpl in H.
    specialize (IH m1 timeout). destruct (stop_each e m1 rest timeout) as [m2 t2].
    simpl in *. congruence.
Qed.

Lemma stop_all_shutdown e m timeout :
  _shutdown_event (stop_all e m timeout).1 = true ∧ _threads (stop_all e m timeout).1 = [].
Proof.
  unfold stop_all.
  pose proof (stop_each_shutdown e
                (get_all_processes (Manager (_processes m) (_threads m) true))
                (Manager (_processes m) (_threads m) true) timeout) as H.
  destruct (stop_each e _ _ timeout) as [m2 t]. simpl in *. done.
Qed.
End supervisor_more.

(** X1. When the termination signal raises, or the process survives both
    the wait and the kill, [stop_process] answers [False] and keeps the
    whole manager, the record of the name included, as it was. *)
Theorem X1_stop_process_failure_keeps_record (e : ProcessManager.stop_env)
    (m : ProcessManager.t) (name : string) (timeout : Z) (process : ProcessManager.popen) :
  Dict.get (ProcessManager._processes m) name = Some process →
  ¬ Supervision.goes_through e →
  (ProcessManager.stop_process e m name timeout).1 = (m, false) ∧
  Dict.get
    (ProcessManager._processes (ProcessManager.stop_process e m name timeout).1.1) name
  = Some process.
Proof.
  intros Hg Hfail. unfold Supervision.goes_through in Hfail.
  assert ((ProcessManager.stop_process e m name timeout).1 = (m, false)) as Heq.
  { apply (stop_process_raises e m name timeout process Hg).
    destruct (ProcessManager.signal_ok e); [|by left]. right.
    destruct (ProcessManager.first_wait e); [exfalso; apply Hfail; by split; [|left]|].
    split; [done|].
    destruct (ProcessManager.kill_ok e); [|by left]. right.
    destruct (ProcessManager.second_wait e); [|done].
    exfalso. apply Hfail. split; [done|]. by right. }
  split; [done|].
  by replace (ProcessManager.stop_process e m name timeout).1.1 with m
    by (by rewrite Heq).
Qed.

(** The relay outlives the termination signal and the kill. *)
Lemma X1_stop_process_failure_keeps_record_witness :
  Dict.get (ProcessManager._processes Supervision.busy) "relay"
  = Some (ProcessManager.Popen 12) ∧
  ¬ Supervision.goes_through Supervision.stubborn ∧
  (ProcessManager.stop_process Supervision.stubborn Supervision.busy "relay" 5).1
  = (Supervision.busy, false).
Proof.
  assert (H : ¬ Supervision.goes_through Supervision.stubborn).
  { intros [_ [H|[_ H]]]; discriminate H. }
  split; [reflexivity|]. split; [done|].
  apply (X1_stop_process_failure_keeps_record Supervision.stubborn Supervision.busy
           "relay" 5 (ProcessManager.Popen 12) eq_refl H).
Defined.

(** X2. Starting a process under a name that is tracked neither as a
    process nor as a thread, and stopping it again while the stop goes
    through, gives back the manager one started from, whatever callbacks
    and restart flag the process was started with. *)
Theorem X2_start_then_stop_restores (e : ProcessManager.stop_env)
    (m : ProcessManager.t) (name : string) (command : list string)
    (cwd : option string) (env : option ProcessManager.environ)
    (out err : option ProcessManager.callback) (restart : bool)
    (process : ProcessManager.popen) (timeout : Z) :
  Dict.get (ProcessManager._processes m) name = None →
  Dict.get (ProcessManager._threads m) name = None →
  Supervision.goes_through e →
  let started :=
    ProcessManager.start_process (Some process) m name command cwd env out err restart in
  started.1.2 = true ∧
  (ProcessManager.stop_process e started.1.1 name timeout).1 = (m, true).
Proof.
  intros Hp Ht [Hsig Hpath] started. subst started.
  unfold ProcessManager.start_process.
  rewrite (proj2 (mem_get_false _ _) Hp).
  assert (Hstop : ∀ threads,
    (if Dict.mem threads name then Dict.del threads name else threads)
    = ProcessManager._threads m →
    (ProcessManager.stop_process e
       (ProcessManager.Manager (Dict.set (ProcessManager._processes m) name process)
          threads (ProcessManager._shutdown_event m)) name timeout).1 = (m, true)).
  { intros threads Hth. unfold ProcessManager.stop_process. simpl.
    rewrite get_set_eq, Hsig, Hth, del_set_fresh by done. simpl.
    destruct (ProcessManager.first_wait e); [by destruct m|].
    destruct Hpath as [?|[-> ->]]; [done|]. by destruct m. }
  destruct (ProcessManager.is_some out || ProcessManager.is_some err); simpl.
  - split; [done|]. apply Hstop.
    rewrite (proj2 (mem_get _ _)) by (rewrite get_set_eq; by eexists).
    by apply del_set_fresh.
  - destruct restart; simpl; (split; [done|]); apply Hstop.
    + rewrite (proj2 (mem_get _ _)) by (rewrite get_set_eq; by eexists).
      by apply del_set_fresh.
    + by rewrite (proj2 (mem_get_false _ _) Ht).
Qed.

(** A second relay is started and stopped beside the player. *)
Lemma X2_start_then_stop_restores_witness :
  let started :=
    ProcessManager.start_process (Some (ProcessManager.Popen 13)) Supervision.busy
      "relay_2" ["ffmpeg.exe"] None None (Some 1%nat) None true in
  Supervision.goes_through Supervision.obedient ∧
  (ProcessManager.stop_process Supervision.obedient started.1.1 "relay_2" 5).1
  = (Supervision.busy, true).
Proof.
  assert (H : Supervision.goes_through Supervision.obedient) by (split; [done|by left]).
  split; [done|].
  apply (X2_start_then_stop_restores Supervision.obedient Supervision.busy "relay_2"
           ["ffmpeg.exe"] None None (Some 1%nat) None true (ProcessManager.Popen 13) 5
           eq_refl eq_refl H).
Defined.

(** X3. A name has at most one process: once [start_process] has
    succeeded for a name, every further [start_process] for that name,
    with whatever arguments, answers [False], launches nothing and leaves
    the manager alone. *)
Theorem X3_second_start_is_refused (spawned spawned' : option ProcessManager.popen)
    (m : ProcessManager.t) (name : string) (command command' : list string)
    (cwd cwd' : option string) (env env' : option ProcessManager.environ)
    (out err out' err' : option ProcessManager.callback) (restart restart' : bool) :
  let started :=
    ProcessManager.start_process spawned m name command cwd env out err restart in
  started.1.2 = true →
  ProcessManager.start_process spawned' started.1.1 name command' cwd' env' out' err'
    restart'
  = (started.1.1, false, []).
Proof.
  intros started Hok. subst started.
  destruct (ProcessManager.start_process spawned m name command cwd env out err restart)
    as [[m1 ok] t] eqn:Hs.
  simpl in *. subst ok.
  apply start_process_tracked in Hs as (process & _ & _ & Hg).
  unfold ProcessManager.start_process.
  by rewrite (proj2 (mem_get _ _)) by (by eexists).
Qed.

(** The relay of the scenario cannot be started twice. *)
Lemma X3_second_start_is_refused_witness :
  let started :=
    ProcessManager.start_process (Some (ProcessManager.Popen 13)) Supervision.busy
      "relay_2" ["ffmpeg.exe"] None None None None false in
  ProcessManager.start_process (Some (ProcessManager.Popen 14)) started.1.1
    "relay_2" ["other.exe"] None None (Some 3%nat) None true
  = (started.1.1, false, []).
Proof.
  apply (X3_second_start_is_refused (Some (ProcessManager.Popen 13))
           (Some (ProcessManager.Popen 14)) Supervision.busy "relay_2").
  reflexivity.
Defined.

(** X4. A process started with [restart_on_exit = False] is never started
    again by the supervisor: whatever monitor thread the call starts, that
    thread, run in any manager after any exit code, launches nothing. *)
Theorem X4_no_restart_without_flag (spawned : option ProcessManager.popen)
    (m : ProcessManager.t) (name : string) (command : list string)
    (cwd : option string) (env : option ProcessManager.environ)
    (out err : option ProcessManager.callback) :
  ∀ th,
    ProcessManager.ThreadStart th
    ∈ (ProcessManager.start_process spawned m name command cwd env out err false).2 →
    ∀ e m', Supervision.launches (ProcessManager.run_thread e m' th).2 = [].
Proof.
  intros th Hin e m'. unfold ProcessManager.start_process in Hin.
  destruct (Dict.mem (ProcessManager._processes m) name);
    [by apply elem_of_nil in Hin|].
  destruct spawned as [process|].
  2: { apply list_elem_of_singleton in Hin. done. }
  destruct (ProcessManager.is_some out || ProcessManager.is_some err); simpl in Hin.
  - apply elem_of_cons in Hin as [Hin|Hin]; [done|].
    apply list_elem_of_singleton in Hin. by injection Hin as ->.
  - apply list_elem_of_singleton in Hin. done.
Qed.

(** X5. A process started with an output callback and
    [restart_on_exit = True] is started again after any exit code: when no
    shutdown is signalled before or after the three seconds of back-off and
    the name is still free then, its monitor launches the same command in
    the same directory and environment, tracks the new process under the
    name and hands it to a monitor with the same arguments. *)
Theorem X5_output_monitor_restarts (e : ProcessManager.monitor_env)
    (m : ProcessManager.t) (name : string) (process process' : ProcessManager.popen)
    (out err : option ProcessManager.callback) (command : list string)
    (cwd : option string) (env : option ProcessManager.environ) :
  ProcessManager.is_some out || ProcessManager.is_some err = true →
  ProcessManager._shutdown_event m = false →
  let woken := ProcessManager.during_sleep e (ProcessManager.forget m name) in
  ProcessManager._shutdown_event woken = false →
  Dict.get (ProcessManager._processes woken) name = None →
  ProcessManager.respawned e = Some process' →
  let th' := ProcessManager.MonitorOutput name process' out err true command cwd env in
  let '(m', t) :=
    ProcessManager.run_thread e m
      (ProcessManager.MonitorOutput name process out err true command cwd env) in
  t = [ProcessManager.Wait process None; ProcessManager.Sleep 3;
       ProcessManager.Launch command cwd env (ProcessManager.is_some out)
         (ProcessManager.is_some err) (Some process');
       ProcessManager.ThreadStart th'] ∧
  Dict.get (ProcessManager._processes m') name = Some process' ∧
  Dict.get (ProcessManager._threads m') name = Some th'.
Proof.
  intros Hcb Hs woken Hs' Hfree Hspawn th'. simpl.
  rewrite monitor_output_restarts by done. fold woken.
  unfold ProcessManager.start_process.
  rewrite (proj2 (mem_get_false _ _) Hfree), Hspawn, Hcb. simpl.
  by rewrite !get_set_eq.
Qed.

(** The player ends with exit code 0 and comes back. *)
Lemma X5_output_monitor_restarts_witness :
  let e := ProcessManager.MonitorEnv 0 (λ m, m) (Some (ProcessManager.Popen 15)) in
  Dict.get
    (ProcessManager._processes
       (ProcessManager.run_thread e Supervision.busy
          (ProcessManager.MonitorOutput "player" (ProcessManager.Popen 11)
             (Some 1%nat) (Some 2%nat) true ["mpv.exe"] None None)).1) "player"
  = Some (ProcessManager.Popen 15).
Proof.
  intros e.
  pose proof (X5_output_monitor_restarts e Supervision.busy "player"
                (ProcessManager.Popen 11) (ProcessManager.Popen 15)
                (Some 1%nat) (Some 2%nat) ["mpv.exe"] None None
                eq_refl eq_refl eq_refl eq_refl eq_refl) as H.
  cbv zeta in H.
  destruct (ProcessManager.run_thread e Supervision.busy _) as [m' t].
  by destruct H as (_ & H & _).
Defined.

(** X6. After [stop_all], whatever became of the single stops, shutdown
    is signalled and the thread table is empty, and a monitor thread that
    sees its process end then launches nothing: no restart follows a
    [stop_all]. *)
Theorem X6_no_restart_after_stop_all (a : ProcessManager.stop_all_env)
    (m : ProcessManager.t) (timeout : Z) :
  let m' := (ProcessManager.stop_all a m timeout).1 in
  ProcessManager._shutdown_event m' = true ∧
  ProcessManager._threads m' = [] ∧
  ∀ e th, Supervision.launches (ProcessManager.run_thread e m' th).2 = [].
Proof.
  intros m'. destruct (stop_all_shutdown a m timeout) as [Hs Ht].
  fold m' in Hs, Ht. clearbody m'.
  split; [done|]. split; [done|]. intros e th.
  destruct th as [name p out err restart command cwd env|name p command cwd env]; simpl.
  - unfold ProcessManager._monitor_process_output. simpl.
    by rewrite Hs, andb_false_r.
  - unfold ProcessManager._monitor_process_exit. simpl. rewrite Hs.
    by destruct (decide (ProcessManager.exit_code e ≠ 0)).
Qed.

(** The player is started without the restart flag: its monitor never
    launches anything. *)
Lemma X4_no_restart_without_flag_witness :
  let th := ProcessManager.MonitorOutput "player" (ProcessManager.Popen 16)
              (Some 1%nat) None false ["mpv.exe"] None None in
  ProcessManager.ThreadStart th
  ∈ (ProcessManager.start_process (Some (ProcessManager.Popen 16))
       (ProcessManager.Manager [] [] false) "player" ["mpv.exe"] None None
       (Some 1%nat) None false).2 ∧
  Supervision.launches
    (ProcessManager.run_thread
       (ProcessManager.MonitorEnv 1 (λ m, m) (Some (ProcessManager.Popen 17)))
       (ProcessManager.Manager [("player", ProcessManager.Popen 16)] [] false) th).2
  = [].
Proof.
  intros th.
  assert (H : ProcessManager.ThreadStart th
              ∈ (ProcessManager.start_process (Some (ProcessManager.Popen 16))
                   (ProcessManager.Manager [] [] false) "player" ["mpv.exe"] None None
                   (Some 1%nat) None false).2).
  { simpl. apply list_elem_of_further, list_elem_of_here. }
  split; [done|].
  apply (X4_no_restart_without_flag _ _ _ _ _ _ _ _ th H).
Defined.

Section stopping_everything.
Import ProcessManager Supervision.

Lemma signal_each_through outcome s ps :
  (∀ q, q ∈ ps → outcome q ≠ OtherFailure) →
  signal_each outcome s ps = (true, (λ q, Signal q s) <$> ps).
Proof.
  induction ps as [|q ps IH]; intros Hok; [done|]. simpl.
  rewrite IH by (intros; apply Hok; by right).
  pose proof (Hok q (list_elem_of_here _ _)). by destruct (outcome q).
Qed.

Lemma stop_process_through e m name timeout :
  goes_through e →
  _processes (stop_process e m name timeout).1.1 = Dict.del (_processes m) name.
Proof.
  intros [Hsig Hpath]. unfold stop_process.
  destruct (Dict.get (_processes m) name) eqn:Hg; [|by rewrite del_absent].
  rewrite Hsig. simpl. destruct (first_wait e); [done|].
  by destruct Hpath as [?|[-> ->]].
Qed.

Lemma stop_process_tree_through e m name timeout :
  tree_goes_through e →
  _processes (stop_process_tree e m name timeout).1.1 = Dict.del (_processes m) name.
Proof.
  intros (Hfound & (kids & Hkids & Hterm) & Hparent & Hkill). unfold stop_process_tree.
  destruct (Dict.get (_processes m) name) eqn:Hg; [|by rewrite del_absent].
  rewrite Hfound, Hkids, Hparent. simpl.
  by rewrite !signal_each_through by done.
Qed.

(** A single stop leaves the process table as it is or takes the name out. *)
Lemma stop_one_sublist (a : stop_all_env) m name timeout :
  _processes
    (if is_tree a name then stop_process_tree (tree_of a name) m name timeout
     else stop_process (stopping_of a name) m name timeout).1.1
  `sublist_of` _processes m.
Proof.
  destruct (is_tree a name).
  - unfold stop_process_tree. destruct (Dict.get (_processes m) name); [|done].
    destruct (found _); [|done]. simpl. destruct (children _) as [kids|]; [|done].
    destruct (signal_each _ SIGTERM kids) as [[] t1]; [|done]. simpl.
    destruct (parent_terminate _); try done.
    destruct (signal_each _ SIGKILL _) as [[] t3]; [|done]. simpl. apply del_sublist.
  - unfold stop_process. destruct (Dict.get (_processes m) name); [|done].
    destruct (signal_ok _); [|done]. simpl.
    destruct (first_wait _); [apply del_sublist|].
    destruct (kill_ok _); [|done]. simpl.
    destruct (second_wait _); [apply del_sublist|done].
Qed.

Lemma stop_each_sublist (a : stop_all_env) names : ∀ m timeout,
  _processes (stop_each a m names timeout).1 `sublist_of` _processes m.
Proof.
  induction names as [|name rest IH]; intros m timeout; [done|]. simpl.
  pose proof (stop_one_sublist a m name timeout) as H1.
  destruct (if is_tree a name then _ else _) as [[m1 ok] t1]. simpl in H1.
  specialize (IH m1 timeout). destruct (stop_each a m1 rest timeout) as [m2 t2].
  simpl in *. by etrans.
Qed.

Lemma stop_each_through (a : stop_all_env) names : ∀ m timeout,
  (∀ name, name ∈ names →
     if is_tree a name then tree_goes_through (tree_of a name)
     else goes_through (stopping_of a name)) →
  (∀ name, name ∈ Dict.keys (_processes m) → name ∈ names) →
  _processes (stop_each a m names timeout).1 = [].
Proof.
  induction names as [|name rest IH]; intros m timeout Hgood Hkeys.
  { simpl. destruct (_processes m) as [|[k v] d]; [done|].
    specialize (Hkeys k (list_elem_of_here _ _)). by apply elem_of_nil in Hkeys. }
  simpl.
  assert (Hdel : _processes
            (if is_tree a name then stop_process_tree (tree_of a name) m name timeout
             else stop_process (stopping_of a name) m name timeout).1.1
          = Dict.del (_processes m) name).
  { pose proof (Hgood name (list_elem_of_here _ _)) as Hn.
    destruct (is_tree a name);
      [by apply stop_process_tree_through|by apply stop_process_through]. }
  destruct (if is_tree a name then _ else _) as [[m1 ok] t1]. simpl in Hdel.
  specialize (IH m1 timeout). destruct (stop_each a m1 rest timeout) as [m2 t2].
  simpl. apply IH.
  - intros n Hn. apply Hgood. by right.
  - intros n Hn. rewrite Hdel in Hn. unfold Dict.keys in Hn.
    apply list_elem_of_fmap in Hn as ([k v] & -> & Hin).
    apply elem_of_del in Hin as [Hin Hne]. simpl in *.
    assert (k ∈ name :: rest) as Hk.
    { apply Hkeys. unfold Dict.keys. apply list_elem_of_fmap. by exists (k, v). }
    apply elem_of_cons in Hk as [?|?]; done.
Qed.
End stopping_everything.

(** X7. [stop_all] never adds a process, and when every single stop goes
    through it leaves an empty manager with shutdown signalled; the
    processes it leaves otherwise are among those it started from. *)
Theorem X7_stop_all_empties (a : ProcessManager.stop_all_env) (m : ProcessManager.t)
    (timeout : Z) :
  ProcessManager._processes (ProcessManager.stop_all a m timeout).1
  `sublist_of` ProcessManager._processes m ∧
  ((∀ name, name ∈ ProcessManager.get_all_processes m →
      if ProcessManager.is_tree a name
      then Supervision.tree_goes_through (ProcessManager.tree_of a name)
      else Supervision.goes_through (ProcessManager.stopping_of a name)) →
   (ProcessManager.stop_all a m timeout).1 = ProcessManager.Manager [] [] true).
Proof.
  unfold ProcessManager.stop_all.
  set (m1 := ProcessManager.Manager _ _ true).
  pose proof (stop_each_sublist a (ProcessManager.get_all_processes m1) m1 timeout) as Hsub.
  pose proof (stop_each_shutdown a (ProcessManager.get_all_processes m1) m1 timeout) as Hs.
  pose proof (stop_each_through a (ProcessManager.get_all_processes m1) m1 timeout) as Hall.
  destruct (ProcessManager.stop_each a m1 _ timeout) as [m2 t]. simpl in *.
  split; [done|]. intros Hgood. by rewrite Hall, Hs.
Qed.

(** The player and the relay both end when told to. *)
Lemma X7_stop_all_empties_witness :
  let a := ProcessManager.StopAllEnv (λ _, false) (λ _, Supervision.obedient)
             (λ _, Supervision.small_tree) in
  (ProcessManager.stop_all a Supervision.busy 5).1 = ProcessManager.Manager [] [] true.
Proof.
  intros a. apply (X7_stop_all_empties a Supervision.busy 5).
  intros name _. simpl. split; [done|by left].
Defined.

(** X8. For a tracked name, when [psutil] finds the process and no call
    raises anything but [NoSuchProcess], [stop_process_tree] terminates
    every descendant and then the process itself before it waits, kills
    what [wait_procs] reports alive, and then removes the record and
    answers [True], without looking whether the killed processes ended;
    when [psutil] does not find the process it answers [False] and
    changes nothing. *)
Theorem X8_stop_process_tree (e : ProcessManager.tree_env) (m : ProcessManager.t)
    (name : string) (timeout : Z) (process : ProcessManager.popen)
    (kids : list ProcessManager.popen) :
  Dict.get (ProcessManager._processes m) name = Some process →
  (ProcessManager.found e = false →
   ProcessManager.stop_process_tree e m name timeout = (m, false, [])) ∧
  (ProcessManager.children e = Some kids →
   Supervision.tree_goes_through e →
   let '(m', ok, t) := ProcessManager.stop_process_tree e m name timeout in
   ok = true ∧
   t = ((λ q, ProcessManager.Signal q ProcessManager.SIGTERM) <$> kids)
       ++ [ProcessManager.Signal process ProcessManager.SIGTERM]
       ++ ((λ q, ProcessManager.Wait q (Some timeout)) <$> process :: kids)
       ++ ((λ q, ProcessManager.Signal q ProcessManager.SIGKILL)
             <$> ProcessManager.still_alive e) ∧
   Dict.get (ProcessManager._processes m') name = None ∧
   Dict.get (ProcessManager._threads m') name = None ∧
   ∀ other, other ≠ name →
     Dict.get (ProcessManager._processes m') other
     = Dict.get (ProcessManager._processes m) other).
Proof.
  intros Hg. split.
  - intros Hnf. unfold ProcessManager.stop_process_tree. by rewrite Hg, Hnf.
  - intros Hkids (Hfound & (kids' & Hkids' & Hterm) & Hparent & Hkill).
    rewrite Hkids in Hkids'. injection Hkids' as <-.
    unfold ProcessManager.stop_process_tree.
    rewrite Hg, Hfound, Hkids, Hparent. simpl.
    rewrite !signal_each_through by done. simpl.
    split; [done|]. split; [done|]. split; [apply get_del_eq|]. split.
    + destruct (Dict.mem (ProcessManager._threads m) name) eqn:Hm;
        [apply get_del_eq|by apply mem_get_false].
    + intros other Hne. by apply get_del_ne.
Qed.

(** The player heads a tree of two helpers, one of which is gone already
    and one of which has to be killed. *)
Lemma X8_stop_process_tree_witness :
  Supervision.tree_goes_through Supervision.small_tree ∧
  (ProcessManager.stop_process_tree Supervision.small_tree Supervision.busy "player" 5).1
  = (ProcessManager.Manager [("relay", ProcessManager.Popen 12)] [] false, true).
Proof.
  assert (H : Supervision.tree_goes_through Supervision.small_tree).
  { split; [done|]. split; [|split; [done|]].
    - eexists. split; [reflexivity|]. intros q _. simpl. by destruct (decide _).
    - done. }
  split; [done|].
  pose proof (proj2 (X8_stop_process_tree Supervision.small_tree Supervision.busy
                       "player" 5 (ProcessManager.Popen 11)
                       [ProcessManager.Popen 21; ProcessManager.Popen 22] eq_refl)
                eq_refl H) as Hx.
  destruct (ProcessManager.stop_process_tree _ _ _ _) as [[m' ok] t] eqn:Hs.
  destruct Hx as (-> & _). vm_compute in Hs. by injection Hs as <- _.
Defined.

(** X9. [cleanup] clears the shutdown signal that its [stop_all] sets.  A
    monitor that is in its back-off while the manager is cleaned up
    therefore starts its process again afterwards, into the manager that
    was just emptied; had only [stop_all] run in the meantime, it would
    have launched nothing. *)
Theorem X9_restart_survives_cleanup (a : ProcessManager.stop_all_env)
    (e : ProcessManager.monitor_env) (m : ProcessManager.t) (name : string)
    (process process' : ProcessManager.popen)
    (out err : option ProcessManager.callback) (command : list string)
    (cwd : option string) (env : option ProcessManager.environ) :
  ProcessManager.is_some out || ProcessManager.is_some err = true →
  ProcessManager._shutdown_event m = false →
  ProcessManager.respawned e = Some process' →
  let th := ProcessManager.MonitorOutput name process out err true command cwd env in
  let th' := ProcessManager.MonitorOutput name process' out err true command cwd env in
  ((∀ m1, ProcessManager.during_sleep e m1 = (ProcessManager.cleanup a m1).1) →
   ProcessManager.run_thread e m th
   = (ProcessManager.Manager [(name, process')] [(name, th')] false,
      [ProcessManager.Wait process None; ProcessManager.Sleep 3;
       ProcessManager.Launch command cwd env (ProcessManager.is_some out)
         (ProcessManager.is_some err) (Some process');
       ProcessManager.ThreadStart th'])) ∧
  ((∀ m1, ProcessManager.during_sleep e m1 = (ProcessManager.stop_all a m1 5).1) →
   Supervision.launches (ProcessManager.run_thread e m th).2 = []).
Proof.
  intros Hcb Hs Hspawn th th'. split; intros Hsleep; simpl;
    unfold ProcessManager._monitor_process_output; simpl; rewrite Hs; simpl;
    rewrite Hsleep.
  - unfold ProcessManager.cleanup.
    destruct (ProcessManager.stop_all a _ 5) as [m2 t2]. simpl.
    unfold ProcessManager.start_process. simpl. by rewrite Hspawn, Hcb.
  - by rewrite (proj1 (stop_all_shutdown a _ 5)).
Qed.

(** The player's monitor sleeps through a cleanup. *)
Lemma X9_restart_survives_cleanup_witness :
  let a := ProcessManager.StopAllEnv (λ _, false) (λ _, Supervision.obedient)
             (λ _, Supervision.small_tree) in
  let e := ProcessManager.MonitorEnv 1 (λ m1, (ProcessManager.cleanup a m1).1)
             (Some (ProcessManager.Popen 18)) in
  ProcessManager._processes
    (ProcessManager.run_thread e Supervision.busy
       (ProcessManager.MonitorOutput "player" (ProcessManager.Popen 11)
          (Some 1%nat) (Some 2%nat) true ["mpv.exe"] None None)).1
  = [("player", ProcessManager.Popen 18)].
Proof.
  intros a e.
  rewrite (proj1 (X9_restart_survives_cleanup a e Supervision.busy "player"
                    (ProcessManager.Popen 11) (ProcessManager.Popen 18)
                    (Some 1%nat) (Some 2%nat) ["mpv.exe"] None None
                    eq_refl eq_refl eq_refl) (λ _, eq_refl)).
  reflexivity.
Defined.

(** * Further properties of the relay manager *)

Section relays.
Import FFmpegManager.

(** What a successful [start_rtmp_to_srt] has done. *)
Lemma start_rtmp_to_srt_started v6 spawned fm rtmp port ip name fm1 t :
  start_rtmp_to_srt v6 spawned fm rtmp port ip (Some name) = (fm1, true, t) →
  ∃ process command ip',
    spawned = Some process ∧
    Dict.get (processes fm) name = None ∧
    Dict.get (ProcessManager._processes (process_manager fm)) name = None ∧
    let th := ProcessManager.MonitorOutput name process (Some on_stdout) (Some on_stderr)
                false command None None in
    t = [ProcessManager.Launch command None None true true (Some process);
         ProcessManager.ThreadStart th] ∧
    fm1 = Manager
            (ProcessManager.Manager
               (Dict.set (ProcessManager._processes (process_manager fm)) name process)
               (Dict.set (ProcessManager._threads (process_manager fm)) name th)
               (ProcessManager._shutdown_event (process_manager fm)))
            (ffmpeg_path fm)
            (Dict.set (processes fm) name (Info "rtmp_to_srt" rtmp port ip')).
Proof.
  unfold start_rtmp_to_srt.
  destruct (Dict.mem (processes fm) name) eqn:Hm; [done|]. apply mem_get_false in Hm.
  unfold ProcessManager.start_process.
  destruct (Dict.mem (ProcessManager._processes (process_manager fm)) name) eqn:Hpm;
    [done|]. apply mem_get_false in Hpm.
  destruct spawned as [process|]; [|done]. simpl.
  intros [= <- <-]. by eexists process, _, _.
Qed.
End relays.

(** X10. A relay that ended by itself can no longer be stopped or
    replaced: once the monitor of a relay started with [start_rtmp_to_srt]
    has seen the process end, [stop_process] for its name answers [False]
    and keeps the record, and every new [start_rtmp_to_srt] under the name
    is refused. *)
Theorem X10_ended_relay_stays_on_record (v6 : string → bool)
    (spawned : option ProcessManager.popen) (fm fm1 : FFmpegManager.t)
    (rtmp : string) (port : Z) (ip name : string) (t : list ProcessManager.event) :
  FFmpegManager.start_rtmp_to_srt v6 spawned fm rtmp port ip (Some name)
  = (fm1, true, t) →
  ∀ th, ProcessManager.ThreadStart th ∈ t →
  ∀ (e : ProcessManager.monitor_env),
    let fm2 :=
      FFmpegManager.Manager
        (ProcessManager.run_thread e (FFmpegManager.process_manager fm1) th).1
        (FFmpegManager.ffmpeg_path fm1) (FFmpegManager.processes fm1) in
    Dict.mem (FFmpegManager.processes fm2) name = true ∧
    (∀ s, FFmpegManager.stop_process s fm2 name = (fm2, false, [])) ∧
    ∀ spawned' rtmp' port' ip',
      FFmpegManager.start_rtmp_to_srt v6 spawned' fm2 rtmp' port' ip' (Some name)
      = (fm2, false, []).
Proof.
  intros Hstart th Hth e.
  apply start_rtmp_to_srt_started in Hstart
    as (process & command & ip' & -> & Hfm & Hpm & Ht & ->).
  cbv zeta in Ht. subst t.
  apply elem_of_cons in Hth as [Hth|Hth]; [done|].
  apply list_elem_of_singleton in Hth. injection Hth as ->.
  simpl. unfold ProcessManager._monitor_process_output. simpl.
  assert (Hmem : Dict.mem (Dict.set (FFmpegManager.processes fm) name
                             (FFmpegManager.Info "rtmp_to_srt" rtmp port ip')) name = true).
  { apply mem_get. rewrite get_set_eq. by eexists. }
  split; [done|]. split.
  - intros s. unfold FFmpegManager.stop_process. simpl. rewrite Hmem. simpl.
    unfold ProcessManager.stop_process, ProcessManager.forget. simpl.
    rewrite (proj2 (mem_get _ _)) by (rewrite get_set_eq; by eexists).
    by rewrite get_del_eq.
  - intros spawned' rtmp' port' ip''. unfold FFmpegManager.start_rtmp_to_srt. simpl.
    by rewrite Hmem.
Qed.

(** The relay of "Saber" ends while "Saber" is still connected. *)
Lemma X10_ended_relay_stays_on_record_witness :
  let started :=
    FFmpegManager.start_rtmp_to_srt (λ _, false) (Some (ProcessManager.Popen 31))
      Scenario.no_processes WebSocketServer.rtmp_source 10000 "0.0.0.0"
      (Some "client_Saber_10000") in
  let th :=
    ProcessManager.MonitorOutput "client_Saber_10000" (ProcessManager.Popen 31)
      (Some FFmpegManager.on_stdout) (Some FFmpegManager.on_stderr) false
      (FFmpegManager.relay_command Scenario.no_processes WebSocketServer.rtmp_source
         10000 "0.0.0.0") None None in
  let e := ProcessManager.MonitorEnv 1 (λ m, m) None in
  let fm2 :=
    FFmpegManager.Manager
      (ProcessManager.run_thread e (FFmpegManager.process_manager started.1.1) th).1
      (FFmpegManager.ffmpeg_path started.1.1) (FFmpegManager.processes started.1.1) in
  FFmpegManager.stop_process Scenario.clean_stop fm2 "client_Saber_10000"
  = (fm2, false, []).
Proof.
  intros started th e fm2.
  assert (Hs : FFmpegManager.start_rtmp_to_srt (λ _, false)
                 (Some (ProcessManager.Popen 31)) Scenario.no_processes
                 WebSocketServer.rtmp_source 10000 "0.0.0.0" (Some "client_Saber_10000")
               = (started.1.1, true, started.2)) by reflexivity.
  assert (Hth : ProcessManager.ThreadStart th ∈ started.2).
  { apply list_elem_of_further, list_elem_of_here. }
  apply (X10_ended_relay_stays_on_record _ _ _ _ _ _ _ _ _ Hs th Hth e).
Defined.

(** X11. Started and stopped again, a relay leaves no trace: when
    [start_rtmp_to_srt] succeeds for a name the process manager has no
    thread of, and the stop goes through, [stop_process] gives back the
    relay manager one started from, process manager included. *)
Theorem X11_relay_start_then_stop_restores (v6 : string → bool)
    (spawned : option ProcessManager.popen) (fm fm1 : FFmpegManager.t)
    (rtmp : string) (port : Z) (ip name : string) (t : list ProcessManager.event)
    (s : ProcessManager.stop_env) :
  FFmpegManager.start_rtmp_to_srt v6 spawned fm rtmp port ip (Some name)
  = (fm1, true, t) →
  Dict.get (ProcessManager._threads (FFmpegManager.process_manager fm)) name = None →
  Supervision.goes_through s →
  Dict.mem (FFmpegManager.processes fm1) name = true ∧
  Dict.mem (ProcessManager._processes (FFmpegManager.process_manager fm1)) name = true ∧
  (FFmpegManager.stop_process s fm1 name).1 = (fm, true).
Proof.
  intros Hstart Hthreads [Hsig Hpath].
  apply start_rtmp_to_srt_started in Hstart
    as (process & command & ip' & -> & Hfm & Hpm & _ & ->).
  assert (Hmem : Dict.mem (Dict.set (FFmpegManager.processes fm) name
                             (FFmpegManager.Info "rtmp_to_srt" rtmp port ip')) name = true).
  { apply mem_get. rewrite get_set_eq. by eexists. }
  split; [done|]. split.
  { simpl. apply mem_get. rewrite get_set_eq. by eexists. }
  unfold FFmpegManager.stop_process. simpl. rewrite Hmem. simpl.
  unfold ProcessManager.stop_process. simpl.
  rewrite get_set_eq, Hsig. simpl.
  rewrite (proj2 (mem_get _ _)) by (rewrite get_set_eq; by eexists).
  rewrite !del_set_fresh by done.
  destruct (ProcessManager.first_wait s); simpl.
  - destruct fm as [[] ? ?]; done.
  - destruct Hpath as [?|[-> ->]]; [done|]. simpl. destruct fm as [[] ? ?]; done.
Qed.

(** The relay of "Saber" is started and stopped. *)
Lemma X11_relay_start_then_stop_restores_witness :
  let started :=
    FFmpegManager.start_rtmp_to_srt (λ _, false) (Some (ProcessManager.Popen 31))
      Scenario.no_processes WebSocketServer.rtmp_source 10000 "0.0.0.0"
      (Some "client_Saber_10000") in
  Supervision.goes_through Scenario.clean_stop ∧
  (FFmpegManager.stop_process Scenario.clean_stop started.1.1 "client_Saber_10000").1
  = (Scenario.no_processes, true).
Proof.
  intros started.
  assert (Hs : FFmpegManager.start_rtmp_to_srt (λ _, false)
                 (Some (ProcessManager.Popen 31)) Scenario.no_processes
                 WebSocketServer.rtmp_source 10000 "0.0.0.0" (Some "client_Saber_10000")
               = (started.1.1, true, started.2)) by reflexivity.
  assert (Hg : Supervision.goes_through Scenario.clean_stop) by (split; [done|by left]).
  split; [done|].
  apply (X11_relay_start_then_stop_restores _ _ _ _ _ _ _ _ _ _ Hs eq_refl Hg).
Defined.

(** * Further properties of the coordinator *)

Section roster.
Import WebSocketServer Coordinator Session Roster.

Lemma NoDup_fmap_eq {A B} (f : A → B) (l : list A) x y :
  NoDup (f <$> l) → x ∈ l → y ∈ l → f x = f y → x = y.
Proof.
  induction l as [|a l IH]; intros Hnd Hx Hy Hf; [by apply elem_of_nil in Hx|].
  rewrite fmap_cons in Hnd. apply NoDup_cons in Hnd as [Ha Hnd].
  apply elem_of_cons in Hx as [->|Hx]; apply elem_of_cons in Hy as [->|Hy]; try done.
  - exfalso. apply Ha. rewrite Hf. by apply list_elem_of_fmap_2.
  - exfalso. apply Ha. rewrite <- Hf. by apply list_elem_of_fmap_2.
  - by apply IH.
Qed.

Lemma elem_of_values {V} (d : list (string * V)) k v : (k, v) ∈ d → v ∈ Dict.values d.
Proof. intros Hin. unfold Dict.values. apply list_elem_of_fmap. by exists (k, v). Qed.

(** What [_cleanup_client] does to the nickname set. *)
Lemma cleanup_client_nicknames e s cid :
  nicknames (_cleanup_client e s cid).1
  = match Dict.get (clients s) cid with
    | Some ci =>
        if truthy_str (nickname ci) then nicknames s ∖ {[nickname ci]} else nicknames s
    | None => nicknames s
    end.
Proof.
  unfold _cleanup_client. destruct (Dict.get (clients s) cid) as [ci|]; [|done].
  destruct (truthy_int (srt_port ci)).
  - destruct (FFmpegManager.stop_process _ _ _) as [[fm ok] t].
    by destruct (truthy_str (nickname ci)).
  - by destruct (truthy_str (nickname ci)).
Qed.

(** A handled frame leaves the names alone, or is a successful
    authentication under a nickname that was not in use. *)
Lemma handle_message_names e s ci m s' ci' t :
  handle_message e s ci m = (s', ci', t) →
  sender_nickname s' = sender_nickname s ∧
  ((clients s' = clients s ∧ nicknames s' = nicknames s)
   ∨ (authenticated ci = false ∧
      ∃ p nick,
        nick ∉ nicknames s ∧
        clients s'
        = Dict.set (clients s) (client_id (websocket ci))
            (ClientInfo (websocket ci) true nick (Some p)) ∧
        nicknames s' = {[nick]} ∪ nicknames s)).
Proof.
  unfold handle_message. destruct m as [| |data].
  1,2: intros [= <- <- _]; split; [done|by left].
  destruct (authenticated ci) eqn:Hauth; simpl.
  { repeat case_decide; intros [= <- <- _]; split; try done; by left. }
  case_decide; [|intros [= <- <- _]; split; [done|by left]].
  intros Hr.
  pose proof (handle_auth_outcome e s (client_id (websocket ci)) ci data) as Ho.
  rewrite Hr in Ho. inversion Ho as [| |p t1 t2 Hc Hf Hs|p t1 fm t2 Hc Hf Hs]; subst.
  - split; [done|by left].
  - split; [done|by left].
  - destruct (advance_fields s p) as (_ & -> & -> & _ & _ & -> & _).
    split; [done|by left].
  - destruct (advance_fields s p) as (_ & _ & _ & _ & _ & Hsend & _).
    split; [done|]. right. split; [done|].
    exists p, (resolve_nickname (nicknames s) (get (f_nickname data))).
    split; [apply resolve_nickname_fresh|done].
Qed.

Lemma boot_names_kept e code fm cb1 cb2 host p nick :
  names_kept (server (boot e code fm cb1 cb2 host p nick)).
Proof.
  unfold boot. destruct cb1, cb2; simpl.
  all: split; simpl;
    [split; [by eexists|set_solver]
    |intros k ci Hin; by apply elem_of_nil in Hin
    |apply NoDup_nil_2
    |intros n Hn; left; set_solver].
Qed.

Lemma welcome_names_kept s s' cid ws nick p :
  names_kept s → Dict.get (clients s) cid = None →
  sender_nickname s' = sender_nickname s →
  nick ∉ nicknames s →
  clients s' = Dict.set (clients s) cid (ClientInfo ws true nick (Some p)) →
  nicknames s' = {[nick]} ∪ nicknames s →
  names_kept s'.
Proof.
  intros [Hhost Hview Hdist Hown] Hnone Hsend Hfresh Hcl Hn.
  rewrite set_fresh in Hcl by done.
  split; rewrite ?Hsend, ?Hcl, ?Hn.
  - destruct Hhost. split; [done|set_solver].
  - intros k ci Hin. apply elem_of_app in Hin as [Hin|Hin].
    + destruct (Hview k ci Hin). split; [set_solver|done].
    + apply list_elem_of_singleton in Hin as [= -> ->]. simpl.
      split; [set_solver|]. intros Heq. apply Hfresh. rewrite Heq. apply Hhost.
  - unfold Dict.values. rewrite !fmap_app. simpl.
    apply NoDup_app. split; [done|]. split; [|apply NoDup_singleton].
    intros n Hin Hin'. apply list_elem_of_singleton in Hin' as ->.
    apply list_elem_of_fmap in Hin as (ci & -> & Hci).
    apply values_get in Hci as [k Hci]. by destruct (Hview k ci Hci).
  - intros n Hin. apply elem_of_union in Hin as [Hin|Hin].
    + apply elem_of_singleton in Hin as ->. right. left.
      exists cid, (ClientInfo ws true nick (Some p)).
      split; [|done]. apply elem_of_app. right. by apply list_elem_of_singleton.
    + destruct (Hown n Hin) as [?|[(k & ci & Hci & ?)|?]]; [by left| |by right; right].
      right. left. exists k, ci. split; [|done]. apply elem_of_app. by left.
Qed.

Lemma cleanup_names_kept e s cid :
  NoDup (Dict.keys (clients s)) → names_kept s →
  names_kept (_cleanup_client e s cid).1.
Proof.
  intros Hkeys [Hhost Hview Hdist Hown].
  destruct (cleanup_client_fields e s cid) as (Hcl & _ & _ & Hsend).
  pose proof (cleanup_client_nicknames e s cid) as Hn.
  destruct (Dict.get (clients s) cid) as [ci|] eqn:Hg.
  2: { rewrite cleanup_client_absent by done. done. }
  apply get_Some_elem_of in Hg.
  assert (Hother : ∀ k c, (k, c) ∈ Dict.del (clients s) cid → nickname c ≠ nickname ci).
  { intros k c Hin Heq. apply elem_of_del in Hin as [Hin Hne].
    unfold Dict.values in Hdist. rewrite <- list_fmap_compose in Hdist.
    assert ((k, c) = (cid, ci)) as [= ? ?]; [|done].
    by eapply (NoDup_fmap_eq (nickname ∘ snd)). }
  split; rewrite ?Hsend, ?Hcl, ?Hn.
  - destruct Hhost as [Hsome Hin]. split; [done|].
    destruct (truthy_str (nickname ci)); [|done].
    apply elem_of_difference. split; [done|].
    rewrite not_elem_of_singleton. intros Heq. by destruct (Hview cid ci Hg).
  - intros k c Hin. pose proof (Hother k c Hin) as Hne.
    apply elem_of_del in Hin as [Hin _]. destruct (Hview k c Hin) as [Hc ?].
    split; [|done]. destruct (truthy_str (nickname ci)); [|done].
    apply elem_of_difference. split; [done|]. by rewrite not_elem_of_singleton.
  - unfold Dict.values. eapply sublist_NoDup; [apply Hdist|].
    apply fmap_sublist, fmap_sublist, del_sublist.
  - intros n Hin.
    assert (n ∈ nicknames s ∧ (truthy_str (nickname ci) = true → n ≠ nickname ci))
      as [Hin' Hne].
    { destruct (truthy_str (nickname ci)); [|done].
      apply elem_of_difference in Hin as [? Hne]. split; [done|].
      intros _. by rewrite not_elem_of_singleton in Hne. }
    destruct (Hown n Hin') as [?|[(k & c & Hc & Hnc)|?]]; [by left| |by right; right].
    destruct (decide (k = cid)) as [->|Hk].
    + apply (elem_of_get _ _ _ Hkeys) in Hc, Hg.
      assert (c = ci) as -> by congruence.
      right. right. destruct (truthy_str (nickname ci)) eqn:Htr.
      * by destruct (Hne eq_refl).
      * by rewrite <- Hnc.
    + right. left. exists k, c. split; [|done]. by apply elem_of_del.
Qed.

Lemma step_names_kept e sys i sys' t :
  invariant sys → names_kept (server sys) → step e sys i = Some (sys', t) →
  names_kept (server sys').
Proof.
  intros Hinv Hnames Hstep. destruct i as [ws|ws m|ws|text|pm]; simpl in Hstep.
  - destruct (handlers sys !! ws); [done|]. by injection Hstep as <- _.
  - destruct (handlers sys !! ws) as [ci|] eqn:Hl; [|done].
    destruct (decide (ws ∈ hung_up sys)); [done|].
    destruct (handle_message e (server sys) ci m) as [[s ci'] t'] eqn:Hm.
    injection Hstep as <- _. simpl.
    destruct (inv_handlers _ Hinv _ _ Hl) as [Hws Hrec].
    apply handle_message_names in Hm
      as [Hsend [[Hcl Hn]|(Hauth & p & nick & Hfresh & Hcl & Hn)]].
    + destruct Hnames as [H1 H2 H3 H4]. split; rewrite ?Hsend, ?Hcl, ?Hn; done.
    + rewrite Hauth in Hrec. rewrite Hws in Hcl. by eapply welcome_names_kept.
  - destruct (handlers sys !! ws) as [ci|]; [|done].
    pose proof (cleanup_names_kept e (server sys) (client_id ws)
                  (inv_keys _ Hinv) Hnames) as H.
    destruct (_cleanup_client e (server sys) (client_id ws)) as [s t'].
    by injection Hstep as <- _.
  - by injection Hstep as <- _.
  - injection Hstep as <- _. by destruct Hnames.
Qed.

Lemma reachable_names_kept sys : reachable sys → names_kept (server sys).
Proof.
  induction 1 as [|e sys i sys' t Hr IH Hstep].
  - apply boot_names_kept.
  - eapply step_names_kept; [|done..]. by apply reachable_invariant.
Qed.
End roster.



(** ** The member list *)

Section membership.
Import WebSocketServer Coordinator Session Roster.

Local Abbreviation receivers :=
  (flat_map (λ ci, if authenticated ci && truthy_str (nickname ci)
                   then [Member (nickname ci) "receiver"] else [])).

Lemma receivers_spec (l : list client_info) m :
  m ∈ receivers l
  ↔ ∃ ci, ci ∈ l ∧ authenticated ci = true ∧ truthy_str (nickname ci) = true ∧
          m = Member (nickname ci) "receiver".
Proof.
  rewrite list_elem_of_In, in_flat_map. split.
  - intros (ci & Hin & Hm). exists ci. apply list_elem_of_In in Hin.
    destruct (authenticated ci), (truthy_str (nickname ci)); simpl in Hm; try done.
    destruct Hm as [<-|[]]. done.
  - intros (ci & Hin & Hauth & Htr & ->). exists ci. apply list_elem_of_In in Hin.
    split; [done|]. rewrite Hauth, Htr. by left.
Qed.

Lemma receivers_NoDup (l : list client_info) :
  NoDup (nickname <$> l) → NoDup (receivers l).
Proof.
  induction l as [|a l IH]; [intros; apply NoDup_nil_2|].
  rewrite fmap_cons. intros [Ha Hnd]%NoDup_cons. cbn [flat_map].
  destruct (authenticated a && truthy_str (nickname a)); [|by apply IH].
  cbn [app]. apply NoDup_cons. split; [|by apply IH].
  intros (ci & Hci & _ & _ & [= Heq])%receivers_spec.
  apply Ha. rewrite Heq. by apply list_elem_of_fmap_2.
Qed.

(** The member list of a session: the host if it has a name, and the
    viewers on record that have one. *)
Lemma members_spec sys m :
  invariant sys →
  m ∈ get_online_members (server sys)
  ↔ (m = Member (sender_nickname (server sys)) "sender" ∧
     truthy_str (sender_nickname (server sys)) = true)
    ∨ (∃ k ci, (k, ci) ∈ clients (server sys) ∧
               truthy_str (nickname ci) = true ∧
               m = Member (nickname ci) "receiver").
Proof.
  intros Hinv. unfold get_online_members. rewrite elem_of_app, receivers_spec.
  split.
  - intros [Hm|(ci & Hin & _ & Htr & ->)].
    + left. destruct (truthy_str (sender_nickname (server sys))); [|by apply elem_of_nil in Hm].
      by apply list_elem_of_singleton in Hm.
    + right. apply values_get in Hin as [k Hin]. by exists k, ci.
  - intros [[-> Htr]|(k & ci & Hin & Htr & ->)].
    + left. rewrite Htr. by apply list_elem_of_singleton.
    + right. exists ci. destruct (inv_records _ Hinv _ _ Hin) as (Hauth & _).
      split; [by eapply elem_of_values|done].
Qed.

Lemma members_NoDup sys :
  names_kept (server sys) → NoDup (get_online_members (server sys)).
Proof.
  intros Hnames. unfold get_online_members. apply NoDup_app. split; [|split].
  - destruct (truthy_str _); [apply NoDup_singleton|apply NoDup_nil_2].
  - intros m Hm (ci & _ & _ & _ & ->)%receivers_spec.
    destruct (truthy_str _); [|by apply elem_of_nil in Hm].
    by apply list_elem_of_singleton in Hm.
  - apply receivers_NoDup, Hnames.
Qed.
End membership.

(** X13. At every reachable state of a session the member list names
    nobody twice.  It holds the host, as ["sender"], when the host's
    nickname is not empty, and then it comes first; besides the host it
    holds, as ["receiver"], exactly the viewers on record whose nickname is
    not empty. *)
Theorem X13_member_list (sys : Coordinator.system) :
  Coordinator.reachable sys →
  let s := Coordinator.server sys in
  let members := WebSocketServer.get_online_members s in
  NoDup members ∧
  (WebSocketServer.truthy_str (WebSocketServer.sender_nickname s) = true →
   head members
   = Some (WebSocketServer.Member (WebSocketServer.sender_nickname s) "sender")) ∧
  ∀ m, m ∈ members
       ↔ (m = WebSocketServer.Member (WebSocketServer.sender_nickname s) "sender" ∧
          WebSocketServer.truthy_str (WebSocketServer.sender_nickname s) = true)
         ∨ (∃ k ci, (k, ci) ∈ WebSocketServer.clients s ∧
                    WebSocketServer.truthy_str (WebSocketServer.nickname ci) = true ∧
                    m = WebSocketServer.Member (WebSocketServer.nickname ci) "receiver").
Proof.
  intros Hr s members. split; [|split].
  - by apply members_NoDup, reachable_names_kept.
  - intros Htr. subst members. unfold WebSocketServer.get_online_members.
    fold s. by rewrite Htr.
  - intros m. by apply members_spec, reachable_invariant.
Qed.

(** The host "Archer" with the two "Saber"s. *)
Lemma X13_member_list_witness :
  NoDup (WebSocketServer.get_online_members (Coordinator.server Scenario.two_sabers)).
Proof.
  apply (X13_member_list Scenario.two_sabers two_sabers_reachable).
Defined.

(** ** Who is told what when a viewer joins or leaves *)

Section announcements.
Import WebSocketServer Coordinator Session Roster.





End announcements.





(** ** Frames that change nothing *)

Section quiet_frames.
Import WebSocketServer Coordinator Session.




End quiet_frames.



(** * Further properties of the viewer's client *)

Section client_more.
Import WebSocketClient.
Variable is_valid_ipv6 : string → bool.

Lemma attempts_app t1 t2 : attempts (t1 ++ t2) = (attempts t1 + attempts t2)%nat.
Proof. unfold attempts. by rewrite List.filter_app, length_app. Qed.

Lemma attempts_retries host p why (n : nat) :
  attempts (mjoin (replicate n (retry is_valid_ipv6 host p why))) = n.
Proof.
  induction n as [|n IH]; [done|].
  change (mjoin (replicate (S n) ?x)) with (x ++ mjoin (replicate n x)).
  rewrite attempts_app, IH. done.
Qed.

Lemma terminal_not_in_retries host p why (n : nat) :
  OnError "无法连接到服务器" ∉ mjoin (replicate n (retry is_valid_ipv6 host p why)).
Proof.
  induction n as [|n IH]; [apply not_elem_of_nil|].
  change (mjoin (replicate (S n) ?x)) with (x ++ mjoin (replicate n x)).
  rewrite elem_of_app. intros [Hin|Hin]; [|done].
  unfold retry in Hin.
  repeat (apply elem_of_cons in Hin as [Hin|Hin]; [discriminate Hin|]).
  by apply elem_of_nil in Hin.
Qed.

(** Once [disconnect] has run, the receive loop does nothing more. *)
Lemma receive_loop_stopped more : ∀ c,
  running c = false → websocket c = false →
  ∃ c' broke,
    receive_loop c more = (c', [], broke) ∧
    running c' = false ∧ websocket c' = false ∧
    (connected c = false → connected c' = false) ∧
    (authenticated c = false → authenticated c' = false) ∧
    (auto_reconnect c = false → auto_reconnect c' = false).
Proof.
  induction more as [|o more IH]; intros c Hrun Hws.
  { by exists c, false. }
  destruct o as [f|]; cbn [receive_loop].
  - rewrite Hrun. by exists c, true.
  - unfold disconnect. rewrite Hws.
    set (c1 := with_flags _ false false false false).
    destruct (IH c1) as (c' & broke & Hloop & ? & ? & Hc & Ha & Hr); [done..|].
    rewrite Hloop. exists c', broke. repeat split; try done.
    + intros _. by apply Hc.
    + intros _. by apply Ha.
    + intros _. by apply Hr.
Qed.

(** The receive loop over two stretches of a connection's life. *)
Lemma receive_loop_app l1 l2 c :
  receive_loop c (l1 ++ l2)
  = let '(c1, t1, broke) := receive_loop c l1 in
    if broke then (c1, t1, true)
    else let '(c2, t2, broke') := receive_loop c1 l2 in (c2, t1 ++ t2, broke').
Proof.
  revert c. induction l1 as [|o l1 IH]; intros c.
  { cbn [app receive_loop]. by destruct (receive_loop c l2) as [[??]?]. }
  destruct o as [f|]; cbn [app receive_loop].
  - destruct (running c); cbn [negb]; [|done].
    destruct (_handle_message c f) as [c1 t1]. rewrite IH.
    destruct (receive_loop c1 l1) as [[c2 t2] [|]]; [done|].
    destruct (receive_loop c2 l2) as [[c3 t3] b]. by rewrite app_assoc.
  - destruct (disconnect c) as [c1 t1]. rewrite IH.
    destruct (receive_loop c1 l1) as [[c2 t2] [|]]; [done|].
    destruct (receive_loop c2 l2) as [[c3 t3] b]. by rewrite app_assoc.
Qed.

(** A frame that is not a refusal leaves the client running. *)
Lemma handle_message_keeps_running c f :
  running c = true → websocket c = true →
  (∀ text, f ≠ Frame (WebSocketServer.AuthFailed text)) →
  running (_handle_message c f).1 = true ∧ websocket (_handle_message c f).1 = true.
Proof.
  intros Hrun Hws Hf. unfold _handle_message. rewrite Hrun. cbn [negb].
  destruct f as [| |[text| | | | | | |]]; try done. by destruct (Hf text).
Qed.

Lemma receive_loop_keeps_running (fs : list frame) : ∀ c,
  running c = true → websocket c = true →
  Forall (λ f, ∀ text, f ≠ Frame (WebSocketServer.AuthFailed text)) fs →
  running (receive_loop c (Arrives <$> fs)).1.1 = true ∧
  websocket (receive_loop c (Arrives <$> fs)).1.1 = true ∧
  (receive_loop c (Arrives <$> fs)).2 = false.
Proof.
  induction fs as [|f fs IH]; intros c Hrun Hws Hall; [done|].
  apply Forall_cons in Hall as [Hf Hall].
  rewrite fmap_cons. cbn [receive_loop]. rewrite Hrun. cbn [negb].
  destruct (handle_message_keeps_running c f Hrun Hws Hf) as [Hrun1 Hws1].
  destruct (_handle_message c f) as [c1 t1]. cbn [fst] in *.
  specialize (IH c1 Hrun1 Hws1 Hall).
  by destruct (receive_loop c1 (Arrives <$> fs)) as [[c2 t2] b].
Qed.

(** After the loop of a stopped client, [_receive_messages] returns without
    a callback and without a reconnection. *)
Lemma receive_messages_stopped next c during last c1 t1 broke :
  receive_loop c during = (c1, t1, broke) →
  running c1 = false → connected c1 = false →
  ∃ c',
    _receive_messages next c during last = (c', t1, true) ∧
    running c' = false ∧ websocket c' = websocket c1 ∧
    connected c' = false ∧ authenticated c' = authenticated c1 ∧
    auto_reconnect c' = auto_reconnect c1.
Proof.
  intros Hloop Hrun Hconn. unfold _receive_messages. rewrite Hloop.
  destruct broke; [by exists c1|].
  destruct last; [by exists c1| |by eexists].
  rewrite Hrun. by exists c1.
Qed.
End client_more.

(** X17. How far the client goes on its own to get a connection back.  A
    client that is not running, as it is before its first connection or
    after a disconnect, makes one attempt, reports the refusal and stops:
    the first connection is never retried.  A client whose connection was
    accepted and then breaks makes exactly [max_reconnect_attempts] further
    attempts if the host keeps refusing, whatever that bound is from one
    up; each refusal is reported like any failed connection, the terminal
    error of [_try_reconnect] is not among the reports, and the client
    returns.  Only with a bound below one is the terminal error reported,
    and then without any further attempt. *)
Theorem X17_reconnection_budget (v6 : string → bool) (why : string)
    (c : WebSocketClient.t) (host : string) (p : Z) (nick code : option string) :
  (WebSocketClient.running c = false →
   ∀ stopped rest, ∃ c',
     WebSocketClient.connect v6
       (WebSocketClient.Attempt stopped (WebSocketClient.Refused why) :: rest)
       c host p nick code
     = (c',
        WebSocketClient.Open (WebSocketClient.uri v6 host p)
        :: (if WebSocketClient.on_error_callback c
            then [WebSocketClient.OnError ("连接失败: " +:+ why)] else []),
        false, true) ∧
     WebSocketClient.running c' = false ∧ WebSocketClient.connected c' = false) ∧
  (WebSocketClient.auto_reconnect c = true →
   WebSocketClient.reconnect_interval c = 3 →
   WebSocketClient.on_error_callback c = true →
   1 ≤ WebSocketClient.max_reconnect_attempts c →
   ∀ k : nat, (Z.to_nat (WebSocketClient.max_reconnect_attempts c) ≤ k)%nat →
   ∃ c' t,
     WebSocketClient.connect v6
       (WebSocketClient.Attempt false
          (WebSocketClient.Accepted [] WebSocketClient.ConnectionClosed)
        :: replicate k (WebSocketClient.Attempt false (WebSocketClient.Refused why)))
       c host p nick code
     = (c', t, true, true) ∧
     WebSocketClient.attempts t
     = S (Z.to_nat (WebSocketClient.max_reconnect_attempts c)) ∧
     (WebSocketClient.OnError "无法连接到服务器" ∉ t)) ∧
  (WebSocketClient.auto_reconnect c = true →
   WebSocketClient.max_reconnect_attempts c ≤ 0 →
   ∀ rest, ∃ c',
     WebSocketClient.connect v6
       (WebSocketClient.Attempt false
          (WebSocketClient.Accepted [] WebSocketClient.ConnectionClosed) :: rest)
       c host p nick code
     = (c',
        WebSocketClient.Open (WebSocketClient.uri v6 host p)
        :: (if WebSocketClient.on_connected_callback c
            then [WebSocketClient.OnConnected] else [])
        ++ [WebSocketClient.SendAuth code nick]
        ++ (if WebSocketClient.on_disconnected_callback c
            then [WebSocketClient.OnDisconnected] else [])
        ++ (if WebSocketClient.on_error_callback c
            then [WebSocketClient.OnError "无法连接到服务器"] else []),
        true, true)).
Proof.
  split; [|split].
  - intros Hrun stopped rest. rewrite connect_refused_eq. cbv zeta.
    rewrite Hrun, andb_false_r. by eexists.
  - intros Hauto Hint Hcb Hmax k Hk.
    destruct (cut_then_refused v6 why k c host p nick code Hauto Hint Hcb Hmax Hk)
      as [c' Hc'].
    eexists _, _. split; [exact Hc'|]. split.
    + change (WebSocketClient.Open ?u :: ?l) with ([WebSocketClient.Open u] ++ l).
      rewrite !attempts_app, attempts_retries.
      by destruct (WebSocketClient.on_connected_callback c),
           (WebSocketClient.on_disconnected_callback c).
    + rewrite elem_of_cons, !elem_of_app.
      intros [Hin|[Hin|[Hin|[Hin|Hin]]]]; try discriminate Hin.
      * destruct (WebSocketClient.on_connected_callback c);
          [apply list_elem_of_singleton in Hin|apply elem_of_nil in Hin]; done.
      * by apply list_elem_of_singleton in Hin.
      * destruct (WebSocketClient.on_disconnected_callback c);
          [apply list_elem_of_singleton in Hin|apply elem_of_nil in Hin]; done.
      * by apply terminal_not_in_retries in Hin.
  - intros Hauto Hmax rest. rewrite connect_accepted_eq. cbv zeta.
    cbn [WebSocketClient._receive_messages WebSocketClient.receive_loop].
    simpl WebSocketClient.running. simpl WebSocketClient.auto_reconnect.
    rewrite Hauto. simpl WebSocketClient.on_disconnected_callback.
    simpl WebSocketClient.on_connected_callback.
    rewrite try_reconnect_gives_up; [|done|done|simpl; lia].
    eexists. unfold WebSocketClient._authenticate. simpl.
    by destruct (WebSocketClient.on_connected_callback c),
         (WebSocketClient.on_disconnected_callback c).
Qed.

(** The viewer of the scenario, with the bound it starts with. *)
Lemma X17_reconnection_budget_witness :
  ∃ c' t,
    WebSocketClient.connect (λ _, false)
      (WebSocketClient.Attempt false
         (WebSocketClient.Accepted [] WebSocketClient.ConnectionClosed)
       :: replicate 7 (WebSocketClient.Attempt false (WebSocketClient.Refused "refused")))
      Scenario.viewer "192.0.2.1" 10086 (Some "Saber") (Some "114514")
    = (c', t, true, true) ∧
    WebSocketClient.attempts t = 6%nat ∧
    (WebSocketClient.OnError "无法连接到服务器" ∉ t).
Proof.
  destruct (X17_reconnection_budget (λ _, false) "refused" Scenario.viewer
              "192.0.2.1" 10086 (Some "Saber") (Some "114514")) as (_ & H & _).
  apply (H eq_refl eq_refl eq_refl ltac:(by vm_compute) 7%nat ltac:(vm_compute; lia)).
Defined.

(** X18. A refusal of the authentication ends the client for good.  When
    the first frame on a new connection is [auth_failed], the client
    reports the server's text, closes the socket, and is left not running,
    not connected, not authenticated and with automatic reconnection
    switched off; whatever arrives afterwards, however the connection ends
    and whatever the host would answer to further attempts, nothing more is
    reported and no other attempt is made. *)
Theorem X18_refusal_ends_the_client (v6 : string → bool) (c : WebSocketClient.t)
    (host : string) (p : Z) (nick code : option string) (text : string)
    (more : list WebSocketClient.occurrence) (last : WebSocketClient.ending)
    (stopped : bool) (rest : list WebSocketClient.attempt) :
  ∃ c',
    WebSocketClient.connect v6
      (WebSocketClient.Attempt stopped
         (WebSocketClient.Accepted
            (WebSocketClient.Arrives
               (WebSocketClient.Frame (WebSocketServer.AuthFailed text)) :: more)
            last) :: rest)
      c host p nick code
    = (c',
       WebSocketClient.Open (WebSocketClient.uri v6 host p)
       :: (if WebSocketClient.on_connected_callback c
           then [WebSocketClient.OnConnected] else [])
       ++ [WebSocketClient.SendAuth code nick]
       ++ (if WebSocketClient.on_error_callback c
           then [WebSocketClient.OnError text] else [])
       ++ [WebSocketClient.CloseSocket],
       true, true) ∧
    WebSocketClient.running c' = false ∧
    WebSocketClient.connected c' = false ∧
    WebSocketClient.authenticated c' = false ∧
    WebSocketClient.auto_reconnect c' = false.
Proof.
  rewrite connect_accepted_eq. cbv zeta.
  set (c2 := WebSocketClient.with_reconnect_attempts _ 0).
  set (c3 := (WebSocketClient.disconnect c2).1).
  destruct (receive_loop_stopped more c3) as (c4 & broke & Hloop & Hrun & Hws & Hc & Ha & Hr);
    [done..|].
  assert (Hfirst :
    WebSocketClient.receive_loop c2
      (WebSocketClient.Arrives
         (WebSocketClient.Frame (WebSocketServer.AuthFailed text)) :: more)
    = (c4,
       (if WebSocketClient.on_error_callback c
        then [WebSocketClient.OnError text] else [])
       ++ [WebSocketClient.CloseSocket], broke)).
  { cbn [WebSocketClient.receive_loop]. simpl WebSocketClient.running. cbn [negb].
    unfold WebSocketClient._handle_message. simpl WebSocketClient.running. cbn [negb].
    fold c3 in Hloop.
    change (WebSocketClient.disconnect c2) with (c3, [WebSocketClient.CloseSocket]).
    cbv iota beta. rewrite Hloop. by rewrite app_nil_r. }
  destruct (receive_messages_stopped (WebSocketClient.next_of v6 rest) c2 _ last
              _ _ _ Hfirst Hrun (Hc eq_refl))
    as (c' & Hrecv & Hrun' & _ & Hconn' & Hauth' & Hauto').
  exists c'. rewrite Hrecv. split.
  - done.
  - repeat split; try done.
    + rewrite Hauth'. by apply Ha.
    + rewrite Hauto'. by apply Hr.
Qed.

(** X19. When the user disconnects in the middle of a session, the frames
    that came before are handled as usual, the socket is closed once, and
    that is the end: nothing that arrives later is handled, the end of the
    connection raises no [disconnected] callback and starts no
    reconnection, whatever the bound and whatever the host would answer. *)
Theorem X19_user_disconnect_is_final (next : WebSocketClient.future)
    (c : WebSocketClient.t) (fs : list WebSocketClient.frame)
    (more : list WebSocketClient.occurrence) (last : WebSocketClient.ending) :
  WebSocketClient.running c = true →
  WebSocketClient.websocket c = true →
  Forall (λ f, ∀ text, f ≠ WebSocketClient.Frame (WebSocketServer.AuthFailed text)) fs →
  ∃ c',
    WebSocketClient._receive_messages next c
      ((WebSocketClient.Arrives <$> fs) ++ WebSocketClient.UserDisconnects :: more) last
    = (c',
       (WebSocketClient.receive_loop c (WebSocketClient.Arrives <$> fs)).1.2
       ++ [WebSocketClient.CloseSocket],
       true) ∧
    WebSocketClient.running c' = false ∧
    WebSocketClient.connected c' = false ∧
    WebSocketClient.authenticated c' = false ∧
    WebSocketClient.auto_reconnect c' = false.
Proof.
  intros Hrun Hws Hfs.
  destruct (receive_loop_keeps_running fs c Hrun Hws Hfs) as (Hrun1 & Hws1 & Hb).
  destruct (WebSocketClient.receive_loop c (WebSocketClient.Arrives <$> fs))
    as [[c1 t1] b] eqn:Hloop1. cbn [fst snd] in *. subst b.
  set (c2 := (WebSocketClient.disconnect c1).1).
  destruct (receive_loop_stopped more c2) as (c3 & broke & Hloop & Hrun3 & Hws3 & Hc & Ha & Hr);
    [done..|].
  assert (Hall :
    WebSocketClient.receive_loop c
      ((WebSocketClient.Arrives <$> fs) ++ WebSocketClient.UserDisconnects :: more)
    = (c3, t1 ++ [WebSocketClient.CloseSocket], broke)).
  { rewrite receive_loop_app, Hloop1. cbn [WebSocketClient.receive_loop].
    fold c2 in Hloop. unfold WebSocketClient.disconnect at 1. rewrite Hws1.
    change (WebSocketClient.with_flags _ false false false false) with c2.
    rewrite Hloop. by rewrite app_nil_r. }
  destruct (receive_messages_stopped next c _ last _ _ _ Hall Hrun3 (Hc eq_refl))
    as (c' & Hrecv & Hrun' & _ & Hconn' & Hauth' & Hauto').
  exists c'. split; [done|]. repeat split; try done.
  - rewrite Hauth'. by apply Ha.
  - rewrite Hauto'. by apply Hr.
Qed.

(** A welcomed viewer reads a chat line and then leaves; the host's next
    line and the end of the connection go unnoticed. *)
Lemma X19_user_disconnect_is_final_witness :
  let c := WebSocketClient.with_flags Scenario.viewer true true true true in
  let line := WebSocketClient.Frame (WebSocketServer.Chat (Some "Archer") (Some "hi") "20:05") in
  ∃ c',
    WebSocketClient._receive_messages None c
      ((WebSocketClient.Arrives <$> [line])
       ++ [WebSocketClient.UserDisconnects; WebSocketClient.Arrives line])
      WebSocketClient.ConnectionClosed
    = (c',
       [WebSocketClient.OnMessage (Some "Archer") (Some "hi"); WebSocketClient.CloseSocket],
       true) ∧
    WebSocketClient.running c' = false ∧
    WebSocketClient.connected c' = false ∧
    WebSocketClient.authenticated c' = false ∧
    WebSocketClient.auto_reconnect c' = false.
Proof.
  intros c line.
  apply (X19_user_disconnect_is_final None c [line] [WebSocketClient.Arrives line]
           WebSocketClient.ConnectionClosed eq_refl eq_refl).
  repeat constructor. intros text H. discriminate H.
Defined.

(** * The server and the client together *)

Section welcome_delivery.
Import WebSocketServer Coordinator Session.

End welcome_delivery.

Section passive_frames.
Import WebSocketClient.

(** Frames that tell the client something without changing its state. *)
Local Abbreviation passive f :=
  ((∀ text, f ≠ Frame (WebSocketServer.AuthFailed text)) ∧
   (∀ n p ip, f ≠ Frame (WebSocketServer.AuthSuccess n p ip))).


End passive_frames.



(** * The relay of the host's own stream *)

Section intake.
Import FFmpegManager.

(** What a successful [start_srt_to_rtmp] has done. *)
Lemma start_srt_to_rtmp_started v6 spawned fm port rtmp ip name fm1 t :
  start_srt_to_rtmp v6 spawned fm port rtmp ip (Some name) = (fm1, true, t) →
  ∃ process command rtmp' ip',
    spawned = Some process ∧
    Dict.get (processes fm) name = None ∧
    Dict.get (ProcessManager._processes (process_manager fm)) name = None ∧
    let th := ProcessManager.MonitorOutput name process (Some on_stdout) (Some on_stderr)
                true command None None in
    t = [ProcessManager.Launch command None None true true (Some process);
         ProcessManager.ThreadStart th] ∧
    fm1 = Manager
            (ProcessManager.Manager
               (Dict.set (ProcessManager._processes (process_manager fm)) name process)
               (Dict.set (ProcessManager._threads (process_manager fm)) name th)
               (ProcessManager._shutdown_event (process_manager fm)))
            (ffmpeg_path fm)
            (Dict.set (processes fm) name (Info "srt_to_rtmp" rtmp' port ip')).
Proof.
  unfold start_srt_to_rtmp.
  destruct (Dict.mem (processes fm) name) eqn:Hm; [done|]. apply mem_get_false in Hm.
  unfold ProcessManager.start_process.
  destruct (Dict.mem (ProcessManager._processes (process_manager fm)) name) eqn:Hpm;
    [done|]. apply mem_get_false in Hpm.
  destruct spawned as [process|]; [|done]. simpl.
  intros [= <- <-]. by eexists process, _, _, _.
Qed.

(** One [stop_process] of the relay manager, when the stop goes through:
    the relay is taken off both tables if it is on both, and nothing
    changes otherwise. *)
Lemma stop_relay_through s m name :
  Supervision.goes_through s →
  let both :=
    Dict.mem (processes m) name
    && Dict.mem (ProcessManager._processes (process_manager m)) name in
  let m' := (stop_process s m name).1.1 in
  processes m' = (if both then Dict.del (processes m) name else processes m) ∧
  ProcessManager._processes (process_manager m')
  = (if both then Dict.del (ProcessManager._processes (process_manager m)) name
     else ProcessManager._processes (process_manager m)) ∧
  ProcessManager._shutdown_event (process_manager m')
  = ProcessManager._shutdown_event (process_manager m).
Proof.
  intros [Hsig Hpath] both m'. subst both m'. unfold stop_process.
  destruct (Dict.mem (processes m) name); cbn [negb andb]; [|done].
  unfold ProcessManager.stop_process.
  destruct (Dict.get (ProcessManager._processes (process_manager m)) name)
    as [process|] eqn:Hg.
  - assert (Hmem : Dict.mem (ProcessManager._processes (process_manager m)) name = true)
      by (apply mem_get; by eexists).
    rewrite Hmem, Hsig. cbn [negb]. destruct (ProcessManager.first_wait s); [done|].
    by destruct Hpath as [?|[-> ->]].
  - assert (Hmem : Dict.mem (ProcessManager._processes (process_manager m)) name = false)
      by (by apply mem_get_false).
    by rewrite Hmem.
Qed.

Lemma mem_del_ne {V} (d : list (string * V)) k k' :
  k ≠ k' → Dict.mem (Dict.del d k) k' = Dict.mem d k'.
Proof.
  intros Hne. destruct (Dict.mem d k') eqn:Hm.
  - apply mem_get. apply mem_get in Hm. by rewrite get_del_ne.
  - apply mem_get_false. apply mem_get_false in Hm. by rewrite get_del_ne.
Qed.

(** The loop of [stop_all], name by name. *)
Lemma stop_each_relays e names : ∀ m,
  (∀ n, n ∈ names → Supervision.goes_through (e n)) →
  let m' := (stop_each e m names).1 in
  ∀ k,
    let both :=
      bool_decide (k ∈ names) && Dict.mem (processes m) k
      && Dict.mem (ProcessManager._processes (process_manager m)) k in
    Dict.get (processes m') k = (if both then None else Dict.get (processes m) k) ∧
    Dict.get (ProcessManager._processes (process_manager m')) k
    = (if both then None
       else Dict.get (ProcessManager._processes (process_manager m)) k).
Proof.
  induction names as [|name rest IH]; intros m Hgood m' k both.
  { subst both m'. by rewrite bool_decide_eq_false_2 by apply not_elem_of_nil. }
  subst m'. cbn [stop_each].
  destruct (stop_relay_through (e name) m name (Hgood name (list_elem_of_here _ _)))
    as (Hp & Hpm & _).
  destruct (stop_process (e name) m name) as [[m1 ok] t1]. cbn [fst] in Hp, Hpm.
  assert (Hrest : ∀ n, n ∈ rest → Supervision.goes_through (e n))
    by (intros; apply Hgood; by right).
  destruct (IH m1 Hrest k) as [H1 H2].
  destruct (stop_each e m1 rest) as [m2 t2]. cbn [fst] in *.
  rewrite H1, H2, Hp, Hpm. subst both. clear H1 H2 IH.
  destruct (decide (k = name)) as [->|Hne].
  - rewrite (bool_decide_eq_true_2 (name ∈ name :: rest)) by apply list_elem_of_here.
    destruct (Dict.mem (processes m) name) eqn:Hm1,
      (Dict.mem (ProcessManager._processes (process_manager m)) name) eqn:Hm2;
      cbn [andb]; rewrite ?mem_del, ?Hm1, ?Hm2, ?andb_false_r, ?get_del_eq; cbn [andb];
      done.
  - assert (Hin : bool_decide (k ∈ name :: rest) = bool_decide (k ∈ rest)).
    { apply bool_decide_ext. rewrite elem_of_cons. naive_solver. }
    rewrite Hin.
    destruct (Dict.mem (processes m) name
              && Dict.mem (ProcessManager._processes (process_manager m)) name);
      [|done].
    by rewrite !mem_del_ne, !get_del_ne.
Qed.
End intake.

(** X21. Stopping the relay of the host's own stream does not keep it
    stopped.  [start_srt_to_rtmp] starts it with [restart_on_exit = True];
    when [stop_process] of the relay manager then goes through, both
    records are removed, but the monitor thread of the stopped process sees
    it end and, unless shutdown has been signalled, launches the same
    command again under the same name three seconds later.  The relay
    manager has no record of the new process: it reports it as not
    running and refuses to stop it. *)
Theorem X21_stopped_intake_relay_comes_back (v6 : string → bool)
    (spawned : option ProcessManager.popen) (fm fm1 : FFmpegManager.t)
    (port : Z) (rtmp : option string) (ip name : string)
    (t : list ProcessManager.event) (s : ProcessManager.stop_env)
    (e : ProcessManager.monitor_env) (process' : ProcessManager.popen) :
  FFmpegManager.start_srt_to_rtmp v6 spawned fm port rtmp ip (Some name)
  = (fm1, true, t) →
  Supervision.goes_through s →
  let fm2 := (FFmpegManager.stop_process s fm1 name).1.1 in
  let woken := ProcessManager.during_sleep e (FFmpegManager.process_manager fm2) in
  ProcessManager._shutdown_event (FFmpegManager.process_manager fm) = false →
  ProcessManager._shutdown_event woken = false →
  Dict.get (ProcessManager._processes woken) name = None →
  ProcessManager.respawned e = Some process' →
  ∀ th, ProcessManager.ThreadStart th ∈ t →
  ∃ command,
    Supervision.launches t
    = [ProcessManager.Launch command None None true true spawned] ∧
    (FFmpegManager.stop_process s fm1 name).1.2 = true ∧
    Dict.mem (FFmpegManager.processes fm2) name = false ∧
    let '(pm3, t3) := ProcessManager.run_thread e (FFmpegManager.process_manager fm2) th in
    let fm3 :=
      FFmpegManager.Manager pm3 (FFmpegManager.ffmpeg_path fm2)
        (FFmpegManager.processes fm2) in
    Supervision.launches t3
    = [ProcessManager.Launch command None None true true (Some process')] ∧
    Dict.get (ProcessManager._processes pm3) name = Some process' ∧
    (∀ alive, FFmpegManager.is_process_running alive fm3 name = false) ∧
    ∀ s', FFmpegManager.stop_process s' fm3 name = (fm3, false, []).
Proof.
  intros Hstart [Hsig Hpath] fm2 woken Hs Hs' Hfree Hspawn th Hth.
  apply start_srt_to_rtmp_started in Hstart
    as (process & command & rtmp' & ip' & -> & Hfm & Hpm & Ht & ->).
  cbv zeta in Ht. subst t.
  apply elem_of_cons in Hth as [Hth|Hth]; [done|].
  apply list_elem_of_singleton in Hth. injection Hth as ->.
  exists command. split; [done|].
  assert (Hmem : Dict.mem (Dict.set (FFmpegManager.processes fm) name
                             (FFmpegManager.Info "srt_to_rtmp" rtmp' port ip')) name = true).
  { apply mem_get. rewrite get_set_eq. by eexists. }
  set (fm1 := FFmpegManager.Manager _ _ _) in *.
  assert (Hstop :
    (FFmpegManager.stop_process s fm1 name).1
    = (FFmpegManager.Manager
         (ProcessManager.Manager
            (ProcessManager._processes (FFmpegManager.process_manager fm))
            (Dict.del
               (Dict.set (ProcessManager._threads (FFmpegManager.process_manager fm)) name
                  (ProcessManager.MonitorOutput name process
                     (Some FFmpegManager.on_stdout) (Some FFmpegManager.on_stderr) true
                     command None None)) name)
            (ProcessManager._shutdown_event (FFmpegManager.process_manager fm)))
         (FFmpegManager.ffmpeg_path fm) (FFmpegManager.processes fm),
       true)).
  { subst fm1. unfold FFmpegManager.stop_process. simpl. rewrite Hmem. simpl.
    unfold ProcessManager.stop_process. simpl.
    rewrite get_set_eq, Hsig. simpl.
    rewrite (proj2 (mem_get _ _)) by (rewrite get_set_eq; by eexists).
    rewrite (del_set_fresh _ _ _ Hpm).
    destruct (ProcessManager.first_wait s); simpl;
      [by rewrite (del_set_fresh _ _ _ Hfm)|].
    destruct Hpath as [?|[-> ->]]; [done|]. simpl.
    by rewrite (del_set_fresh _ _ _ Hfm). }
  subst woken fm2.
  destruct (FFmpegManager.stop_process s fm1 name) as [[fm2 ok] t2].
  cbn [fst snd] in *. injection Hstop as -> ->.
  split; [done|]. split; [by apply mem_get_false|].
  cbn [ProcessManager.run_thread FFmpegManager.process_manager
       FFmpegManager.processes FFmpegManager.ffmpeg_path] in *.
  set (pm2 := ProcessManager.Manager
                (ProcessManager._processes (FFmpegManager.process_manager fm))
                (Dict.del _ name) _) in *.
  assert (Hforget : ProcessManager.forget pm2 name = pm2).
  { unfold ProcessManager.forget. subst pm2. simpl.
    rewrite (proj2 (mem_get_false _ _) Hpm).
    by rewrite mem_del. }
  rewrite monitor_output_restarts; [|done|by rewrite Hforget].
  rewrite Hforget. unfold ProcessManager.start_process.
  rewrite (proj2 (mem_get_false _ _) Hfree), Hspawn. simpl.
  split; [done|]. split; [by rewrite get_set_eq|].
  assert (Hno : Dict.mem (FFmpegManager.processes fm) name = false)
    by (by apply mem_get_false).
  split.
  - intros alive. unfold FFmpegManager.is_process_running. simpl. by rewrite Hno.
  - intros s'. unfold FFmpegManager.stop_process. simpl. by rewrite Hno.
Qed.

(** The intake relay is started on port 9001 and stopped while the host
    is still there. *)
Lemma X21_stopped_intake_relay_comes_back_witness :
  let started :=
    FFmpegManager.start_srt_to_rtmp (λ _, false) (Some (ProcessManager.Popen 41))
      Scenario.no_processes 9001 None "0.0.0.0" None in
  let e := ProcessManager.MonitorEnv 1 (λ m, m) (Some (ProcessManager.Popen 42)) in
  let fm2 :=
    (FFmpegManager.stop_process Scenario.clean_stop started.1.1 "srt_to_rtmp_9001").1.1 in
  let th :=
    ProcessManager.MonitorOutput "srt_to_rtmp_9001" (ProcessManager.Popen 41)
      (Some FFmpegManager.on_stdout) (Some FFmpegManager.on_stderr) true
      (FFmpegManager.intake_command Scenario.no_processes 9001
         "rtmp://127.0.0.1:1935/live/stream" "0.0.0.0") None None in
  Supervision.goes_through Scenario.clean_stop ∧
  Dict.get
    (ProcessManager._processes
       (ProcessManager.run_thread e (FFmpegManager.process_manager fm2) th).1)
    "srt_to_rtmp_9001"
  = Some (ProcessManager.Popen 42).
Proof.
  intros started e fm2 th.
  assert (Hs : FFmpegManager.start_srt_to_rtmp (λ _, false)
                 (Some (ProcessManager.Popen 41)) Scenario.no_processes 9001 None
                 "0.0.0.0" (Some "srt_to_rtmp_9001")
               = (started.1.1, true, started.2)) by reflexivity.
  assert (Hg : Supervision.goes_through Scenario.clean_stop) by (split; [done|by left]).
  assert (Hth : ProcessManager.ThreadStart th ∈ started.2).
  { apply list_elem_of_further, list_elem_of_here. }
  split; [done|].
  destruct (X21_stopped_intake_relay_comes_back (λ _, false) _ _ _ _ _ _ _ _
              Scenario.clean_stop e (ProcessManager.Popen 42) Hs Hg
              eq_refl eq_refl eq_refl eq_refl th Hth) as (command & _ & _ & _ & H).
  fold fm2 in H.
  destruct (ProcessManager.run_thread e (FFmpegManager.process_manager fm2) th)
    as [pm3 t3].
  by destruct H as (_ & H & _).
Defined.

(** X22. [stop_all] of the relay manager, when every stop goes through,
    takes off both tables exactly the relays that were on both.  A relay
    whose process the process manager no longer tracks, because it ended
    by itself, stays on the relay manager's record, and the processes of
    other components stay with the process manager. *)
Theorem X22_relay_stop_all (e : string → ProcessManager.stop_env) (fm : FFmpegManager.t) :
  (∀ name, name ∈ FFmpegManager.get_all_processes fm →
     Supervision.goes_through (e name)) →
  let fm' := (FFmpegManager.stop_all e fm).1 in
  ∀ name,
    Dict.get (FFmpegManager.processes fm') name
    = (if Dict.mem (ProcessManager._processes (FFmpegManager.process_manager fm)) name
       then None else Dict.get (FFmpegManager.processes fm) name) ∧
    Dict.get (ProcessManager._processes (FFmpegManager.process_manager fm')) name
    = (if Dict.mem (FFmpegManager.processes fm) name
       then None
       else Dict.get (ProcessManager._processes (FFmpegManager.process_manager fm)) name).
Proof.
  intros Hgood fm' name. subst fm'. unfold FFmpegManager.stop_all.
  destruct (stop_each_relays e (FFmpegManager.get_all_processes fm) fm Hgood name)
    as [H1 H2].
  rewrite H1, H2. unfold FFmpegManager.get_all_processes.
  destruct (Dict.mem (FFmpegManager.processes fm) name) eqn:Hm.
  - rewrite bool_decide_eq_true_2.
    2: { apply mem_get in Hm. destruct (decide (name ∈ Dict.keys (FFmpegManager.processes fm)));
           [done|]. apply get_None_keys in n. rewrite n in Hm. by destruct Hm. }
    cbn [andb]. split; [done|].
    destruct (Dict.mem (ProcessManager._processes _) name) eqn:Hpm; [done|].
    by apply mem_get_false.
  - rewrite andb_false_r. cbn [andb]. apply mem_get_false in Hm. rewrite Hm.
    by destruct (Dict.mem (ProcessManager._processes _) name).
Qed.

(** Two viewer relays, of which the process manager still tracks one. *)
Lemma X22_relay_stop_all_witness :
  let fm :=
    FFmpegManager.Manager
      (ProcessManager.Manager [("client_Saber_10000", ProcessManager.Popen 31)] [] false)
      "ffmpeg.exe"
      [("client_Saber_10000", FFmpegManager.Info "rtmp_to_srt" "rtmp://h/live" 10000 "0.0.0.0");
       ("client_Rider_10001", FFmpegManager.Info "rtmp_to_srt" "rtmp://h/live" 10001 "0.0.0.0")] in
  let fm' := (FFmpegManager.stop_all (λ _, Scenario.clean_stop) fm).1 in
  Dict.get (FFmpegManager.processes fm') "client_Saber_10000" = None ∧
  Dict.get (FFmpegManager.processes fm') "client_Rider_10001"
  = Some (FFmpegManager.Info "rtmp_to_srt" "rtmp://h/live" 10001 "0.0.0.0").
Proof.
  intros fm fm'.
  assert (Hg : ∀ name, name ∈ FFmpegManager.get_all_processes fm →
                 Supervision.goes_through ((λ _, Scenario.clean_stop) name)).
  { intros name _. split; [done|by left]. }
  split.
  - apply (X22_relay_stop_all (λ _, Scenario.clean_stop) fm Hg "client_Saber_10000").
  - apply (X22_relay_stop_all (λ _, Scenario.clean_stop) fm Hg "client_Rider_10001").
Defined.

(** * Choosing an address *)

Section addresses.
Import NetworkUtils Addresses.


Lemma local_loop (ips : list (string * string)) : ∀ v6 v4,
  fold_left
    (λ (acc : list string * list string) (entry : string * string),
       if has_colon entry.1 then (acc.1 ++ [entry.1], acc.2)
       else (acc.1, acc.2 ++ [entry.1]))
    ips (v6, v4)
  = (v6 ++ filter (λ ip, has_colon ip = true) ips.*1,
     v4 ++ filter (λ ip, has_colon ip = false) ips.*1).
Proof.
  induction ips as [|[ip name] l IH]; intros v6 v4; cbn [fold_left fst snd].
  { by rewrite !app_nil_r. }
  rewrite fmap_cons. cbn [fst]. destruct (has_colon ip) eqn:Hc; rewrite IH.
  - rewrite filter_cons_True, filter_cons_False by (by rewrite Hc).
    by rewrite <- app_assoc.
  - rewrite filter_cons_False, filter_cons_True by (by rewrite Hc).
    by rewrite <- app_assoc.
Qed.


End addresses.



(** X24. [get_local_ip] answers the public IPv6 address when IPv6 is
    preferred and there is one; else the first interface address in the
    order of preference, where an address counts as IPv6 when it holds a
    colon; and the loopback address when there is no interface address at
    all.  Without the preference the public address is not looked at. *)
Theorem X24_get_local_ip (public : option string) (ips : list (string * string))
    (prefer_ipv6 : bool) :
  let v6 := filter (λ ip, Addresses.has_colon ip = true) ips.*1 in
  let v4 := filter (λ ip, Addresses.has_colon ip = false) ips.*1 in
  Addresses.get_local_ip public ips prefer_ipv6
  = (if prefer_ipv6 && WebSocketServer.truthy_str public
     then default "" public
     else default "127.0.0.1" (head (if prefer_ipv6 then v6 ++ v4 else v4 ++ v6))) ∧
  (Addresses.get_local_ip public ips false = Addresses.get_local_ip None ips false) ∧
  (ips = [] → WebSocketServer.truthy_str public = false →
   Addresses.get_local_ip public ips prefer_ipv6 = "127.0.0.1").
Proof.
  intros v6 v4.
  assert (Hgen : ∀ pub prefer,
    Addresses.get_local_ip pub ips prefer
    = (if prefer && WebSocketServer.truthy_str pub
       then default "" pub
       else default "127.0.0.1" (head (if prefer then v6 ++ v4 else v4 ++ v6)))).
  { intros pub prefer. unfold Addresses.get_local_ip.
    assert (Hrest :
      (let '(ipv6_addrs, ipv4_addrs) :=
         fold_left
           (λ (acc : list string * list string) (entry : string * string),
              if Addresses.has_colon entry.1 then (acc.1 ++ [entry.1], acc.2)
              else (acc.1, acc.2 ++ [entry.1]))
           ips ([], []) in
       if prefer && negb (bool_decide (ipv6_addrs = []))
       then default "127.0.0.1" (head ipv6_addrs)
       else if negb (bool_decide (ipv4_addrs = []))
       then default "127.0.0.1" (head ipv4_addrs)
       else if negb (bool_decide (ipv6_addrs = []))
       then default "127.0.0.1" (head ipv6_addrs)
       else "127.0.0.1")
      = default "127.0.0.1" (head (if prefer then v6 ++ v4 else v4 ++ v6))).
    { rewrite local_loop. cbn [app]. fold v6 v4. by destruct prefer, v6, v4. }
    destruct prefer; cbn [andb]; [|exact Hrest].
    destruct pub as [ip|]; cbn [WebSocketServer.truthy_str]; [|exact Hrest].
    destruct (bool_decide (ip ≠ "")); [done|exact Hrest]. }
  split; [apply Hgen|]. split; [by rewrite !Hgen|].
  intros -> Hpub. rewrite Hgen, Hpub, andb_false_r. by destruct prefer_ipv6.
Qed.

(** A machine with one IPv4 and one IPv6 interface address and no public
    IPv6 address. *)
Lemma X24_get_local_ip_witness :
  Addresses.get_local_ip None [("192.0.2.7", "eth0 (IPv4)"); ("2001:db8::7", "eth0 (IPv6)")]
    true = "2001:db8::7" ∧
  Addresses.get_local_ip None [("192.0.2.7", "eth0 (IPv4)"); ("2001:db8::7", "eth0 (IPv6)")]
    false = "192.0.2.7" ∧
  Addresses.get_local_ip None [] true = "127.0.0.1".
Proof.
  split; [by vm_compute|]. split; [by vm_compute|].
  by apply (X24_get_local_ip None [] true).
Defined.
